(** * spedextractor.gen_odoo: the register hierarchy, the field passes and
      the generated artefacts

    A shallow embedding of [src/spedextractor/gen_odoo.py].  Python text is
    [string] (one [ascii] per code point, so the text modelled is the text
    whose code points are below 256), Python integers are [Z], the
    dictionaries returned by [get_registers] and [get_fields] are records
    living in a heap (a list indexed by position) because the code mutates
    them in place and stores references to them, and a raised exception is
    the [Raise] case of [result]. *)

From Stdlib Require Import ZArith String Ascii List Bool Lia.
From Stdlib Require Import Numbers.DecimalString Numbers.DecimalZ.
From stdpp Require Import base list strings gmap sorting.

Open Scope string_scope.
Open Scope Z_scope.

(** ** Exceptions *)

Inductive exn := IndexError | ValueError | AttributeError.

Inductive result (A : Type) :=
| Ok (a : A)
| Raise (e : exn).
Arguments Ok {A} a.
Arguments Raise {A} e.

Global Instance result_bind : MBind result := fun A B k m =>
  match m with
  | Ok a => k a
  | Raise e => Raise e
  end.

Global Instance result_ret : MRet result := fun A a => Ok a.

(** ** The Python string primitives the module uses *)

Module Py.

(** [str.isspace] on code points below 256. *)
Definition is_space (a : ascii) : bool :=
  let n := nat_of_ascii a in
  ((9 <=? n) && (n <=? 13) || (28 <=? n) && (n <=? 32)
   || (n =? 133) || (n =? 160))%nat.

Definition is_digit (a : ascii) : bool :=
  let n := nat_of_ascii a in ((48 <=? n) && (n <=? 57))%nat.

Definition digit_val (a : ascii) : Z := Z.of_nat (nat_of_ascii a) - 48.

Fixpoint drop_while {A} (p : A -> bool) (l : list A) : list A :=
  match l with
  | [] => []
  | x :: l' => if p x then drop_while p l' else l
  end.

Fixpoint take_while {A} (p : A -> bool) (l : list A) : list A :=
  match l with
  | [] => []
  | x :: l' => if p x then x :: take_while p l' else []
  end.

Definition strip_with (p : ascii -> bool) (l : list ascii) : list ascii :=
  rev (drop_while p (rev (drop_while p l))).

Definition strip_chars (l : list ascii) : list ascii :=
  strip_with is_space l.

(** [s.strip()] *)
Definition strip (s : string) : string :=
  string_of_list_ascii (strip_chars (list_ascii_of_string s)).

(** [s.startswith(p)] *)
Definition startswith (s p : string) : bool := String.prefix p s.

(** [s.endswith(p)] *)
Definition endswith (s p : string) : bool :=
  String.prefix (String.rev p) (String.rev s).

(** [p in s] for two strings. *)
Fixpoint contains (s p : string) : bool :=
  String.prefix p s ||
  match s with
  | EmptyString => false
  | String _ s' => contains s' p
  end.

Definition len (s : string) : Z := Z.of_nat (String.length s).

(** One bound of a slice, clamped the way [slice.indices] clamps it. *)
Definition clamp (n : Z) (i : Z) : Z :=
  if i <? 0 then Z.max 0 (n + i) else Z.min n i.

(** [s[start:stop]]; [None] is an omitted bound. *)
Definition slice (s : string) (start stop : option Z) : string :=
  let n := len s in
  let a := match start with Some i => clamp n i | None => 0 end in
  let b := match stop with Some i => clamp n i | None => n end in
  String.substring (Z.to_nat a) (Z.to_nat (b - a)) s.

(** [s[0]]: the first character as a string of length one. *)
Definition first_char (s : string) : result string :=
  match s with
  | EmptyString => Raise IndexError
  | String c _ => Ok (String c EmptyString)
  end.

(** The digits of an integer literal: decimal digits, a single underscore
    allowed between two digits. *)
Fixpoint digits_value (acc : Z) (after_digit : bool) (l : list ascii)
  : option Z :=
  match l with
  | [] => if after_digit then Some acc else None
  | c :: l' =>
      if is_digit c then digits_value (10 * acc + digit_val c) true l'
      else if Ascii.eqb c "_" && after_digit then
        match l' with
        | [] => None
        | _ => digits_value acc false l'
        end
      else None
  end.

(** The white space [int] skips around a literal: of the characters
    below 128 the ones of C's [isspace] only, so not 28 to 31. *)
Definition is_int_space (a : ascii) : bool :=
  let n := nat_of_ascii a in
  ((9 <=? n) && (n <=? 13) || (n =? 32) || (n =? 133) || (n =? 160))%nat.

(** A literal of more than 4300 digits is refused, the default of
    [sys.get_int_max_str_digits]. *)
Definition literal_value (ds : list ascii) : option Z :=
  if 4300 <? Z.of_nat (length (List.filter is_digit ds)) then None
  else digits_value 0 false ds.

Definition int_chars (l : list ascii) : option Z :=
  match strip_with is_int_space l with
  | "+"%char :: ds => literal_value ds
  | "-"%char :: ds => Z.opp <$> literal_value ds
  | ds => literal_value ds
  end.

(** [int(s)] in base ten; [ValueError] when [s] is not an integer literal. *)
Definition int (s : string) : result Z :=
  match int_chars (list_ascii_of_string s) with
  | Some z => Ok z
  | None => Raise ValueError
  end.

(** [str(z)] for an integer. *)
Definition str_of_int (z : Z) : string :=
  NilEmpty.string_of_int (Z.to_int z).

(** [s.replace(old, new)] for a non-empty [old]: [skip] counts the
    characters of a match still to be dropped. *)
Fixpoint replace_from (old new : string) (skip : nat) (s : string) : string :=
  match s with
  | EmptyString => EmptyString
  | String c s' =>
      match skip with
      | S k => replace_from old new k s'
      | O =>
          if String.prefix old s
          then new ++ replace_from old new (String.length old - 1) s'
          else String c (replace_from old new O s')
      end
  end.

Definition replace (s old new : string) : string := replace_from old new O s.

(** [s.split(sep)] for a separator of one character. *)
Fixpoint split_go (sep : ascii) (cur : string) (s : string) : list string :=
  match s with
  | EmptyString => [String.rev cur]
  | String c s' =>
      if Ascii.eqb c sep then String.rev cur :: split_go sep EmptyString s'
      else split_go sep (String c cur) s'
  end.

Definition split (s : string) (sep : ascii) : list string :=
  split_go sep EmptyString s.

(** Truth value of an optional text entry: [None] stands for a missing key
    or a [None] value, and the empty string is false as well. *)
Definition truthy (o : option string) : bool :=
  match o with
  | Some s => negb (String.eqb s "")
  | None => false
  end.

End Py.


(** ** Registers

    One dictionary of [get_registers].  The list of registers is the heap:
    a reference to a register is its position in the list, which is how
    ["parent"], ["o2m_parent"] and the two children lists point at other
    registers.  An entry the code adds later is [None] until it is set. *)

Record register := {
  reg_code : string;
  reg_level : Z;
  reg_card : string;
  reg_desc : string;
  reg_spec_required : option string;
  reg_short_desc : option string;
  reg_parent : option nat;
  reg_o2m_parent : option nat;
  reg_children_o2m : option (list nat);
  reg_children_m2o : option (list nat)
}.

Definition set_parent (p : nat) (r : register) : register :=
  {| reg_code := reg_code r; reg_level := reg_level r; reg_card := reg_card r;
     reg_desc := reg_desc r; reg_spec_required := reg_spec_required r;
     reg_short_desc := reg_short_desc r;
     reg_parent := Some p; reg_o2m_parent := reg_o2m_parent r;
     reg_children_o2m := reg_children_o2m r;
     reg_children_m2o := reg_children_m2o r |}.

Definition set_o2m_parent (p : nat) (r : register) : register :=
  {| reg_code := reg_code r; reg_level := reg_level r; reg_card := reg_card r;
     reg_desc := reg_desc r; reg_spec_required := reg_spec_required r;
     reg_short_desc := reg_short_desc r;
     reg_parent := reg_parent r; reg_o2m_parent := Some p;
     reg_children_o2m := reg_children_o2m r;
     reg_children_m2o := reg_children_m2o r |}.

Definition set_children (o2m m2o : list nat) (r : register) : register :=
  {| reg_code := reg_code r; reg_level := reg_level r; reg_card := reg_card r;
     reg_desc := reg_desc r; reg_spec_required := reg_spec_required r;
     reg_short_desc := reg_short_desc r;
     reg_parent := reg_parent r; reg_o2m_parent := reg_o2m_parent r;
     reg_children_o2m := Some o2m;
     reg_children_m2o := Some m2o |}.

Definition set_short_desc (d : string) (r : register) : register :=
  {| reg_code := reg_code r; reg_level := reg_level r; reg_card := reg_card r;
     reg_desc := reg_desc r; reg_spec_required := reg_spec_required r;
     reg_short_desc := Some d;
     reg_parent := reg_parent r; reg_o2m_parent := reg_o2m_parent r;
     reg_children_o2m := reg_children_o2m r;
     reg_children_m2o := reg_children_m2o r |}.

(** A register as [get_registers] returns it. *)
Definition mk_register (code : string) (level : Z) (card desc : string)
  : register :=
  {| reg_code := code; reg_level := level; reg_card := card; reg_desc := desc;
     reg_spec_required := None; reg_short_desc := None;
     reg_parent := None; reg_o2m_parent := None;
     reg_children_o2m := None; reg_children_m2o := None |}.

(** ** collect_register_children *)

(** [r["card"].strip() == "1:1" or r["card"].strip() == "1;1"] *)
Definition is_m2o_card (r : register) : bool :=
  String.eqb (Py.strip (reg_card r)) "1:1"
  || String.eqb (Py.strip (reg_card r)) "1;1".

(** The inner [for r in registers] loop, for the register at position
    [ri] with code [c] and level [lvl]; [js] are the positions still to
    visit.  Returning before [js] is exhausted is the [break]. *)
Fixpoint scan_children (ri : nat) (c : string) (lvl : Z) (js : list nat)
    (collect_children : bool) (children_o2m children_m2o : list nat)
    (regs : list register) : list register * list nat * list nat :=
  match js with
  | [] => (regs, children_o2m, children_m2o)
  | j :: js' =>
      match regs !! j with
      | None => (regs, children_o2m, children_m2o)
      | Some r =>
          if String.eqb (reg_code r) c then
            scan_children ri c lvl js' true children_o2m children_m2o regs
          else if collect_children then
            if reg_level r =? lvl + 1 then
              if is_m2o_card r then
                scan_children ri c lvl js' true children_o2m
                  (children_m2o ++ [j]) (alter (set_parent ri) j regs)
              else
                scan_children ri c lvl js' true (children_o2m ++ [j])
                  children_m2o
                  (alter (set_parent ri) j (alter (set_o2m_parent ri) j regs))
            else if reg_level r <=? lvl then
              (regs, children_o2m, children_m2o)
            else
              scan_children ri c lvl js' true children_o2m children_m2o regs
          else
            scan_children ri c lvl js' false children_o2m children_m2o regs
      end
  end.

(** One round of the outer loop, for the register at position [ri]. *)
Definition collect_children_of (regs : list register) (ri : nat)
  : list register :=
  match regs !! ri with
  | None => regs
  | Some register_info =>
      if 1 <? reg_level register_info then
        let '(regs', children_o2m, children_m2o) :=
          scan_children ri (reg_code register_info) (reg_level register_info)
            (seq 0 (length regs)) false [] [] regs in
        alter (set_children children_o2m children_m2o) ri regs'
      else regs
  end.

Definition collect_register_children (regs : list register) : list register :=
  foldl collect_children_of regs (seq 0 (length regs)).

(** The children of the register at position [i], read off the list: the
    positions after [i], up to the first one whose level is not above
    [lvl], that sit exactly one level below. *)
Definition level_at (regs : list register) (k : nat) : Z :=
  match regs !! k with Some r => reg_level r | None => 0 end.

Definition m2o_at (regs : list register) (k : nat) : bool :=
  match regs !! k with Some r => is_m2o_card r | None => false end.

Definition following_children (regs : list register) (i : nat) : list nat :=
  let lvl := level_at regs i in
  List.filter (fun k => level_at regs k =? lvl + 1)
    (Py.take_while (fun k => lvl <? level_at regs k)
       (seq (S i) (length regs - S i))).

(** C1 as it is stated: [regs] is the list handed to the function and
    [regs'] the list it leaves. *)
Definition hierarchy_read (regs regs' : list register) : Prop :=
  forall i r, regs !! i = Some r -> 1 < reg_level r ->
    exists r', regs' !! i = Some r' /\
      reg_children_m2o r' =
        Some (List.filter (m2o_at regs) (following_children regs i)) /\
      reg_children_o2m r' =
        Some (List.filter (fun k => negb (m2o_at regs k))
                (following_children regs i)) /\
      forall k, In k (following_children regs i) ->
        exists c, regs' !! k = Some c /\
          reg_parent c = Some i /\
          (m2o_at regs k = false -> reg_o2m_parent c = Some i).

Definition sample_registers : list register :=
  [ mk_register "0000" 0 "1" "Abertura";
    mk_register "C001" 1 "1" "Abertura do bloco C";
    mk_register "C100" 2 "1:N" "Nota fiscal";
    mk_register "C110" 3 "1:N" "Informacao complementar";
    mk_register "C111" 4 " 1:1 " "Processo referenciado";
    mk_register "C170" 3 "1;1" "Itens do documento";
    mk_register "C190" 2 "1:N" "Registro analitico";
    mk_register "C990" 1 "1" "Encerramento do bloco C" ].

(** Two registers carrying the same code. *)
Definition twin_registers : list register :=
  [ mk_register "C100" 2 "1:N" "a";
    mk_register "C110" 3 "1:N" "b";
    mk_register "C100" 2 "1:N" "c";
    mk_register "C120" 3 "1:N" "d" ].

(** What the inner loop never changes of a register, and the store it
    leaves once the children [kids] of [ri] have been visited. *)
Definition reg_key (r : register) : string * Z * string * string :=
  (reg_code r, reg_level r, reg_card r, reg_desc r).

Definition mark_child (regs0 : list register) (ri : nat)
    (st : list register) (k : nat) : list register :=
  if m2o_at regs0 k then alter (set_parent ri) k st
  else alter (set_parent ri) k (alter (set_o2m_parent ri) k st).

Definition mark_children (regs0 : list register) (ri : nat)
    (kids : list nat) (st : list register) : list register :=
  foldl (mark_child regs0 ri) st kids.

Definition children_among (regs0 : list register) (lvl : Z) (js : list nat)
  : list nat :=
  List.filter (fun k => level_at regs0 k =? lvl + 1)
    (Py.take_while (fun k => lvl <? level_at regs0 k) js).

Definition link (ri : nat) (m2o : bool) (r : register) : register :=
  if m2o then set_parent ri r else set_parent ri (set_o2m_parent ri r).

(** The store after the first [m] rounds of the outer loop. *)
Definition rounds_done (regs0 : list register) (m : nat)
    (st : list register) : Prop :=
  reg_key <$> regs0 = reg_key <$> st /\
  forall i r, (i < m)%nat -> regs0 !! i = Some r -> 1 < reg_level r ->
    exists r', st !! i = Some r' /\
      reg_children_m2o r' =
        Some (List.filter (m2o_at regs0) (following_children regs0 i)) /\
      reg_children_o2m r' =
        Some (List.filter (fun k => negb (m2o_at regs0 k))
                (following_children regs0 i)) /\
      forall k, In k (following_children regs0 i) ->
        exists c, st !! k = Some c /\
          reg_parent c = Some i /\
          (m2o_at regs0 k = false -> reg_o2m_parent c = Some i).


(** ** Fields

    One dictionary of [get_fields]; the list [mod_fields] is a heap in the
    same way.  An optional text entry is [None] when the key is missing. *)

Record field := {
  fld_register : string;
  fld_code : string;
  fld_index : Z;
  fld_desc : string;
  fld_type : option string;
  fld_length : option string;
  fld_decimal : option string;
  fld_required : option string;
  fld_xsd_type : option string;
  fld_in_required : option string;
  fld_out_required : option string
}.

Definition set_code (c : string) (f : field) : field :=
  {| fld_register := fld_register f; fld_code := c; fld_index := fld_index f;
     fld_desc := fld_desc f; fld_type := fld_type f;
     fld_length := fld_length f; fld_decimal := fld_decimal f;
     fld_required := fld_required f; fld_xsd_type := fld_xsd_type f;
     fld_in_required := fld_in_required f;
     fld_out_required := fld_out_required f |}.

Definition set_type (t : string) (f : field) : field :=
  {| fld_register := fld_register f; fld_code := fld_code f;
     fld_index := fld_index f;
     fld_desc := fld_desc f; fld_type := Some t;
     fld_length := fld_length f; fld_decimal := fld_decimal f;
     fld_required := fld_required f; fld_xsd_type := fld_xsd_type f;
     fld_in_required := fld_in_required f;
     fld_out_required := fld_out_required f |}.

Definition mk_field (register code : string) (index : Z) (desc : string)
    (type length decimal : option string) : field :=
  {| fld_register := register; fld_code := code; fld_index := index;
     fld_desc := desc; fld_type := type; fld_length := length;
     fld_decimal := decimal; fld_required := None; fld_xsd_type := None;
     fld_in_required := None; fld_out_required := None |}.

(** ** The pass that makes the field codes of a register unique *)

(** [list(filter(lambda x: x["register"] == code, mod_fields))], as
    positions in [mod_fields]. *)
Definition fields_of_register (code : string) (flds : list field) : list nat :=
  List.filter
    (fun j => match flds !! j with
              | Some f => String.eqb (fld_register f) code
              | None => false
              end)
    (seq 0 (length flds)).

(** [f'{field["code"]}_INDEX_{field["index"]}'] *)
Definition indexed_code (f : field) : string :=
  fld_code f ++ "_INDEX_" ++ Py.str_of_int (fld_index f).

Fixpoint unique_field_codes (js : list nat) (unique_codes : gset string)
    (fields : list nat) (flds : list field) : list field * list nat :=
  match js with
  | [] => (flds, fields)
  | j :: js' =>
      match flds !! j with
      | None => (flds, fields)
      | Some f =>
          if decide (fld_code f ∈ unique_codes) then
            unique_field_codes js' ({[indexed_code f]} ∪ unique_codes)
              (fields ++ [j]) (alter (set_code (indexed_code f)) j flds)
          else
            unique_field_codes js' ({[fld_code f]} ∪ unique_codes)
              (fields ++ [j]) flds
      end
  end.

(** The pass of [main] for the register with code [code]. *)
Definition dedup_register_fields (code : string) (flds : list field)
  : list field * list nat :=
  unique_field_codes (fields_of_register code flds) ∅ [] flds.

(** The codes of the list [fields] once the pass is over. *)
Definition codes_after (code : string) (flds : list field) : list string :=
  let '(flds', fields) := dedup_register_fields code flds in
  omap (fun j => fld_code <$> flds' !! j) fields.

(** The fields of the register before the pass, in the order of
    [mod_fields]. *)
Definition register_fields (code : string) (flds : list field) : list field :=
  List.filter (fun f => String.eqb (fld_register f) code) flds.

(** The codes the pass is meant to leave: the first field bearing a code
    keeps it, a later one gets its index appended. *)
Fixpoint renamed_codes (earlier : list string) (fs : list field)
  : list string :=
  match fs with
  | [] => []
  | f :: fs' =>
      (if decide (fld_code f ∈ earlier) then indexed_code f else fld_code f)
      :: renamed_codes (earlier ++ [fld_code f]) fs'
  end.

(** C2 as it is stated. *)
Definition codes_made_unique (code : string) (flds : list field) : Prop :=
  NoDup (codes_after code flds) /\
  codes_after code flds = renamed_codes [] (register_fields code flds).

(** The pass on a plain list of fields: the result codes, given the codes
    already in [unique_codes]. *)
Fixpoint pass_codes (unique_codes : gset string) (fs : list field)
  : list string :=
  match fs with
  | [] => []
  | f :: fs' =>
      if decide (fld_code f ∈ unique_codes) then
        indexed_code f :: pass_codes ({[indexed_code f]} ∪ unique_codes) fs'
      else fld_code f :: pass_codes ({[fld_code f]} ∪ unique_codes) fs'
  end.

Definition sample_fields : list field :=
  [ mk_field "C100" "REG" 1 "Texto fixo contendo C100" (Some "char") (Some "4") None;
    mk_field "C100" "DT_DOC" 2 "Data da emissao" (Some "int") (Some "8") None;
    mk_field "C100" "VL_DOC" 3 "Valor total do documento" (Some "float") None (Some "2");
    mk_field "C170" "REG" 1 "Texto fixo contendo C170" (Some "char") (Some "4") None;
    mk_field "C100" "QTD" 4 "Quantidade" (Some "float") None (Some "0");
    mk_field "C170" "ALIQ_PIS" 2 "Aliquota do PIS (em percentual)" (Some "float") (Some "8") (Some "4");
    mk_field "C170" "ALIQ_PIS" 3 "Aliquota do PIS (em reais)" (Some "float") None (Some "4");
    mk_field "C170" "NUM_ITEM" 4 "Numero do item" (Some "int") (Some "3") None;
    mk_field "C170" "DESCR" 5 "Descricao complementar" None None None ].

(** Fields whose codes the pass leaves equal. *)
Definition clashing_fields : list field :=
  [ mk_field "M210" "ALIQ_INDEX_3" 1 "a" None None None;
    mk_field "M210" "ALIQ" 2 "b" None None None;
    mk_field "M210" "ALIQ" 3 "c" None None None ].

(** What the pass relies on: no field code of the register is another
    field's code with that field's index appended, and two fields with the
    same code never carry the same index. *)
Definition no_code_is_indexed (fs : list field) : Prop :=
  forall f g, f ∈ fs -> g ∈ fs -> fld_code g <> indexed_code f.

Definition same_code_distinct_index (fs : list field) : Prop :=
  forall (i j : nat) f g, fs !! i = Some f -> fs !! j = Some g -> i <> j ->
    fld_code f = fld_code g -> fld_index f <> fld_index g.

(** ** The xsdata models handed to the generator *)

Record AttrType := { at_qname : string; at_native : bool }.

Record Restrictions := { min_occurs : option Z; max_occurs : option Z }.

Record Attr := {
  attr_tag : string;
  attr_name : string;
  attr_types : list AttrType;
  attr_restrictions : Restrictions;
  attr_help : string;
  attr_index : Z
}.

Record Class := {
  cls_qname : string;
  cls_tag : string;
  cls_location : string;
  cls_attrs : list Attr;
  cls_help : string;
  cls_module : string
}.

(** The state of [generator.filters] that [main] sets. *)
Record Filters := {
  flt_schema : string;
  flt_version : string;
  flt_inherit_model : string;
  flt_registers : list register;
  flt_fields : list field;
  flt_all_complex_types : list Class
}.

(** ** What the module imports

    The functions of Python and of the libraries it calls ([str.upper],
    [str.lower], xsdata, xsdata_odoo, black) and the functions and
    constants of the sibling modules ([build_csv], [download],
    [constants]).  [format_str] is [None] when black raises.
    [render_classes] is the generator of xsdata_odoo: it fills its
    templates by calling the methods of [SpedFilters] below on the
    classes it is handed, so an exception of [_extract_field_attributes],
    [_extract_number_attrs], [class_properties] and the like comes out of
    it; it returns the text or raises. *)

Class External := {
  str_upper : string -> string;
  str_lower : string -> string;
  extract_string_and_help :
    string -> string -> string -> gset string -> Z ->
    string * string * gset string;
  datatype_code : AttrType -> option string;
  class_name : Class -> string;
  attr_is_list : Attr -> bool;
  attr_is_optional : Attr -> bool;
  field_metadata_required : Attr -> list string -> bool;
  render_classes : Filters -> list Class -> result string;
  format_str : string -> option string;
  get_registers : string -> Z -> list register;
  get_fields : string -> Z -> list field;
  get_version : string -> Z -> string;
  MODULES : list string;
  SPECS_PATH : string
}.

(** ** Text

    A literal of the source is written with an apostrophe for each double
    quote and a caret for each line feed; [lit] puts them back. *)

Definition dq : ascii := ascii_of_nat 34.
Definition lf : ascii := ascii_of_nat 10.

Fixpoint lit (s : string) : string :=
  match s with
  | EmptyString => EmptyString
  | String c s' =>
      String (if Ascii.eqb c "'" then dq else if Ascii.eqb c "^" then lf else c)
             (lit s')
  end.

Definition HEADER : string :=
  lit "# Copyright 2023 - TODAY, Akretion - Raphael Valyi <raphael.valyi@akretion.com>^# License AGPL-3.0 or later (https://www.gnu.org/licenses/lgpl-3.0.en.html).^# Generated by https://github.com/akretion/sped-extractor and xsdata-odoo^# flake8: noqa: B950^".

Definition IMPORTS : string :=
  lit "import textwrap^^from odoo import fields, models^".

(** [s * n] for a string and an integer. *)
Fixpoint repeat_string (s : string) (n : nat) : string :=
  match n with
  | O => EmptyString
  | S n' => s ++ repeat_string s n'
  end.

(** ** _get_alphanum_sequence *)

Definition _get_alphanum_sequence (register_code : string) : result string :=
  bloco_key ← Py.first_char register_code;
  if String.eqb bloco_key "0" then Ok ("0" ++ register_code)
  else if String.eqb bloco_key "1" then Ok ("2" ++ register_code)
  else if String.eqb bloco_key "9" then Ok ("3" ++ register_code)
  else Ok ("1" ++ register_code).

(** ** sorted(filter(...), key=...)

    [sorted] is stable: [insert_by_key] puts an element before the first
    one whose key is not smaller, and the list is built from its end. *)

Fixpoint insert_by_key {A} (k : string) (x : A) (l : list (string * A))
  : list (string * A) :=
  match l with
  | [] => [(k, x)]
  | (k', y) :: l' =>
      if String.leb k k' then (k, x) :: (k', y) :: l'
      else (k', y) :: insert_by_key k x l'
  end.

Definition sort_keyed {A} (l : list (string * A)) : list (string * A) :=
  fold_right (fun kx acc => insert_by_key (fst kx) (snd kx) acc) [] l.

(** [mapM] for [result]: the first exception wins. *)
Fixpoint map_result {A B} (f : A -> result B) (l : list A) : result (list B) :=
  match l with
  | [] => Ok []
  | x :: l' => y ← f x; ys ← map_result f l'; Ok (y :: ys)
  end.

(** [lambda x: x["code"][0] != "C" or mod not in ("ecd", "ecf")] *)
Definition keep_register (mod_ : string) (x : register) : result bool :=
  c ← Py.first_char (reg_code x);
  Ok (negb (String.eqb c "C")
      || negb (String.eqb mod_ "ecd" || String.eqb mod_ "ecf")).

Definition filter_registers (mod_ : string) (regs : list register)
  : result (list register) :=
  keeps ← map_result (fun x => b ← keep_register mod_ x; Ok (b, x)) regs;
  Ok (snd <$> List.filter fst keeps).

Definition sorted_registers (mod_ : string) (regs : list register)
  : result (list register) :=
  kept ← filter_registers mod_ regs;
  keyed ← map_result
            (fun x => k ← _get_alphanum_sequence (reg_code x); Ok (k, x)) kept;
  Ok (snd <$> sort_keyed keyed).

(** ** The attribute type of a field *)

Definition xs (local : string) : string :=
  "{http://www.w3.org/2001/XMLSchema}" ++ local.

Definition native_type (local : string) : AttrType :=
  {| at_qname := xs local; at_native := true |}.

Definition is_date_code (code : string) : bool :=
  Py.startswith code "DT_" || Py.startswith code "DAT_"
  || Py.startswith code "DATA".

Definition type_is (f : field) (t : string) : bool :=
  match fld_type f with
  | Some s => String.eqb s t
  | None => false
  end.

(** [field["type"] == "int" or field["type"] == "float" and
    field.get("decimal") and int(field["decimal"]) == 0] *)
Definition wants_integer (f : field) : result bool :=
  if type_is f "int" then Ok true
  else if type_is f "float" && Py.truthy (fld_decimal f) then
    z ← Py.int (default "" (fld_decimal f)); Ok (Z.eqb z 0)
  else Ok false.

(** The [if]/[elif] chain of [main] that picks [types]. *)
Definition field_types (f : field) : result (list AttrType) :=
  if is_date_code (fld_code f) then Ok [native_type "date"]
  else
    b ← wants_integer f;
    if (b : bool) then Ok [native_type "integer"]
    else if type_is f "float" then Ok [native_type "float"]
    else Ok [native_type "string"].

(** [if not field.get("type"): field["type"] = "char"] *)
Definition default_type (f : field) : field :=
  if Py.truthy (fld_type f) then f else set_type "char" f.

(** The comment line listing a field in the concrete models source. *)
Definition field_comment (f : field) : string :=
  let max_desc := 88 - Py.len (fld_code f) - 29 in
  lit "    #         '" ++ fld_code f ++ lit "': 0,  # "
  ++ Py.slice (fld_desc f) (Some 0) (Some max_desc)
  ++ (if max_desc <? Py.len (fld_desc f) then "..." else "")
  ++ lit "^".

Definition field_attr (f : field) (types : list AttrType) : Attr :=
  {| attr_tag := fld_code f; attr_name := fld_code f; attr_types := types;
     attr_restrictions :=
       {| min_occurs := Some (if Py.truthy (fld_required f) then 1 else 0);
          max_occurs := None |};
     attr_help := fld_desc f; attr_index := fld_index f |}.

(** [for field in fields:] over the positions [fields] of the heap. *)
Fixpoint field_attrs (fields : list nat) (flds : list field) (src : string)
    (attrs : list Attr) : result (list field * string * list Attr) :=
  match fields with
  | [] => Ok (flds, src, attrs)
  | j :: fields' =>
      match flds !! j with
      | None => Ok (flds, src, attrs)
      | Some f0 =>
          if String.eqb (fld_code f0) "REG" then
            field_attrs fields' flds src attrs
          else
            let f := default_type f0 in
            let flds1 := <[j := f]> flds in
            let src1 := src ++ field_comment f in
            types ← field_types f;
            field_attrs fields' flds1 src1 (attrs ++ [field_attr f types])
      end
  end.

(** The two passes of [main] over the fields of one register. *)
Definition register_field_attrs (code : string) (flds : list field)
    (src : string) : result (list field * string * list Attr) :=
  let '(flds1, fields) := dedup_register_fields code flds in
  field_attrs fields flds1 src [].

(** The case analysis as the description of the generator gives it: the
    type of a field that has none counts as char, and the decimal entry is
    zero when it is a non-empty integer literal of value 0. *)
Definition decimal_is_zero (f : field) : bool :=
  match fld_decimal f with
  | Some d =>
      negb (String.eqb d "")
      && match Py.int d with Ok z => Z.eqb z 0 | Raise _ => false end
  | None => false
  end.

Definition chosen_xsd_type (f : field) : string :=
  let t := match fld_type f with
           | Some s => if String.eqb s "" then "char" else s
           | None => "char"
           end in
  if is_date_code (fld_code f) then "date"
  else if String.eqb t "int" || String.eqb t "float" && decimal_is_zero f
  then "integer"
  else if String.eqb t "float" then "float"
  else "string".

(** The fields of the register [code] in the list handed to the passes,
    each with the code it bears once the first pass is over: its own, or
    its own followed by _INDEX_ and its index when a field before it
    already bore that code. *)
Definition final_fields (code : string) (flds : list field) : list field :=
  zip_with set_code (pass_codes ∅ (register_fields code flds))
    (register_fields code flds).

(** ** The text pieces of main *)

Section Pieces.
Context `{External}.

Definition security_header : string :=
  lit "'id','name','model_id:id','group_id:id','perm_read','perm_write','perm_create','perm_unlink'^".

Definition security_rows (mod_ lc : string) : string :=
  ("access_user_" ++ mod_ ++ "_" ++ lc ++ "," ++ mod_ ++ "." ++ lc
   ++ ",model_l10n_br_sped_" ++ mod_ ++ "_" ++ lc
   ++ lit ",l10n_br_fiscal.group_user,1,0,0,0^")
  ++ ("access_manager_" ++ mod_ ++ "_" ++ lc ++ "," ++ mod_ ++ "." ++ lc
      ++ ",model_l10n_br_sped_" ++ mod_ ++ "_" ++ lc
      ++ lit ",l10n_br_fiscal.group_manager,1,1,1,1^").

Definition views_prolog : string :=
  lit "<?xml version='1.0' encoding='UTF-8'?>^<odoo>".

Definition root_menuitem (mod_ : string) : string :=
  lit "^    <menuitem name='" ++ str_upper (Py.replace mod_ "_" " ")
  ++ lit "' parent='l10n_br_sped_base.menu_root' id='" ++ mod_
  ++ lit "' sequence='2' />".

Definition declaration_action (mod_ : string) : string :=
  lit "^^    <record id='declaration_" ++ mod_
  ++ lit "_action' model='ir.actions.act_window'>^    <field name='name'>"
  ++ str_upper mod_
  ++ lit " Declaration</field>^    <field name='res_model'>l10n_br_sped."
  ++ mod_
  ++ lit ".0000</field>^    <field name='view_mode'>tree,form</field>^    </record>".

Definition declaration_menuitem (mod_ : string) : string :=
  lit "^    <menuitem action='declaration_" ++ mod_ ++ lit "_action' parent='"
  ++ mod_ ++ lit "' id='declaration_" ++ mod_ ++ lit "' />".

Definition bloco_menuitem (mod_ bloco_char : string) : string :=
  lit "^^^    <menuitem name='BLOCO " ++ bloco_char ++ lit "' parent='"
  ++ mod_ ++ lit "' id='" ++ mod_ ++ "_" ++ str_lower bloco_char
  ++ lit "' />".

Definition register_action (mod_ code short_desc : string) : string :=
  let action_name := code ++ " " ++ short_desc in
  lit "^^    <record id='" ++ mod_ ++ "_" ++ str_lower code
  ++ lit "_action' model='ir.actions.act_window'>^        <field name='name'>"
  ++ action_name
  ++ lit "</field>^        <field name='res_model'>l10n_br_sped." ++ mod_
  ++ "." ++ str_lower code
  ++ lit "</field>^        <field name='view_mode'>tree,form</field>^    </record>".

Definition register_menuitem (mod_ code bloco_char : string) : string :=
  lit "^    <menuitem action='" ++ mod_ ++ "_" ++ str_lower code
  ++ lit "_action' parent='" ++ mod_ ++ "_" ++ str_lower bloco_char
  ++ lit "' id='" ++ mod_ ++ "_" ++ str_lower code ++ lit "' />".

Definition concrete_prolog : string :=
  HEADER ++ lit "^import textwrap^^from odoo import models^".

Definition concrete_class (mod_ version code short_desc : string) : string :=
  lit "^^class Registro" ++ code ++ "(models.Model):"
  ++ (lit "^    '" ++ short_desc ++ lit "'")
  ++ lit "^    _description = textwrap.dedent('    %s' % (__doc__,))"
  ++ (lit "^    _name = 'l10n_br_sped." ++ mod_ ++ "." ++ str_lower code
      ++ lit "'")
  ++ (lit "^    _inherit = 'l10n_br_sped." ++ mod_ ++ "." ++ version ++ "."
      ++ str_lower code ++ lit "'")
  ++ lit "^^    # @api.model^    # def _map_from_odoo(self, record, parent_record, declaration):^    #     return {^                ".

(** [extract_string_and_help(mod, code, desc, set(), 100)[0]] *)
Definition short_desc_of (mod_ : string) (r : register) : string :=
  (extract_string_and_help mod_ (reg_code r) (reg_desc r) ∅ 100).1.1.

End Pieces.

(** ** The register loop of main *)

(** The local variables of [main] that the loop over the registers reads
    and writes, with the two heaps. *)
Record gen := {
  g_registers : list register;
  g_fields : list field;
  g_concrete : string;
  g_views : string;
  g_security : string;
  g_last_bloco : option string;
  g_classes : list Class
}.

Inductive flow := Next | Break.

Definition default_restrictions : Restrictions :=
  {| min_occurs := None; max_occurs := None |}.

(** [if register.get("parent"):] and the attribute it appends. *)
Definition parent_attrs (regs : list register) (register : register)
  : list Attr :=
  match reg_parent register with
  | None => []
  | Some p =>
      match regs !! p with
      | None => []
      | Some parent =>
          let parent_qname := "Registro" ++ reg_code parent in
          let m2o_field_name :=
            "reg_" ++ reg_code register ++ "_ids_" ++ parent_qname ++ "_id" in
          [ {| attr_tag := m2o_field_name; attr_name := m2o_field_name;
               attr_types := [ {| at_qname := parent_qname;
                                  at_native := false |} ];
               attr_restrictions := default_restrictions;
               attr_help := reg_desc parent; attr_index := 0 |} ]
      end
  end.

Definition child_attr (child : register) : Attr :=
  let child_qname := "Registro" ++ reg_code child in
  let o2m_field_name := "reg_" ++ reg_code child ++ "_ids" in
  {| attr_tag := o2m_field_name; attr_name := o2m_field_name;
     attr_types := [ {| at_qname := child_qname; at_native := false |} ];
     attr_restrictions := {| min_occurs := None; max_occurs := Some 999999 |};
     attr_help := reg_code child ++ " " ++ reg_desc child;
     attr_index := 0 |}.

(** [register.get("children_m2o", []) + register.get("children_o2m", [])] *)
Definition children_attrs (regs : list register) (register : register)
  : list Attr :=
  child_attr <$>
    omap (fun k => regs !! k)
      (default [] (reg_children_m2o register)
       ++ default [] (reg_children_o2m register))%list.

(** [register["level"] in (0, 1) and register["code"] != "0000"] *)
Definition is_block_marker (r : register) : bool :=
  ((reg_level r =? 0) || (reg_level r =? 1))
  && negb (String.eqb (reg_code r) "0000").

Section Main.
Context `{External}.

(** One round of [for register in registers:] for the register at
    position [i]. *)
Definition one_register (mod_ version : string) (i : nat) (g : gen)
  : result (flow * gen) :=
  match g_registers g !! i with
  | None => Ok (Next, g)
  | Some register =>
      if is_block_marker register then Ok (Next, g)
      else
        bloco_char ← Py.first_char (reg_code register);
        if String.eqb bloco_char "9" then Ok (Break, g)
        else
          let short_desc := short_desc_of mod_ register in
          let registers1 :=
            alter (set_short_desc short_desc) i (g_registers g) in
          let concrete1 :=
            if (1 <? reg_level register)
               || String.eqb (reg_code register) "0000"
            then g_concrete g
                 ++ concrete_class mod_ version (reg_code register) short_desc
            else g_concrete g in
          let views1 :=
            if bool_decide (Some bloco_char = g_last_bloco g) then g_views g
            else g_views g ++ bloco_menuitem mod_ bloco_char in
          let views2 :=
            if reg_level register =? 2
            then (views1
                  ++ register_action mod_ (reg_code register) short_desc)
                 ++ register_menuitem mod_ (reg_code register) bloco_char
            else views1 in
          let name := "Registro" ++ reg_code register in
          '(fields1, concrete2, attrs) ←
            register_field_attrs (reg_code register) (g_fields g) concrete1;
          let concrete3 := concrete2 ++ "    #     }" in
          let attrs1 := (attrs ++ parent_attrs registers1 register)%list in
          let attrs2 :=
            (attrs1 ++ children_attrs registers1 register)%list in
          let k := {| cls_qname := name; cls_tag := name;
                      cls_location := "TODO"; cls_attrs := attrs2;
                      cls_help := reg_desc register; cls_module := mod_ |} in
          Ok (Next,
              {| g_registers := registers1; g_fields := fields1;
                 g_concrete := concrete3; g_views := views2;
                 g_security :=
                   g_security g
                   ++ security_rows mod_ (str_lower (reg_code register));
                 g_last_bloco := Some bloco_char;
                 g_classes := (g_classes g ++ [k])%list |})
  end.

Fixpoint run_registers (mod_ version : string) (positions : list nat)
    (g : gen) : result gen :=
  match positions with
  | [] => Ok g
  | i :: positions' =>
      match one_register mod_ version i g with
      | Raise e => Raise e
      | Ok (Break, g') => Ok g'
      | Ok (Next, g') => run_registers mod_ version positions' g'
      end
  end.

End Main.

(** ** get_structure *)

(** The mark of a one-to-many child, U+2261 and a space: the one
    character of the module above 255, written as its UTF-8 bytes. *)
Definition o2m_mark : string :=
  String (ascii_of_nat 226) (String (ascii_of_nat 137)
    (String (ascii_of_nat 161) " ")).

Section Structure.
Context `{External}.

Definition structure_line (reg : register) (short_desc : string)
  : result string :=
  if reg_level reg =? 0 then Ok ""
  else if reg_level reg =? 1 then
    if negb (Py.contains (reg_code reg) "990")
       && negb (Py.contains (reg_code reg) "099")
    then c ← Py.first_char (reg_code reg); Ok (lit "^^<BLOCO " ++ c ++ ">")
    else Ok ""
  else
    let lead := if reg_level reg =? 2 then lit "^" else "" in
    let desc := if reg_level reg =? 2 then str_upper short_desc
                else if reg_level reg =? 3 then short_desc
                else "" in
    let desc := if String.eqb desc (reg_code reg)
                then Py.slice (reg_desc reg) None (Some 40) ++ "..."
                else desc in
    let mark := match reg_o2m_parent reg with
                | Some _ => o2m_mark
                | None => "- "
                end in
    Ok (lead ++ lit "^"
        ++ repeat_string "  " (Z.to_nat (reg_level reg - 1))
        ++ mark ++ Py.strip (reg_code reg ++ " " ++ desc)).

Fixpoint structure_loop (mod_ : string) (positions : list nat)
    (regs : list register) (structure : string)
  : result (list register * string) :=
  match positions with
  | [] => Ok (regs, structure)
  | i :: positions' =>
      match regs !! i with
      | None => Ok (regs, structure)
      | Some reg =>
          let short_desc := short_desc_of mod_ reg in
          let regs1 := alter (set_short_desc short_desc) i regs in
          line ← structure_line reg short_desc;
          structure_loop mod_ positions' regs1 (structure ++ line)
      end
  end.

Definition get_structure (mod_ : string) (regs : list register)
  : result (list register * string) :=
  structure_loop mod_ (seq 0 (length regs)) regs
    ("STRUCTURE SPED " ++ str_upper mod_).

End Structure.

(** ** main *)

(** The four files written for one module. *)
Record module_files := {
  spec_source : string * string;
  concrete_source : string * string;
  views_file : string * string;
  security_file : string * string
}.

Section Generate.
Context `{External}.

(** The state of the run when the register loop starts. *)
Definition initial_gen (mod_ : string) (registers : list register)
    (mod_fields : list field) : gen :=
  {| g_registers := registers; g_fields := mod_fields;
     g_concrete := concrete_prolog;
     g_views := ((views_prolog ++ root_menuitem mod_)
                 ++ declaration_action mod_) ++ declaration_menuitem mod_;
     g_security := security_header;
     g_last_bloco := None;
     g_classes := [] |}.

(** The registers of the module, filtered, sorted and linked. *)
Definition module_registers (mod_ : string) (year : Z)
  : result (list register) :=
  registers ← sorted_registers mod_ (get_registers mod_ year);
  Ok (collect_register_children registers).

(** The loop over the registers of one module. *)
Definition generate_registers (mod_ : string) (year : Z) : result gen :=
  registers ← module_registers mod_ year;
  run_registers mod_ (get_version mod_ year) (seq 0 (length registers))
    (initial_gen mod_ registers (get_fields mod_ year)).

(** [try: ... format_str ... except Exception] *)
Definition format_sources (source concrete : string) : string * string :=
  match format_str source with
  | None => (source, concrete)
  | Some source' =>
      match format_str concrete with
      | None => (source', concrete)
      | Some concrete' => (source', concrete')
      end
  end.

(** [generator.filters] as [render_classes] finds it at the end of a
    module: the methods of SpedFilters that the templates call read the
    registers, the fields and the classes from it. *)
Definition module_filters (mod_ version : string)
    (registers : list register) (flds : list field)
    (all_complex_types : list Class) : Filters :=
  {| flt_schema := "l10n_br_sped." ++ mod_; flt_version := version;
     flt_inherit_model := "l10n_br_sped.mixin." ++ mod_;
     flt_registers := registers; flt_fields := flds;
     flt_all_complex_types := all_complex_types |}.

(** What [main] does for a module once the loop over its registers is
    over; [all_complex_types] is the list the generator keeps from one
    module to the next.  An exception of [get_structure] or of the
    rendering ends the module before any of its files is written. *)
Definition finish_module (year : Z) (all_complex_types : list Class)
    (mod_ : string) (g : gen) : result (list Class * module_files) :=
  let version := get_version mod_ year in
  let all_complex_types := (all_complex_types ++ g_classes g)%list in
  '(registers, structure) ← get_structure mod_ (g_registers g);
  rendered ← render_classes
                (module_filters mod_ version registers (g_fields g)
                   all_complex_types)
                (g_classes g);
  let source :=
    HEADER ++ (lit "^'''^" ++ structure ++ lit "^'''^^") ++ IMPORTS
    ++ lit "^" ++ rendered in
  let '(source, concrete_models_source) :=
    format_sources source (g_concrete g) in
  let base_path := SPECS_PATH ++ ("/" ++ Py.str_of_int year ++ "/") in
  Ok (all_complex_types,
      {| spec_source :=
           (base_path ++ "/l10n_br_sped/models/sped_" ++ mod_ ++ "_spec_"
            ++ version ++ ".py", source);
         concrete_source :=
           (base_path ++ "/l10n_br_sped/models/sped_" ++ mod_ ++ ".py",
            concrete_models_source);
         views_file :=
           (base_path ++ "/l10n_br_sped/views/sped_" ++ mod_ ++ ".xml",
            g_views g ++ lit "^</odoo>");
         security_file :=
           (base_path ++ "/l10n_br_sped/security/" ++ mod_
            ++ "_ir.model.access.csv", g_security g) |}).

(** One round of [for mod in MODULES:]. *)
Definition generate_module (year : Z) (all_complex_types : list Class)
    (mod_ : string) : result (list Class * module_files) :=
  g ← generate_registers mod_ year;
  finish_module year all_complex_types mod_ g.



End Generate.

(** ** The registers the loop reaches, and what it appends for them *)

(** [register["code"][0]], empty for the empty code. *)
Definition bloco_of (r : register) : string :=
  match reg_code r with
  | EmptyString => EmptyString
  | String c _ => String c EmptyString
  end.

Definition is_bloco9 (r : register) : bool := String.eqb (bloco_of r) "9".

(** The register at which the loop breaks. *)
Definition stops_loop (r : register) : bool :=
  negb (is_block_marker r) && is_bloco9 r.

(** The registers for which a round of the loop runs to its end. *)
Definition reached (regs : list register) : list register :=
  List.filter (fun r => negb (is_block_marker r))
    (Py.take_while (fun r => negb (stops_loop r)) regs).

Section Appended.
Context `{External}.

Fixpoint register_views (mod_ : string) (last_bloco : option string)
    (rs : list register) : string :=
  match rs with
  | [] => ""
  | r :: rs' =>
      (if bool_decide (Some (bloco_of r) = last_bloco) then ""
       else bloco_menuitem mod_ (bloco_of r))
      ++ (if reg_level r =? 2
          then register_action mod_ (reg_code r) (short_desc_of mod_ r)
               ++ register_menuitem mod_ (reg_code r) (bloco_of r)
          else "")
      ++ register_views mod_ (Some (bloco_of r)) rs'
  end.

Fixpoint security_text (mod_ : string) (rs : list register) : string :=
  match rs with
  | [] => ""
  | r :: rs' =>
      security_rows mod_ (str_lower (reg_code r)) ++ security_text mod_ rs'
  end.

Definition class_qname (r : register) : string := "Registro" ++ reg_code r.

End Appended.

(** ** The order of the registers *)

(** The digit [_get_alphanum_sequence] puts in front of a code whose
    first character is [b]. *)
Definition prefix_char (b : ascii) : ascii :=
  if Ascii.eqb b "0" then "0"%char
  else if Ascii.eqb b "1" then "2"%char
  else if Ascii.eqb b "9" then "3"%char
  else "1"%char.

(** The sort key of a register, empty when the code is. *)
Definition alphanum_key (r : register) : string :=
  match _get_alphanum_sequence (reg_code r) with
  | Ok k => k
  | Raise _ => ""
  end.

Definition key_le (r1 r2 : register) : Prop :=
  String.le (alphanum_key r1) (alphanum_key r2).

(** The first two characters of the key, as a number. *)
Definition bloco_rank (r : register) : N :=
  match reg_code r with
  | EmptyString => 0%N
  | String b _ => (256 * N_of_ascii (prefix_char b) + N_of_ascii b)%N
  end.

(** [x["code"][0] != "C" or mod not in ("ecd", "ecf")], for a code that
    is not empty. *)
Definition survives (mod_ : string) (r : register) : bool :=
  negb (String.eqb (bloco_of r) "C")
  || negb (String.eqb mod_ "ecd" || String.eqb mod_ "ecf").

Definition rank_sorted (regs : list register) : Prop :=
  StronglySorted N.le (bloco_rank <$> regs).

Definition keyed (r : register) : string * register := (alphanum_key r, r).

(** ** The artefacts as they are described *)

(** The registers a model is generated for. *)
Definition generated (regs : list register) : list register :=
  List.filter (fun r => negb (is_block_marker r) && negb (is_bloco9 r)) regs.

(** The registers before the first one of bloco 9. *)
Definition before_bloco9 (regs : list register) : list register :=
  Py.take_while (fun r => negb (is_bloco9 r)) regs.

(** A text between double quotes. *)
Definition quoted (s : string) : string := String dq (s ++ String dq "").

Definition newlines (n : nat) : string := repeat_string (String lf "") n.

(** The header row of the access-control table: the eight column names,
    each between double quotes, separated by commas. *)
Definition access_columns : list string :=
  ["id"; "name"; "model_id:id"; "group_id:id"; "perm_read"; "perm_write";
   "perm_create"; "perm_unlink"].

Definition csv_header : string :=
  String.concat "," (quoted <$> access_columns) ++ newlines 1.

(** One row of the access-control table. *)
Record access_row := {
  row_id : string;
  row_name : string;
  row_model : string;
  row_group : string;
  perm_read : bool;
  perm_write : bool;
  perm_create : bool;
  perm_unlink : bool
}.

Definition perm (b : bool) : string := if b then "1" else "0".

Definition csv_line (row : access_row) : string :=
  row_id row ++ "," ++ row_name row ++ "," ++ row_model row ++ ","
  ++ row_group row ++ "," ++ perm (perm_read row) ++ ","
  ++ perm (perm_write row) ++ "," ++ perm (perm_create row) ++ ","
  ++ perm (perm_unlink row) ++ lit "^".

Definition access_user (mod_ lc : string) : access_row :=
  {| row_id := "access_user_" ++ mod_ ++ "_" ++ lc;
     row_name := mod_ ++ "." ++ lc;
     row_model := "model_l10n_br_sped_" ++ mod_ ++ "_" ++ lc;
     row_group := "l10n_br_fiscal.group_user";
     perm_read := true; perm_write := false;
     perm_create := false; perm_unlink := false |}.

Definition access_manager (mod_ lc : string) : access_row :=
  {| row_id := "access_manager_" ++ mod_ ++ "_" ++ lc;
     row_name := mod_ ++ "." ++ lc;
     row_model := "model_l10n_br_sped_" ++ mod_ ++ "_" ++ lc;
     row_group := "l10n_br_fiscal.group_manager";
     perm_read := true; perm_write := true;
     perm_create := true; perm_unlink := true |}.

Fixpoint csv_text (rows : list access_row) : string :=
  match rows with
  | [] => ""
  | row :: rows' => csv_line row ++ csv_text rows'
  end.

(** The attributes of an XML element: a space, the name, an equals sign
    and the value between double quotes, for each. *)
Fixpoint xml_attrs (attrs : list (string * string)) : string :=
  match attrs with
  | [] => ""
  | (k, v) :: attrs' => " " ++ k ++ "=" ++ quoted v ++ xml_attrs attrs'
  end.

(** An empty [menuitem] element with its attributes, on a line of its
    own after [gap - 1] empty lines, indented by four spaces. *)
Definition xml_menuitem (gap : nat) (attrs : list (string * string))
  : string :=
  newlines gap ++ "    <menuitem" ++ xml_attrs attrs ++ " />".

(** A [field] element with its name and its text, on a line of its own
    after the indentation [indent]. *)
Definition xml_field (indent name value : string) : string :=
  newlines 1 ++ indent ++ "<field" ++ xml_attrs [("name", name)] ++ ">"
  ++ value ++ "</field>".

(** A [record] element of model ir.actions.act_window, after an empty
    line, with the fields name, res_model and view_mode. *)
Definition xml_act_window (indent id name res_model : string) : string :=
  newlines 2 ++ "    <record"
  ++ xml_attrs [("id", id); ("model", "ir.actions.act_window")] ++ ">"
  ++ xml_field indent "name" name
  ++ xml_field indent "res_model" res_model
  ++ xml_field indent "view_mode" "tree,form"
  ++ newlines 1 ++ "    </record>".

(** The elements of the views file. *)
Inductive view_item :=
| RootMenu
| DeclarationAction
| DeclarationMenu
| BlocoMenu (bloco : string)
| RegisterAction (r : register)
| RegisterMenu (r : register).

(** One bloco menu at the first register of each bloco, an action and a
    menu for each register of level 2. *)
Fixpoint register_items (seen : list string) (rs : list register)
  : list view_item :=
  match rs with
  | [] => []
  | r :: rs' =>
      (if decide (bloco_of r ∈ seen) then [] else [BlocoMenu (bloco_of r)])
      ++ (if reg_level r =? 2 then [RegisterAction r; RegisterMenu r] else [])
      ++ register_items (seen ++ [bloco_of r]) rs'
  end.

Definition module_items (rs : list register) : list view_item :=
  [RootMenu; DeclarationAction; DeclarationMenu] ++ register_items [] rs.

Definition bloco_menus (items : list view_item) : list string :=
  omap (fun it => match it with BlocoMenu b => Some b | _ => None end) items.

Definition register_actions (items : list view_item) : list register :=
  omap (fun it => match it with RegisterAction r => Some r | _ => None end)
    items.

Definition register_menus (items : list view_item) : list register :=
  omap (fun it => match it with RegisterMenu r => Some r | _ => None end)
    items.

Section Described.
Context `{External}.

Definition access_rows (mod_ : string) (rs : list register)
  : list access_row :=
  flat_map (fun r => [ access_user mod_ (str_lower (reg_code r));
                       access_manager mod_ (str_lower (reg_code r)) ]) rs.

Definition render_item (mod_ : string) (it : view_item) : string :=
  match it with
  | RootMenu => root_menuitem mod_
  | DeclarationAction => declaration_action mod_
  | DeclarationMenu => declaration_menuitem mod_
  | BlocoMenu b => bloco_menuitem mod_ b
  | RegisterAction r =>
      register_action mod_ (reg_code r) (short_desc_of mod_ r)
  | RegisterMenu r => register_menuitem mod_ (reg_code r) (bloco_of r)
  end.

(** The element of the views file that an item stands for. *)
Definition xml_item (mod_ : string) (it : view_item) : string :=
  match it with
  | RootMenu =>
      xml_menuitem 1
        [("name", str_upper (Py.replace mod_ "_" " "));
         ("parent", "l10n_br_sped_base.menu_root");
         ("id", mod_); ("sequence", "2")]
  | DeclarationAction =>
      xml_act_window "    " ("declaration_" ++ mod_ ++ "_action")
        (str_upper mod_ ++ " Declaration")
        ("l10n_br_sped." ++ mod_ ++ ".0000")
  | DeclarationMenu =>
      xml_menuitem 1
        [("action", "declaration_" ++ mod_ ++ "_action");
         ("parent", mod_); ("id", "declaration_" ++ mod_)]
  | BlocoMenu b =>
      xml_menuitem 3
        [("name", "BLOCO " ++ b); ("parent", mod_);
         ("id", mod_ ++ "_" ++ str_lower b)]
  | RegisterAction r =>
      xml_act_window "        "
        (mod_ ++ "_" ++ str_lower (reg_code r) ++ "_action")
        (reg_code r ++ " " ++ short_desc_of mod_ r)
        ("l10n_br_sped." ++ mod_ ++ "." ++ str_lower (reg_code r))
  | RegisterMenu r =>
      xml_menuitem 1
        [("action", mod_ ++ "_" ++ str_lower (reg_code r) ++ "_action");
         ("parent", mod_ ++ "_" ++ str_lower (bloco_of r));
         ("id", mod_ ++ "_" ++ str_lower (reg_code r))]
  end.

(** The views file: the XML declaration, then the [odoo] element with
    the elements of the items. *)
Definition xml_document (mod_ : string) (items : list view_item) : string :=
  "<?xml" ++ xml_attrs [("version", "1.0"); ("encoding", "UTF-8")] ++ "?>"
  ++ newlines 1 ++ "<odoo>"
  ++ String.concat "" (xml_item mod_ <$> items)
  ++ newlines 1 ++ "</odoo>".

Fixpoint render_items (mod_ : string) (items : list view_item) : string :=
  match items with
  | [] => ""
  | it :: items' => render_item mod_ it ++ render_items mod_ items'
  end.

(** The loop emits a class and its two access rows for exactly the
    registers [keep] holds of, among the ones that survive the filter and
    come before bloco 9. *)
Definition emits_exactly (keep : register -> bool) (mod_ : string)
    (year : Z) : Prop :=
  forall g, generate_registers mod_ year = Ok g ->
    exists regs, module_registers mod_ year = Ok regs /\
      (reg_key <$> regs ≡ₚ
         reg_key <$> List.filter (survives mod_) (get_registers mod_ year)) /\
      (cls_qname <$> g_classes g =
         class_qname <$> List.filter keep (before_bloco9 regs)) /\
      g_security g =
        csv_header
        ++ csv_text (access_rows mod_ (List.filter keep (before_bloco9 regs))).

End Described.

(** ** A sample run *)

Definition ascii_upper (c : ascii) : ascii :=
  let n := nat_of_ascii c in
  if ((97 <=? n) && (n <=? 122))%nat then ascii_of_nat (n - 32) else c.

Definition ascii_lower (c : ascii) : ascii :=
  let n := nat_of_ascii c in
  if ((65 <=? n) && (n <=? 90))%nat then ascii_of_nat (n + 32) else c.

Fixpoint map_chars (f : ascii -> ascii) (s : string) : string :=
  match s with
  | EmptyString => EmptyString
  | String c s' => String (f c) (map_chars f s')
  end.

Definition sample_raw_registers : list register :=
  [ mk_register "9900" 2 "1:N" "Registros do arquivo";
    mk_register "C100" 2 "1:N" "Nota fiscal";
    mk_register "0000" 0 "1" "Abertura do arquivo";
    mk_register "C001" 1 "1" "Abertura do bloco C";
    mk_register "C170" 3 "1:N" "Itens do documento";
    mk_register "C990" 1 "1" "Encerramento do bloco C";
    mk_register "9001" 1 "1" "Abertura do bloco 9";
    mk_register "1001" 1 "1" "Abertura do bloco 1";
    mk_register "1010" 2 "1:1" "Obrigatoriedade de registros";
    mk_register "0001" 1 "1" "Abertura do bloco 0";
    mk_register "0005" 2 "1:1" "Dados complementares";
    mk_register "9999" 0 "1" "Encerramento do arquivo" ].

(** Stand-ins for the imported functions: ASCII case mapping, a
    description cut to the asked length, a renderer that lists the class
    names, a formatter that changes nothing. *)
Definition sample_external : External :=
  {| str_upper := map_chars ascii_upper;
     str_lower := map_chars ascii_lower;
     extract_string_and_help := fun _ _ help labels n =>
       (Py.slice help None (Some n), help, labels);
     datatype_code := fun t =>
       if at_native t then Some (Py.slice (at_qname t) (Some 34) None)
       else None;
     class_name := cls_qname;
     attr_is_list := fun a =>
       match max_occurs (attr_restrictions a) with
       | Some m => 1 <? m
       | None => false
       end;
     attr_is_optional := fun a =>
       match min_occurs (attr_restrictions a) with
       | Some m => m =? 0
       | None => false
       end;
     field_metadata_required := fun _ _ => false;
     render_classes := fun _ classes =>
       Ok (String.concat (lit "^") (cls_qname <$> classes));
     format_str := Some;
     get_registers := fun _ _ => sample_raw_registers;
     get_fields := fun _ _ => sample_fields;
     get_version := fun _ _ => "19";
     MODULES := ["efd_icms_ipi"];
     SPECS_PATH := "specs" |}.

(** Stand-ins whose attribute types carry no datatype, for a list with a
    register below level 0. *)
Definition low_level_registers : list register :=
  [ mk_register "0000" 0 "1" "Abertura do arquivo";
    mk_register "0500" (-1) "1:N" "Plano de contas" ].

Definition low_level_external : External :=
  {| str_upper := map_chars ascii_upper;
     str_lower := map_chars ascii_lower;
     extract_string_and_help := fun _ _ help labels n =>
       (Py.slice help None (Some n), help, labels);
     datatype_code := fun _ => None;
     class_name := cls_qname;
     attr_is_list := fun _ => false;
     attr_is_optional := fun _ => false;
     field_metadata_required := fun _ _ => false;
     render_classes := fun _ _ => Ok "";
     format_str := Some;
     get_registers := fun _ _ => low_level_registers;
     get_fields := fun _ _ => [];
     get_version := fun _ _ => "19";
     MODULES := ["efd_icms_ipi"];
     SPECS_PATH := "specs" |}.

Definition no_files : module_files :=
  {| spec_source := ("", ""); concrete_source := ("", "");
     views_file := ("", ""); security_file := ("", "") |}.

Definition sample_module_run : list Class * module_files :=
  Eval vm_compute in
    match generate_module (H := sample_external) 2023 [] "efd_icms_ipi" with
    | Ok out => out
    | Raise _ => ([], no_files)
    end.

Definition sample_gen : gen :=
  Eval vm_compute in
    match generate_registers (H := sample_external) "efd_icms_ipi" 2023 with
    | Ok g => g
    | Raise _ => initial_gen (H := sample_external) "" [] []
    end.

Definition sample_sorted_registers : list register :=
  Eval vm_compute in
    match module_registers (H := sample_external) "efd_icms_ipi" 2023 with
    | Ok regs => regs
    | Raise _ => []
    end.

Definition sample_field_attrs : list field * string * list Attr :=
  Eval vm_compute in
    match register_field_attrs "C170" sample_fields "" with
    | Ok out => out
    | Raise _ => ([], "", [])
    end.

(** The attribute the description promises for a field, and the fields
    that get one. *)
Definition chosen_attr (f : field) : Attr :=
  field_attr (default_type f) [native_type (chosen_xsd_type f)].

Definition not_reg (f : field) : bool :=
  negb (String.eqb (fld_code f) "REG").

(** ** SpedFilters

    The keyword arguments of a generated field: an [OrderedDict], so a
    list of pairs in which a key that is set again keeps its place. *)

Inductive kwarg :=
| KStr (s : string)
| KBool (b : bool)
| KDigits (precision scale : Z).

Fixpoint od_set (k : string) (v : kwarg) (d : list (string * kwarg))
  : list (string * kwarg) :=
  match d with
  | [] => [(k, v)]
  | (k', v') :: d' =>
      if String.eqb k' k then (k, v) :: d' else (k', v') :: od_set k v d'
  end.

Fixpoint od_get (k : string) (d : list (string * kwarg)) : option kwarg :=
  match d with
  | [] => None
  | (k', v') :: d' => if String.eqb k' k then Some v' else od_get k d'
  end.

(** [attr.name.startswith(("VL_", "VAL_", "VALOR"))] *)
Definition is_value_name (name : string) : bool :=
  Py.startswith name "VL_" || Py.startswith name "VAL_"
  || Py.startswith name "VALOR".

(** [kwargs.get("xsd_type", "")], a text whenever it is set. *)
Definition xsd_type_of (kwargs : list (string * kwarg)) : result string :=
  match od_get "xsd_type" kwargs with
  | None => Ok ""
  | Some (KStr s) => Ok s
  | Some _ => Raise AttributeError
  end.

Definition currency_kwarg : kwarg := KStr "brl_currency_id".

Section Filters.
Context `{External}.

(** [attr.types[0].datatype.code] *)
Definition python_type_of (attr : Attr) : result string :=
  match attr_types attr with
  | [] => Raise IndexError
  | t :: _ =>
      match datatype_code t with
      | Some code => Ok code
      | None => Raise AttributeError
      end
  end.

Definition is_number_type (python_type : string) : bool :=
  String.eqb python_type "float" || String.eqb python_type "decimal"
  || String.eqb python_type "integer".

(** [_extract_number_attrs]: the kwargs it leaves. *)
Definition _extract_number_attrs (attr : Attr)
    (kwargs : list (string * kwarg)) : result (list (string * kwarg)) :=
  python_type ← python_type_of attr;
  if is_number_type python_type then
    xsd_type ← xsd_type_of kwargs;
    if Py.startswith xsd_type "TDec_" then
      scale ← Py.int (Py.slice xsd_type (Some 7) (Some 9));
      if negb (Z.eqb scale 2)
         || (negb (Py.startswith (attr_name attr) "VL_")
             && negb (Py.startswith (attr_name attr) "VAL_")
             && negb (Py.startswith (attr_name attr) "VALOR"))
      then
        precision ← Py.int (Py.slice xsd_type (Some 5) (Some 7));
        scale' ← Py.int (Py.slice xsd_type (Some 7) (Some 9));
        Ok (od_set "digits" (KDigits precision scale') kwargs)
      else Ok (od_set "currency_field" currency_kwarg kwargs)
    else if is_value_name (attr_name attr) then
      Ok (od_set "currency_field" currency_kwarg kwargs)
    else Ok kwargs
  else Ok kwargs.

(** The branches of [_extract_field_attributes]. *)
Definition is_parent_link (name : string) : bool :=
  Py.endswith name "_id" && Py.contains name "_Registro".

Definition is_children_link (name : string) : bool :=
  Py.startswith name "reg_" && Py.endswith name "_ids".

(** [list(filter(lambda x: x["code"] == attr.name and x["register"] ==
    obj.name[-4:], self.fields))[0]] *)
Definition field_of_attr (fields : list field) (obj : Class) (attr : Attr)
  : option field :=
  List.find
    (fun x => String.eqb (fld_code x) (attr_name attr)
              && String.eqb (fld_register x)
                   (Py.slice (class_name obj) (Some (-4)) None))
    fields.

Definition simple_kwargs (field : field) (attr : Attr)
    (kwargs : list (string * kwarg)) : result (list (string * kwarg)) :=
  let kwargs :=
    if Py.truthy (fld_xsd_type field)
    then od_set "xsd_type" (KStr (default "" (fld_xsd_type field))) kwargs
    else kwargs in
  let kwargs :=
    if Py.truthy (fld_in_required field)
    then od_set "in_required" (KBool true) kwargs
    else if Py.truthy (fld_out_required field)
    then od_set "out_required" (KBool true) kwargs
    else kwargs in
  let kwargs :=
    if Py.truthy (fld_length field)
    then od_set "sped_length"
           (KStr (Py.replace (default "" (fld_length field)) "0" "")) kwargs
    else kwargs in
  match attr_types attr with
  | [] => Ok kwargs
  | t :: _ =>
      match datatype_code t with
      | None => Raise AttributeError
      | Some code =>
          if String.eqb code "float" && Py.truthy (fld_decimal field) then
            digits ← Py.int (default "" (fld_decimal field));
            Ok (od_set "xsd_type"
                  (KStr (if Z.ltb digits 10
                         then "TDec_160" ++ Py.str_of_int digits
                         else "TDec_16" ++ Py.str_of_int digits)) kwargs)
          else Ok kwargs
      end
  end.

(** [_extract_field_attributes]; [unique_labels] is the attribute of the
    same name of [parents[-1]], [None] before it is first set, and the
    set the call leaves there is returned with the kwargs. *)
Definition _extract_field_attributes (self : Filters) (parents : list Class)
    (unique_labels : option (gset string)) (attr : Attr)
  : result (list (string * kwarg) * gset string) :=
  match last parents with
  | None => Raise IndexError
  | Some obj =>
      let '(string, help_attr, labels) :=
        extract_string_and_help (class_name obj) (attr_name attr)
          (attr_help attr) (default ∅ unique_labels) 50 in
      string ← (if Py.endswith string "_ids"
                then match Py.split string "_" !! 1%nat with
                     | Some s => Ok s
                     | None => Raise IndexError
                     end
                else Ok string);
      let kwargs := od_set "string" (KStr string) [] in
      let kwargs :=
        if field_metadata_required attr (class_name <$> parents)
           || (negb (attr_is_list attr) && negb (attr_is_optional attr))
        then od_set "required" (KBool true) kwargs
        else kwargs in
      kwargs ←
        (if is_parent_link (attr_name attr) then
           Ok (od_set "ondelete" (KStr "cascade") kwargs)
         else if is_children_link (attr_name attr) then
           let target_reg_code :=
             Py.replace (Py.replace (attr_name attr) "reg_" "") "_ids" "" in
           match List.find
                   (fun x => String.eqb (reg_code x) target_reg_code)
                   (flt_registers self) with
           | None => Raise IndexError
           | Some target_register =>
               let kwargs :=
                 od_set "sped_card" (KStr (reg_card target_register)) kwargs in
               Ok (if bool_decide
                        (reg_spec_required target_register = Some "Sim")
                   then od_set "sped_required" (KBool true) kwargs
                   else kwargs)
           end
         else
           match field_of_attr (flt_fields self) obj attr with
           | None => Raise IndexError
           | Some field => simple_kwargs field attr kwargs
           end);
      Ok (if String.eqb help_attr "" then kwargs
          else od_set "help" (KStr help_attr) kwargs, labels)
  end.

End Filters.

(** The text with every occurrence of a character taken out. *)
Fixpoint without_char (c : ascii) (s : string) : string :=
  match s with
  | EmptyString => EmptyString
  | String a s' =>
      if Ascii.eqb a c then without_char c s'
      else String a (without_char c s')
  end.

(** C3 as it is stated, in the case of an xsd_type that starts with
    TDec_. *)
Definition number_attrs_as_stated `{External} (attr : Attr)
    (kwargs : list (string * kwarg)) : Prop :=
  forall python_type xsd_type,
    python_type_of attr = Ok python_type ->
    is_number_type python_type = true ->
    od_get "xsd_type" kwargs = Some (KStr xsd_type) ->
    Py.startswith xsd_type "TDec_" = true ->
    let scale_is_2 :=
      Py.int (Py.slice xsd_type (Some 7) (Some 9)) = Ok 2 in
    (scale_is_2 /\ is_value_name (attr_name attr) = true ->
     _extract_number_attrs attr kwargs =
     Ok (od_set "currency_field" currency_kwarg kwargs)) /\
    (~ (scale_is_2 /\ is_value_name (attr_name attr) = true) ->
     exists precision scale,
       Py.int (Py.slice xsd_type (Some 5) (Some 7)) = Ok precision /\
       Py.int (Py.slice xsd_type (Some 7) (Some 9)) = Ok scale /\
       _extract_number_attrs attr kwargs =
       Ok (od_set "digits" (KDigits precision scale) kwargs)).

Definition float_attr (name : string) : Attr :=
  {| attr_tag := name; attr_name := name;
     attr_types := [native_type "float"];
     attr_restrictions := {| min_occurs := Some 0; max_occurs := None |};
     attr_help := "Aliquota do PIS (em reais)"; attr_index := 3 |}.

Definition sample_class : Class :=
  {| cls_qname := "RegistroC170"; cls_tag := "RegistroC170";
     cls_location := "TODO"; cls_attrs := []; cls_help := "Itens";
     cls_module := "efd_icms_ipi" |}.

Definition sample_filters : Filters :=
  {| flt_schema := "l10n_br_sped.efd_icms_ipi"; flt_version := "19";
     flt_inherit_model := "l10n_br_sped.mixin.efd_icms_ipi";
     flt_registers := sample_registers; flt_fields := sample_fields;
     flt_all_complex_types := [] |}.

Definition sample_kwargs : list (string * kwarg) * gset string :=
  Eval vm_compute in
    match _extract_field_attributes (H := sample_external) sample_filters
            [sample_class] None (float_attr "ALIQ_PIS") with
    | Ok out => out
    | Raise _ => ([], ∅)
    end.

(** A field whose length entry holds zeros, the filters that know it and
    the kwargs of its attribute. *)
Definition padded_field : field :=
  mk_field "C170" "COD" 2 "Codigo" (Some "char") (Some "100") None.

Definition padded_filters : Filters :=
  {| flt_schema := "l10n_br_sped.efd_icms_ipi"; flt_version := "19";
     flt_inherit_model := "l10n_br_sped.mixin.efd_icms_ipi";
     flt_registers := sample_registers; flt_fields := [padded_field];
     flt_all_complex_types := [] |}.

Definition padded_kwargs : list (string * kwarg) * gset string :=
  Eval vm_compute in
    match _extract_field_attributes (H := sample_external) padded_filters
            [sample_class] None (float_attr "COD") with
    | Ok out => out
    | Raise _ => ([], ∅)
    end.

(** ** Inputs on which a run ends without an exception *)


Definition has_code (r : register) : Prop := reg_code r <> "".

(** ** More of the module: what the functions keep and when they raise *)

(** The entries of a register that [collect_register_children] has no
    business with. *)
Definition reg_data (r : register)
  : string * Z * string * string * option string * option string :=
  (reg_code r, reg_level r, reg_card r, reg_desc r, reg_spec_required r,
   reg_short_desc r).

(** The two children entries of a register. *)
Definition reg_children (r : register)
  : option (list nat) * option (list nat) :=
  (reg_children_o2m r, reg_children_m2o r).

(** The store after the first [m] rounds: a register has the parent [p]
    exactly when [p] is one of the first [m] registers, is above level 1
    and has it among its children. *)
Definition parents_done (regs0 : list register) (m : nat)
    (st : list register) : Prop :=
  reg_key <$> regs0 = reg_key <$> st /\
  forall k c, st !! k = Some c -> forall p,
    (reg_parent c = Some p <->
       (p < m)%nat /\ 1 < level_at regs0 p /\
       In k (following_children regs0 p)) /\
    (reg_o2m_parent c = Some p <->
       (p < m)%nat /\ 1 < level_at regs0 p /\
       In k (following_children regs0 p) /\ m2o_at regs0 k = false).


(** The entries of a field that no pass of [main] writes. *)
Definition fld_rest (f : field)
  : string * Z * string * option string * option string * option string
    * option string * option string * option string :=
  (fld_register f, fld_index f, fld_desc f, fld_length f, fld_decimal f,
   fld_required f, fld_xsd_type f, fld_in_required f, fld_out_required f).

(** What the first pass may do to a field, and what the second may. *)
Definition renamed (f f' : field) : Prop :=
  f' = f \/ f' = set_code (indexed_code f) f.

Definition typed (f f' : field) : Prop :=
  f' = f \/ (Py.truthy (fld_type f) = false /\ f' = set_type "char" f).

(** ** SpedFilters: the names *)

Section FilterNames.
Context `{External}.

(** [class_properties]:
    [list(filter(lambda x: x["code"] == obj.name[-4:], self.registers))[0]] *)
Definition class_properties (self : Filters) (obj : Class) : result string :=
  match List.find
          (fun x => String.eqb (reg_code x)
                      (Py.slice (class_name obj) (Some (-4)) None))
          (flt_registers self) with
  | None => Raise IndexError
  | Some register =>
      Ok ("_sped_level = " ++ Py.str_of_int (reg_level register))
  end.

Definition odoo_class_name (obj : Class) : string := class_name obj.

Definition odoo_inherit_model (self : Filters) (obj : Class) : string :=
  if Py.contains (class_name obj) "0000" then "l10n_br_sped.declaration"
  else flt_inherit_model self.

(** [self.class_name], the method [SpedFilters] inherits. *)
Variable filters_class_name : string -> string.

Definition registry_name (self : Filters) (name : string) : string :=
  let name := filters_class_name name in
  flt_schema self ++ "." ++ flt_version self ++ "."
  ++ str_lower (Py.slice name (Some (-4)) None).

(** [l[-1:]] *)
Definition last_part {A} (l : list A) : list A := drop (length l - 1) l.

Definition registry_comodel (self : Filters) (type_names : list string)
  : result string :=
  match last type_names with
  | None => Raise IndexError
  | Some t =>
      let clean_type_names :=
        Py.split (Py.replace t (String dq "") "") "." in
      match last clean_type_names with
      | None => Raise IndexError
      | Some n =>
          let comodel := registry_name self n in
          let parts := Py.split comodel "." in
          Ok (String.concat "." (take 2 parts ++ last_part parts))
      end
  end.

End FilterNames.

(** ** What can stop a module *)

(** A decimal entry that is set, not empty, and no integer literal. *)
Definition bad_decimal (f : field) : Prop :=
  exists d, fld_decimal f = Some d /\ d <> "" /\ Py.int d = Raise ValueError.

(** The short description the loops give a register. *)
Definition described `{External} (mod_ : string) (r r' : register) : Prop :=
  r' = r \/ r' = set_short_desc (short_desc_of mod_ r) r.

(** ** The xsd_type of a float field

    [f'TDec_160{digits}'] below ten, [f'TDec_16{digits}'] from ten on. *)

Definition tdec_of (z : Z) : string :=
  if Z.ltb z 10 then "TDec_160" ++ Py.str_of_int z
  else "TDec_16" ++ Py.str_of_int z.

Definition tdec_reads_back (n : nat) : bool :=
  let z := Z.of_nat n in
  Py.startswith (tdec_of z) "TDec_"
  && match Py.int (Py.slice (tdec_of z) (Some 7) (Some 9)) with
     | Ok v => Z.eqb v z
     | Raise _ => false
     end
  && match Py.int (Py.slice (tdec_of z) (Some 5) (Some 7)) with
     | Ok v => Z.eqb v 16
     | Raise _ => false
     end.


(** ** More sample data *)

(** The sample registers once linked. *)
Definition sample_linked : list register :=
  Eval vm_compute in collect_register_children sample_registers.

(** The register C110 of the linked list, whose parent is C100. *)
Definition sample_child : register :=
  Eval vm_compute in
    match sample_linked !! 3%nat with
    | Some r => r
    | None => mk_register "" 0 "" ""
    end.

Definition sample_parent_attr : Attr :=
  {| attr_tag := "reg_C110_ids_RegistroC100_id";
     attr_name := "reg_C110_ids_RegistroC100_id";
     attr_types := [ {| at_qname := "RegistroC100"; at_native := false |} ];
     attr_restrictions := default_restrictions;
     attr_help := "Nota fiscal"; attr_index := 0 |}.

(** A module one of whose registers has no code. *)
Definition nameless_external : External :=
  {| str_upper := map_chars ascii_upper;
     str_lower := map_chars ascii_lower;
     extract_string_and_help := fun _ _ help labels n =>
       (Py.slice help None (Some n), help, labels);
     datatype_code := fun _ => None;
     class_name := cls_qname;
     attr_is_list := fun _ => false;
     attr_is_optional := fun _ => false;
     field_metadata_required := fun _ _ => false;
     render_classes := fun _ _ => Ok "";
     format_str := Some;
     get_registers := fun _ _ =>
       [mk_register "0000" 0 "1" "Abertura"; mk_register "" 2 "1:N" "Sem codigo"];
     get_fields := fun _ _ => [];
     get_version := fun _ _ => "19";
     MODULES := ["efd_icms_ipi"];
     SPECS_PATH := "specs" |}.

(** ** The class of a register *)

(** What [main] hands the generator for the register [r] of the linked
    list [regs], [flds] being the fields of the module: the attributes of
    the fields of the register, REG left out, then the link to its
    parent, then the links to its children. *)
Definition class_of_register (flds : list field) (mod_ : string)
    (regs : list register) (r : register) (k : Class) : Prop :=
  cls_qname k = "Registro" ++ reg_code r /\
  cls_tag k = "Registro" ++ reg_code r /\
  cls_location k = "TODO" /\
  cls_help k = reg_desc r /\
  cls_module k = mod_ /\
  cls_attrs k =
    ((chosen_attr <$> List.filter not_reg (final_fields (reg_code r) flds))
     ++ parent_attrs regs r ++ children_attrs regs r)%list.

(** The run of the sample registers as the module ecd, from which bloco C
    is filtered out, and the first of its classes. *)
Definition sample_ecd_gen : gen :=
  Eval vm_compute in
    match generate_registers (H := sample_external) "ecd" 2023 with
    | Ok g => g
    | Raise _ => initial_gen (H := sample_external) "" [] []
    end.

Definition sample_ecd_class : Class :=
  Eval vm_compute in
    match g_classes sample_ecd_gen with
    | k :: _ => k
    | [] => sample_class
    end.

(** The filters once the passes for C170 have run over the sample
    fields. *)
Definition sample_filters_after : Filters :=
  {| flt_schema := "l10n_br_sped.efd_icms_ipi"; flt_version := "19";
     flt_inherit_model := "l10n_br_sped.mixin.efd_icms_ipi";
     flt_registers := sample_registers;
     flt_fields := sample_field_attrs.1.1;
     flt_all_complex_types := [] |}.
(** * Properties *)

(** ** The string primitives on sample text *)

Example strip_ex : Py.strip "  1:1 " = "1:1".
Proof. reflexivity. Qed.
Example int_ex1 : Py.int "02" = Ok 2.
Proof. reflexivity. Qed.
Example int_ex2 : Py.int "0-" = Raise ValueError.
Proof. reflexivity. Qed.
Example int_ex3 : Py.int "" = Raise ValueError.
Proof. reflexivity. Qed.
Example int_ex4 : Py.int " -1_0 " = Ok (-10).
Proof. reflexivity. Qed.
Example int_ex5 : Py.int "1_" = Raise ValueError.
Proof. reflexivity. Qed.
Example slice_ex : Py.slice "TDec_1302" (Some 7) (Some 9) = "02".
Proof. reflexivity. Qed.
Example slice_ex2 : Py.slice "Registro0150" (Some (-4)) None = "0150".
Proof. reflexivity. Qed.
Example slice_ex3 : Py.slice "abcdef" (Some 0) (Some (-2)) = "abcd".
Proof. reflexivity. Qed.
Example replace_ex : Py.replace "100" "0" "" = "1".
Proof. reflexivity. Qed.
Example replace_ex2 : Py.replace "reg_C100_ids" "reg_" "" = "C100_ids".
Proof. reflexivity. Qed.
Example split_ex : Py.split "reg_C100_ids" "_" = ["reg"; "C100"; "ids"].
Proof. reflexivity. Qed.
Example str_ex : Py.str_of_int 12 = "12" /\ Py.str_of_int 0 = "0" /\ Py.str_of_int (-3) = "-3".
Proof. repeat split; reflexivity. Qed.
Example ends_ex : Py.endswith "reg_C100_ids" "_ids" = true.
Proof. reflexivity. Qed.

(** ** collect_register_children *)

Section Hierarchy.

Implicit Types (regs st : list register) (i j k ri : nat).

Lemma key_lookup regs0 st k :
  reg_key <$> regs0 = reg_key <$> st ->
  reg_key <$> regs0 !! k = reg_key <$> st !! k.
Proof. intros H. rewrite <- !list_lookup_fmap. by rewrite H. Qed.

Lemma level_at_key regs0 st k :
  reg_key <$> regs0 = reg_key <$> st -> level_at st k = level_at regs0 k.
Proof.
  intros H. apply (key_lookup _ _ k) in H. unfold level_at.
  destruct (regs0 !! k), (st !! k); simpl in H; try congruence.
  unfold reg_key in H. congruence.
Qed.

Lemma m2o_at_key regs0 st k :
  reg_key <$> regs0 = reg_key <$> st -> m2o_at st k = m2o_at regs0 k.
Proof.
  intros H. apply (key_lookup _ _ k) in H. unfold m2o_at, is_m2o_card.
  destruct (regs0 !! k), (st !! k); simpl in H; try congruence.
  unfold reg_key in H. congruence.
Qed.

Lemma key_alter (f : register -> register) st k :
  (forall r, reg_key (f r) = reg_key r) ->
  reg_key <$> alter f k st = reg_key <$> st.
Proof.
  intros Hf. apply list_eq. intros j. rewrite !list_lookup_fmap.
  destruct (decide (k = j)) as [->|Hne].
  - rewrite list_lookup_alter_eq. destruct (st !! j); simpl; [|done].
    by rewrite Hf.
  - by rewrite list_lookup_alter_ne.
Qed.

Lemma key_mark_child regs0 ri st k :
  reg_key <$> mark_child regs0 ri st k = reg_key <$> st.
Proof.
  unfold mark_child. destruct (m2o_at regs0 k);
    rewrite ?key_alter; auto.
Qed.

Lemma key_mark_children regs0 ri kids st :
  reg_key <$> mark_children regs0 ri kids st = reg_key <$> st.
Proof.
  unfold mark_children. revert st.
  induction kids as [|k kids IH]; intros st; [done|].
  simpl. rewrite IH. apply key_mark_child.
Qed.

(** Before the register itself is met nothing is collected. *)
Lemma scan_before ri c lvl js1 js2 regs :
  (forall j, In j js1 -> exists r, regs !! j = Some r /\ reg_code r <> c) ->
  scan_children ri c lvl (js1 ++ js2) false [] [] regs =
  scan_children ri c lvl js2 false [] [] regs.
Proof.
  induction js1 as [|j js1 IH]; intros H; [done|].
  destruct (H j) as (r & Hr & Hc); [by left|].
  simpl. rewrite Hr. apply String.eqb_neq in Hc. rewrite Hc.
  apply IH. intros j' Hj'. apply H. by right.
Qed.

(** After it, the loop collects exactly [children_among]. *)
Lemma scan_after ri c lvl regs0 js : forall o2m m2o st,
  reg_key <$> regs0 = reg_key <$> st ->
  (forall j, In j js -> exists r, regs0 !! j = Some r /\ reg_code r <> c) ->
  scan_children ri c lvl js true o2m m2o st =
  (mark_children regs0 ri (children_among regs0 lvl js) st,
   (o2m ++ List.filter (fun k => negb (m2o_at regs0 k))
             (children_among regs0 lvl js))%list,
   (m2o ++ List.filter (m2o_at regs0) (children_among regs0 lvl js))%list).
Proof.
  induction js as [|j js IH]; intros o2m m2o st Hk H.
  { simpl. by rewrite !app_nil_r. }
  destruct (H j) as (r0 & Hr0 & Hc); [by left|].
  assert (Hjs : forall j', In j' js ->
            exists r, regs0 !! j' = Some r /\ reg_code r <> c).
  { intros j' Hj'. apply H. by right. }
  pose proof (key_lookup _ _ j Hk) as Hj. rewrite Hr0 in Hj.
  destruct (st !! j) as [r|] eqn:Hr; [|done].
  simpl in Hj. injection Hj as Hcode Hlevel Hcard _.
  simpl. rewrite Hr.
  assert (Hl : level_at regs0 j = reg_level r).
  { unfold level_at. by rewrite Hr0. }
  assert (Hm : m2o_at regs0 j = is_m2o_card r).
  { unfold m2o_at, is_m2o_card. rewrite Hr0. unfold is_m2o_card.
    by rewrite Hcard. }
  rewrite <- Hcode. apply String.eqb_neq in Hc. rewrite Hc.
  unfold children_among. simpl. rewrite Hl.
  destruct (reg_level r =? lvl + 1) eqn:E1.
  - apply Z.eqb_eq in E1.
    replace (lvl <? reg_level r) with true by (symmetry; apply Z.ltb_lt; lia).
    simpl. rewrite Hl. replace (reg_level r =? lvl + 1) with true
      by (symmetry; apply Z.eqb_eq; lia).
    simpl. rewrite Hm.
    destruct (is_m2o_card r) eqn:E2; simpl.
    + rewrite IH; [|by rewrite key_alter|done].
      unfold mark_children, mark_child, children_among. simpl.
      rewrite Hm. by rewrite <- !app_assoc.
    + rewrite IH; [|by rewrite !key_alter|done].
      unfold mark_children, mark_child, children_among. simpl.
      rewrite Hm. by rewrite <- !app_assoc.
  - destruct (reg_level r <=? lvl) eqn:E2.
    + apply Z.leb_le in E2.
      replace (lvl <? reg_level r) with false
        by (symmetry; apply Z.ltb_ge; lia).
      simpl. by rewrite !app_nil_r.
    + apply Z.leb_gt in E2.
      replace (lvl <? reg_level r) with true by (symmetry; apply Z.ltb_lt; lia).
      simpl. rewrite Hl, E1. by apply IH.
Qed.

Lemma mark_child_lookup regs0 ri st x k :
  mark_child regs0 ri st x !! k =
  if decide (x = k) then link ri (m2o_at regs0 k) <$> st !! k else st !! k.
Proof.
  unfold mark_child, link. destruct (decide (x = k)) as [->|Hne].
  - destruct (m2o_at regs0 k); rewrite ?list_lookup_alter_eq; [done|].
    by destruct (st !! k).
  - destruct (m2o_at regs0 x); by rewrite ?list_lookup_alter_ne.
Qed.

Lemma link_idem ri b r : link ri b (link ri b r) = link ri b r.
Proof. by destruct b. Qed.

Lemma mark_children_lookup regs0 ri kids : forall st k,
  mark_children regs0 ri kids st !! k =
  if decide (k ∈ kids) then link ri (m2o_at regs0 k) <$> st !! k
  else st !! k.
Proof.
  unfold mark_children.
  induction kids as [|x kids IH]; intros st k.
  { case_decide as H; [by apply not_elem_of_nil in H|done]. }
  cbn [foldl].
  rewrite IH, mark_child_lookup.
  destruct (decide (x = k)) as [->|Hne].
  - rewrite (decide_True (P := k ∈ k :: kids)) by apply list_elem_of_here.
    destruct (decide (k ∈ kids)); [|done].
    destruct (st !! k); simpl; [|done]. by rewrite link_idem.
  - destruct (decide (k ∈ kids)) as [Hin|Hin].
    + rewrite decide_True; [done|]. by apply list_elem_of_further.
    + rewrite decide_False; [done|].
      rewrite elem_of_cons. intros [?|?]; done.
Qed.

Lemma take_while_seq_in (p : nat -> bool) len : forall a k,
  In k (Py.take_while p (seq a len)) <->
  (a <= k < a + len)%nat /\ forall j, (a <= j <= k)%nat -> p j = true.
Proof.
  induction len as [|len IH]; intros a k; simpl.
  { split; [done|]. intros [? _]. lia. }
  destruct (p a) eqn:Ha; simpl.
  - rewrite IH. split.
    + intros [<-|[Hk Hp]].
      * split; [lia|]. intros j Hj. by replace j with a by lia.
      * split; [lia|]. intros j Hj.
        destruct (decide (j = a)) as [->|]; [done|]. apply Hp. lia.
    + intros [Hk Hp]. destruct (decide (a = k)); [by left|right].
      split; [lia|]. intros j Hj. apply Hp. lia.
  - split; [done|]. intros [Hk Hp]. rewrite Hp in Ha by lia. done.
Qed.

Lemma in_following regs i k :
  In k (following_children regs i) <->
  (i < k < length regs)%nat /\
  level_at regs k = level_at regs i + 1 /\
  forall j, (i < j <= k)%nat -> level_at regs i < level_at regs j.
Proof.
  unfold following_children. rewrite List.filter_In, take_while_seq_in.
  rewrite Z.eqb_eq. split.
  - intros [[Hk Hp] Hl]. split; [lia|]. split; [done|].
    intros j Hj. apply Z.ltb_lt, Hp. lia.
  - intros (Hk & Hl & Hp). split; [|done]. split; [lia|].
    intros j Hj. apply Z.ltb_lt, Hp. lia.
Qed.

(** A register is the child of at most one register. *)
Lemma following_unique regs i i' k :
  In k (following_children regs i) -> In k (following_children regs i') ->
  i = i'.
Proof.
  rewrite !in_following. intros (Hk & Hl & Hp) (Hk' & Hl' & Hp').
  destruct (Nat.lt_trichotomy i i') as [Hlt|[->|Hlt]]; [|done|].
  - specialize (Hp i'). lia.
  - specialize (Hp' i). lia.
Qed.

Lemma collect_children_of_spec regs0 st m r :
  NoDup (reg_code <$> regs0) ->
  reg_key <$> regs0 = reg_key <$> st ->
  regs0 !! m = Some r ->
  collect_children_of st m =
  if 1 <? reg_level r then
    alter (set_children
             (List.filter (fun k => negb (m2o_at regs0 k))
                (following_children regs0 m))
             (List.filter (m2o_at regs0) (following_children regs0 m)))
      m (mark_children regs0 m (following_children regs0 m) st)
  else st.
Proof.
  intros Hnd Hk Hr.
  assert (Hlen : length st = length regs0).
  { apply (f_equal length) in Hk. by rewrite !length_fmap in Hk. }
  assert (Hm : (m < length regs0)%nat) by (by eapply lookup_lt_Some).
  assert (Hcodes : forall j, j <> m -> (j < length regs0)%nat ->
            exists r0, regs0 !! j = Some r0 /\ reg_code r0 <> reg_code r).
  { intros j Hne Hj. destruct (lookup_lt_is_Some_2 regs0 j Hj) as [r0 Hr0].
    exists r0. split; [done|]. intros Heq. apply Hne.
    eapply (NoDup_lookup _ j m (reg_code r0) Hnd);
      rewrite list_lookup_fmap; [by rewrite Hr0|by rewrite Hr, Heq]. }
  pose proof (key_lookup _ _ m Hk) as Hkm. rewrite Hr in Hkm.
  unfold collect_children_of.
  destruct (st !! m) as [r'|] eqn:Hr'; [|done].
  simpl in Hkm. injection Hkm as Hcode Hlevel Hcard _.
  rewrite <- Hlevel. destruct (1 <? reg_level r) eqn:E; [|done].
  rewrite Hlen.
  replace (length regs0) with (m + S (length regs0 - S m))%nat at 1 by lia.
  rewrite seq_app, scan_before.
  2:{ intros j Hj. apply in_seq in Hj.
      destruct (Hcodes j) as (r0 & Hr0 & Hc); [lia|lia|].
      pose proof (key_lookup _ _ j Hk) as Hkj. rewrite Hr0 in Hkj.
      destruct (st !! j) as [rj|]; [|done]. exists rj. split; [done|].
      simpl in Hkj. injection Hkj as Hcj _ _ _. congruence. }
  simpl. rewrite Hr', String.eqb_refl.
  rewrite (scan_after _ _ _ regs0); [|done|].
  2:{ intros j Hj. apply in_seq in Hj.
      destruct (Hcodes j) as (r0 & Hr0 & Hc); [lia|lia|].
      exists r0. split; [done|]. congruence. }
  unfold following_children, children_among, level_at. by rewrite Hr.
Qed.

Lemma rounds_step regs0 m st :
  NoDup (reg_code <$> regs0) -> (m < length regs0)%nat ->
  rounds_done regs0 m st ->
  rounds_done regs0 (S m) (collect_children_of st m).
Proof.
  intros Hnd Hm [Hk Hinv].
  destruct (lookup_lt_is_Some_2 regs0 m Hm) as [rm Hrm].
  rewrite (collect_children_of_spec regs0 st m rm) by done.
  destruct (1 <? reg_level rm) eqn:E.
  2:{ split; [done|]. intros i r Hi Hr Hl.
      destruct (decide (i = m)) as [->|Hne].
      - rewrite Hrm in Hr. injection Hr as <-. apply Z.ltb_ge in E. lia.
      - apply (Hinv i r); [lia|done|done]. }
  set (kids := following_children regs0 m).
  assert (Hlook : forall k,
    alter (set_children
             (List.filter (fun k => negb (m2o_at regs0 k)) kids)
             (List.filter (m2o_at regs0) kids)) m
          (mark_children regs0 m kids st) !! k =
    (fun r => if decide (m = k)
              then set_children
                     (List.filter (fun k => negb (m2o_at regs0 k)) kids)
                     (List.filter (m2o_at regs0) kids) r
              else if decide (k ∈ kids) then link m (m2o_at regs0 k) r
              else r) <$> st !! k).
  { intros k. destruct (decide (m = k)) as [<-|Hne].
    - rewrite list_lookup_alter_eq, mark_children_lookup.
      rewrite decide_False; [done|].
      rewrite list_elem_of_In. unfold kids. rewrite in_following. lia.
    - rewrite list_lookup_alter_ne by done. rewrite mark_children_lookup.
      destruct (decide (k ∈ kids)); [done|]. by destruct (st !! k). }
  split.
  { rewrite key_alter by done. by rewrite key_mark_children. }
  intros i r Hi Hr Hl.
  destruct (decide (i = m)) as [->|Hne].
  - rewrite Hrm in Hr. injection Hr as <-.
    pose proof (key_lookup _ _ m Hk) as Hkm. rewrite Hrm in Hkm.
    destruct (st !! m) as [r'|] eqn:Hr'; [|done].
    eexists. split; [rewrite Hlook, Hr'; simpl; by rewrite decide_True|].
    split; [done|]. split; [done|].
    intros k Hin. pose proof Hin as Hin'. apply in_following in Hin'.
    destruct Hin' as (Hlt & _).
    destruct (lookup_lt_is_Some_2 st k) as [c Hc].
    { apply (f_equal length) in Hk. rewrite !length_fmap in Hk. lia. }
    eexists. split.
    { rewrite Hlook, Hc. simpl. rewrite decide_False by lia.
      rewrite decide_True by (by apply list_elem_of_In). done. }
    unfold link. destruct (m2o_at regs0 k); by split.
  - destruct (Hinv i r) as (r' & Hr' & Hm2o & Ho2m & Hkids);
      [lia|done|done|].
    eexists. split; [by rewrite Hlook, Hr'|].
    split.
    { destruct (decide (m = i)); [lia|].
      destruct (decide (i ∈ kids)); [|done].
      unfold link. by destruct (m2o_at regs0 i). }
    split.
    { destruct (decide (m = i)); [lia|].
      destruct (decide (i ∈ kids)); [|done].
      unfold link. by destruct (m2o_at regs0 i). }
    intros k Hin. destruct (Hkids k Hin) as (c & Hc & Hp & Ho).
    eexists. split; [by rewrite Hlook, Hc|].
    destruct (decide (m = k)); [done|].
    destruct (decide (k ∈ kids)) as [Hk'|]; [|done].
    apply list_elem_of_In in Hk'.
    exfalso. apply Hne. by apply (following_unique regs0 i m k).
Qed.

Lemma rounds_all regs0 m :
  NoDup (reg_code <$> regs0) -> (m <= length regs0)%nat ->
  rounds_done regs0 m (foldl collect_children_of regs0 (seq 0 m)).
Proof.
  intros Hnd. induction m as [|m IH]; intros Hm.
  { split; [done|]. intros; lia. }
  rewrite seq_S, foldl_app. simpl. apply rounds_step; [done|lia|].
  apply IH. lia.
Qed.

(** C1, amended: when the codes of the list are pairwise distinct, every
    register above level 1 ends up with, as [children_m2o] and
    [children_o2m], exactly the registers that follow it before the next
    register whose level is not above its own and that sit one level below
    it, the ones whose stripped card is 1:1 or 1;1 in the first list and
    the others in the second; each of these children has the register as
    its [parent], and the ones of the second list have it as their
    [o2m_parent] too. *)
Theorem collect_register_children_distinct_codes regs :
  NoDup (reg_code <$> regs) ->
  hierarchy_read regs (collect_register_children regs).
Proof.
  intros Hnd. destruct (rounds_all regs (length regs) Hnd) as [_ H]; [done|].
  intros i r Hr Hl. apply (H i r); [|done|done].
  by eapply lookup_lt_Some.
Qed.

End Hierarchy.

Lemma collect_register_children_distinct_codes_witness :
  NoDup (reg_code <$> sample_registers) /\
  hierarchy_read sample_registers (collect_register_children sample_registers).
Proof.
  assert (H : NoDup (reg_code <$> sample_registers)).
  { apply (bool_decide_unpack _). vm_compute. exact I. }
  split; [exact H|].
  exact (collect_register_children_distinct_codes sample_registers H).
Defined.

(** C1 as stated fails on a list in which a code occurs twice: the scan
    for the first C100 steps over the second C100 without stopping, and
    collects C120 as well. *)
Lemma collect_register_children_twin_codes :
  ~ hierarchy_read twin_registers (collect_register_children twin_registers).
Proof.
  intros H.
  destruct (H 0%nat (mk_register "C100" 2 "1:N" "a") eq_refl) as
    (r' & Hr' & _ & Ho2m & _); [reflexivity|].
  vm_compute in Hr'. injection Hr' as <-. vm_compute in Ho2m. discriminate.
Qed.

(** ** The pass that makes field codes unique *)

Section UniqueCodes.

Implicit Types (f g : field) (fs : list field) (flds : list field).

Lemma chars_app (s t : string) :
  list_ascii_of_string (s ++ t) =
  (list_ascii_of_string s ++ list_ascii_of_string t)%list.
Proof. induction s as [|a s IH]; simpl; [done|]. by rewrite IH. Qed.

Lemma chars_inj (s t : string) :
  list_ascii_of_string s = list_ascii_of_string t -> s = t.
Proof.
  intros H. rewrite <- (string_of_list_ascii_of_string s),
    <- (string_of_list_ascii_of_string t). by rewrite H.
Qed.

(** Text cut at its last separator is cut in one way only. *)
Lemma cut_at_last (x : ascii) (a : list ascii) : forall b s t,
  ~ In x s -> ~ In x t ->
  (a ++ x :: s = b ++ x :: t)%list -> a = b /\ s = t.
Proof.
  induction a as [|y a IH]; intros b s t Hs Ht H.
  - destruct b as [|y b]; simpl in H.
    + by injection H.
    + injection H as -> ->. exfalso. apply Hs, in_or_app. right. by left.
  - destruct b as [|y' b]; simpl in H.
    + injection H as -> <-. exfalso. apply Ht, in_or_app. right. by left.
    + injection H as -> H. destruct (IH b s t Hs Ht H) as [-> ->]. done.
Qed.

Lemma uint_no_underscore d :
  ~ In "_"%char (list_ascii_of_string (NilEmpty.string_of_uint d)).
Proof.
  induction d; simpl; [tauto|..]; intros [H|H]; try discriminate; auto.
Qed.

Lemma str_of_int_no_underscore z :
  ~ In "_"%char (list_ascii_of_string (Py.str_of_int z)).
Proof.
  unfold Py.str_of_int. destruct (Z.to_int z); simpl.
  - apply uint_no_underscore.
  - intros [H|H]; [discriminate|]. by apply uint_no_underscore in H.
Qed.

Lemma str_of_int_inj z1 z2 : Py.str_of_int z1 = Py.str_of_int z2 -> z1 = z2.
Proof.
  unfold Py.str_of_int. intros H.
  apply (f_equal NilEmpty.int_of_string) in H. rewrite !NilEmpty.isi in H.
  injection H as H. apply (f_equal Z.of_int) in H.
  by rewrite !DecimalZ.of_to in H.
Qed.

(** The appended index can be read back: two fields get the same indexed
    code only if they agree on code and index. *)
Lemma indexed_code_inj f g :
  indexed_code f = indexed_code g ->
  fld_code f = fld_code g /\ fld_index f = fld_index g.
Proof.
  unfold indexed_code. intros H.
  apply (f_equal list_ascii_of_string) in H. rewrite !chars_app in H.
  assert (E : forall c s : list ascii,
            (c ++ list_ascii_of_string "_INDEX_" ++ s =
             (c ++ list_ascii_of_string "_INDEX") ++ "_"%char :: s)%list).
  { intros c s. by rewrite <- app_assoc. }
  rewrite !E in H. apply cut_at_last in H; try apply str_of_int_no_underscore.
  destruct H as [H1 H2]. apply app_inv_tail in H1.
  split; [by apply chars_inj|]. by apply str_of_int_inj, chars_inj.
Qed.

Lemma pass_codes_spec fs : forall (done : list field) (U : gset string),
  (forall c, c ∈ U ->
     exists g, g ∈ done /\ (c = fld_code g \/ c = indexed_code g)) ->
  (forall g, g ∈ done -> fld_code g ∈ U) ->
  no_code_is_indexed (done ++ fs) ->
  same_code_distinct_index (done ++ fs) ->
  NoDup (pass_codes U fs) /\
  (forall c, c ∈ pass_codes U fs -> c ∉ U) /\
  pass_codes U fs = renamed_codes (fld_code <$> done) fs.
Proof.
  induction fs as [|f fs IH]; intros done U Hsub Hsup H1 H2.
  { simpl. split; [constructor|]. split; [|done].
    intros c Hc. by apply not_elem_of_nil in Hc. }
  assert (Hf : f ∈ (done ++ f :: fs)%list).
  { apply elem_of_app. right. apply list_elem_of_here. }
  assert (Hdone : forall g, g ∈ done -> g ∈ (done ++ f :: fs)%list).
  { intros g Hg. apply elem_of_app. by left. }
  assert (Hin : fld_code f ∈ U <-> fld_code f ∈ fld_code <$> done).
  { split.
    - intros Hc. destruct (Hsub _ Hc) as (g & Hg & [E|E]).
      + rewrite E. by apply list_elem_of_fmap_2.
      + exfalso. by apply (H1 g f (Hdone g Hg) Hf).
    - intros Hc. apply list_elem_of_fmap in Hc as (g & -> & Hg). by apply Hsup. }
  simpl. destruct (decide (fld_code f ∈ U)) as [HU|HU].
  - assert (Hfresh : indexed_code f ∉ U).
    { intros Hc. destruct (Hsub _ Hc) as (g & Hg & [E|E]).
      - by apply (H1 f g Hf (Hdone g Hg)).
      - apply indexed_code_inj in E as [Ec Ei].
        apply list_elem_of_lookup in Hg as [i Hi].
        apply (H2 i (length done) g f); try done.
        + by apply lookup_app_l_Some.
        + rewrite lookup_app_r by lia. by rewrite Nat.sub_diag.
        + apply lookup_lt_Some in Hi. lia. }
    destruct (IH (done ++ [f])%list ({[indexed_code f]} ∪ U))
      as (Hnd & Hout & Heq).
    + intros c Hc. apply elem_of_union in Hc as [Hc|Hc].
      * apply elem_of_singleton in Hc as ->. exists f. split; [|by right].
        apply elem_of_app. right. apply list_elem_of_here.
      * destruct (Hsub c Hc) as (g & Hg & E). exists g. split; [|done].
        apply elem_of_app. by left.
    + intros g Hg. apply elem_of_app in Hg as [Hg|Hg].
      * apply elem_of_union. right. by apply Hsup.
      * apply list_elem_of_singleton in Hg as ->. apply elem_of_union. by right.
    + by rewrite <- app_assoc.
    + by rewrite <- app_assoc.
    + split; [|split].
      * constructor; [|done]. intros Hc. apply (Hout _ Hc).
        apply elem_of_union. left. by apply elem_of_singleton.
      * intros c Hc. apply elem_of_cons in Hc as [->|Hc]; [done|].
        intros HcU. apply (Hout _ Hc). apply elem_of_union. by right.
      * rewrite decide_True by (by apply Hin).
        rewrite Heq, fmap_app. done.
  - destruct (IH (done ++ [f])%list ({[fld_code f]} ∪ U))
      as (Hnd & Hout & Heq).
    + intros c Hc. apply elem_of_union in Hc as [Hc|Hc].
      * apply elem_of_singleton in Hc as ->. exists f. split; [|by left].
        apply elem_of_app. right. apply list_elem_of_here.
      * destruct (Hsub c Hc) as (g & Hg & E). exists g. split; [|done].
        apply elem_of_app. by left.
    + intros g Hg. apply elem_of_app in Hg as [Hg|Hg].
      * apply elem_of_union. right. by apply Hsup.
      * apply list_elem_of_singleton in Hg as ->. apply elem_of_union. left.
        by apply elem_of_singleton.
    + by rewrite <- app_assoc.
    + by rewrite <- app_assoc.
    + split; [|split].
      * constructor; [|done]. intros Hc. apply (Hout _ Hc).
        apply elem_of_union. left. by apply elem_of_singleton.
      * intros c Hc. apply elem_of_cons in Hc as [->|Hc]; [done|].
        intros HcU. apply (Hout _ Hc). apply elem_of_union. by right.
      * rewrite decide_False by (by rewrite <- Hin).
        rewrite Heq, fmap_app. done.
Qed.

Lemma omap_cons {A B} (f : A -> option B) (x : A) (l : list A) :
  omap f (x :: l) =
  match f x with Some y => y :: omap f l | None => omap f l end.
Proof. reflexivity. Qed.

Lemma omap_ext_elem {A B} (f g : A -> option B) (l : list A) :
  (forall x, x ∈ l -> f x = g x) -> omap f l = omap g l.
Proof.
  induction l as [|x l IH]; intros H; [done|]. rewrite !omap_cons.
  rewrite (H x) by apply list_elem_of_here.
  rewrite IH; [done|]. intros y Hy. apply H. by apply list_elem_of_further.
Qed.

(** The loop over positions of the heap computes [pass_codes]. *)
Lemma unique_field_codes_spec js : forall U (fields : list nat) flds,
  NoDup js -> (forall j, j ∈ js -> is_Some (flds !! j)) ->
  exists flds',
    unique_field_codes js U fields flds = (flds', (fields ++ js)%list) /\
    length flds' = length flds /\
    (forall k, k ∉ js -> flds' !! k = flds !! k) /\
    omap (fun j => fld_code <$> flds' !! j) js =
      pass_codes U (omap (fun j => flds !! j) js).
Proof.
  induction js as [|j js IH]; intros U fields flds Hnd Hval.
  { exists flds. simpl. by rewrite app_nil_r. }
  apply NoDup_cons in Hnd as [Hj Hnd].
  destruct (Hval j) as [f Hf]; [apply list_elem_of_here|].
  cbn [unique_field_codes]. rewrite Hf, !omap_cons, Hf.
  cbn [pass_codes].
  destruct (decide (fld_code f ∈ U)) as [HU|HU].
  - destruct (IH ({[indexed_code f]} ∪ U) (fields ++ [j])%list
                (alter (set_code (indexed_code f)) j flds) Hnd)
      as (flds' & Hrun & Hlen & Hkeep & Hcodes).
    { intros k Hk. apply lookup_lt_is_Some. rewrite length_alter.
      apply lookup_lt_is_Some, Hval. by apply list_elem_of_further. }
    exists flds'. rewrite Hrun, <- app_assoc. split; [done|].
    split; [by rewrite Hlen, length_alter|]. split.
    + intros k Hk. apply not_elem_of_cons in Hk as [Hkj Hk].
      rewrite Hkeep by done. by rewrite list_lookup_alter_ne.
    + rewrite omap_cons, (Hkeep j Hj), list_lookup_alter_eq, Hf. simpl.
      rewrite Hcodes. f_equal. f_equal. apply omap_ext_elem.
      intros k Hk. rewrite list_lookup_alter_ne; [done|].
      intros ->. by apply Hj.
  - destruct (IH ({[fld_code f]} ∪ U) (fields ++ [j])%list flds Hnd)
      as (flds' & Hrun & Hlen & Hkeep & Hcodes).
    { intros k Hk. apply Hval. by apply list_elem_of_further. }
    exists flds'. rewrite Hrun, <- app_assoc. split; [done|].
    split; [done|]. split.
    + intros k Hk. apply not_elem_of_cons in Hk as [Hkj Hk]. by apply Hkeep.
    + rewrite omap_cons, (Hkeep j Hj), Hf. simpl. by rewrite Hcodes.
Qed.

Lemma positions_filter (p : field -> bool) (l : list field) : forall pre,
  omap (fun j => (pre ++ l)%list !! j)
    (List.filter
       (fun j => match (pre ++ l)%list !! j with
                 | Some f => p f
                 | None => false
                 end)
       (seq (length pre) (length l))) = List.filter p l.
Proof.
  induction l as [|x l IH]; intros pre; [done|].
  assert (Hx : (pre ++ x :: l)%list !! length pre = Some x).
  { rewrite lookup_app_r by lia. by rewrite Nat.sub_diag. }
  specialize (IH (pre ++ [x])%list).
  rewrite <- app_assoc, length_app in IH. simpl in IH.
  rewrite Nat.add_1_r in IH.
  simpl. rewrite Hx. destruct (p x).
  - rewrite omap_cons, Hx. by rewrite IH.
  - by rewrite IH.
Qed.

Lemma fields_of_register_spec code flds :
  NoDup (fields_of_register code flds) /\
  (forall j, j ∈ fields_of_register code flds -> is_Some (flds !! j)) /\
  omap (fun j => flds !! j) (fields_of_register code flds) =
    register_fields code flds.
Proof.
  unfold fields_of_register, register_fields. split; [|split].
  - apply NoDup_ListNoDup, List.NoDup_filter, List.seq_NoDup.
  - intros j Hj. apply list_elem_of_In, List.filter_In in Hj as [Hj _].
    apply in_seq in Hj. apply lookup_lt_is_Some. lia.
  - apply (positions_filter (fun f => String.eqb (fld_register f) code)
             flds []).
Qed.

Lemma codes_after_pass code flds :
  codes_after code flds = pass_codes ∅ (register_fields code flds).
Proof.
  destruct (fields_of_register_spec code flds) as (Hnd & Hval & Hfs).
  destruct (unique_field_codes_spec (fields_of_register code flds) ∅ []
              flds Hnd Hval) as (flds' & Hrun & _ & _ & Hcodes).
  unfold codes_after, dedup_register_fields. rewrite Hrun. simpl.
  by rewrite Hcodes, Hfs.
Qed.

(** Where the pass keeps the promise of its comment: when no field code
    of the register is another field's code followed by _INDEX_ and that
    field's index, and no two fields of the register with the same code
    share an index, the codes of the resulting list are pairwise distinct,
    the first field bearing a code keeps it and every later one gets its
    code followed by _INDEX_ and its index. *)
Lemma dedup_codes_distinct code flds :
  no_code_is_indexed (register_fields code flds) ->
  same_code_distinct_index (register_fields code flds) ->
  codes_made_unique code flds.
Proof.
  intros H1 H2. unfold codes_made_unique. rewrite codes_after_pass.
  destruct (pass_codes_spec (register_fields code flds) [] ∅)
    as (Hnd & _ & Heq);
    [ intros c Hc; by apply not_elem_of_empty in Hc
    | intros g Hg; by apply not_elem_of_nil in Hg
    | done | done | done ].
Qed.

End UniqueCodes.

Lemma dedup_codes_distinct_witness :
  no_code_is_indexed (register_fields "C170" sample_fields) /\
  same_code_distinct_index (register_fields "C170" sample_fields) /\
  codes_made_unique "C170" sample_fields.
Proof.
  assert (H1 : no_code_is_indexed (register_fields "C170" sample_fields)).
  { intros f g Hf Hg.
    repeat (apply elem_of_cons in Hf as [->|Hf]);
      try (by apply not_elem_of_nil in Hf);
      repeat (apply elem_of_cons in Hg as [->|Hg]);
      try (by apply not_elem_of_nil in Hg); vm_compute; discriminate. }
  assert (H2 : same_code_distinct_index (register_fields "C170" sample_fields)).
  { intros i j f g Hi Hj Hne Hc.
    destruct i as [|[|[|[|[|i]]]]]; try discriminate Hi;
      injection Hi as <-;
      destruct j as [|[|[|[|[|j]]]]]; try discriminate Hj;
      injection Hj as <-; try done; vm_compute; discriminate. }
  split; [exact H1|]. split; [exact H2|].
  exact (dedup_codes_distinct "C170" sample_fields H1 H2).
Defined.

(** C2: the pass is there to make the field codes of a register unique,
    and does not: the renamed code goes into [unique_codes] untested, so
    of the fields ALIQ_INDEX_3, ALIQ and ALIQ with the indexes 1, 2 and 3
    the second ALIQ is renamed to ALIQ_INDEX_3, the code the first field
    of the register already bears. *)
Lemma dedup_codes_clash : ~ codes_made_unique "M210" clashing_fields.
Proof.
  intros [H _]. vm_compute in H.
  apply NoDup_cons in H as [H _]. apply H.
  apply list_elem_of_further, list_elem_of_here.
Qed.

(** ** The register loop of main *)

Section Loop.
Context `{External}.

Implicit Types (g : gen) (regs rs : list register) (r : register).

Lemma sapp_assoc (a b c : string) : (a ++ b) ++ c = a ++ b ++ c.
Proof.
  induction a as [|x a IH]; [done|].
  change (String x ((a ++ b) ++ c) = String x (a ++ b ++ c)). by rewrite IH.
Qed.

Lemma sapp_nil_r (a : string) : a ++ "" = a.
Proof.
  induction a as [|x a IH]; [done|].
  change (String x (a ++ "") = String x a). by rewrite IH.
Qed.

(** Registers that agree on code, level and description are treated
    alike by everything the loop appends. *)
Lemma core_marker r r' :
  reg_key r = reg_key r' -> is_block_marker r = is_block_marker r'.
Proof. unfold reg_key, is_block_marker. intros [= -> -> _ _]. done. Qed.

Lemma core_bloco r r' : reg_key r = reg_key r' -> bloco_of r = bloco_of r'.
Proof. unfold reg_key, bloco_of. intros [= -> _ _ _]. done. Qed.

Lemma core_short_desc mod_ r r' :
  reg_key r = reg_key r' -> short_desc_of mod_ r = short_desc_of mod_ r'.
Proof. unfold reg_key, short_desc_of. intros [= -> _ _ ->]. done. Qed.

Lemma first_char_bloco r c :
  Py.first_char (reg_code r) = Ok c -> bloco_of r = c.
Proof.
  unfold bloco_of. destruct (reg_code r); simpl; [done|]. by intros [= <-].
Qed.

Lemma reached_marker r rs :
  is_block_marker r = true -> reached (r :: rs) = reached rs.
Proof.
  intros Hm. unfold reached, stops_loop. cbn [Py.take_while].
  rewrite Hm. cbn. by rewrite Hm.
Qed.

Lemma reached_stop r rs :
  is_block_marker r = false -> is_bloco9 r = true -> reached (r :: rs) = [].
Proof.
  intros Hm H9. unfold reached, stops_loop. cbn [Py.take_while].
  by rewrite Hm, H9.
Qed.

Lemma reached_next r rs :
  is_block_marker r = false -> is_bloco9 r = false ->
  reached (r :: rs) = r :: reached rs.
Proof.
  intros Hm H9. unfold reached, stops_loop. cbn [Py.take_while].
  rewrite Hm, H9. cbn. by rewrite Hm.
Qed.

(** What one complete run of the loop appends, read off the list the
    loop started from. *)
Lemma run_registers_spec mod_ version regs0 n : forall a g g',
  (a + n = length regs0)%nat ->
  reg_key <$> regs0 = reg_key <$> g_registers g ->
  run_registers mod_ version (seq a n) g = Ok g' ->
  g_security g' =
    g_security g ++ security_text mod_ (reached (drop a regs0)) /\
  cls_qname <$> g_classes g' =
    ((cls_qname <$> g_classes g)
     ++ (class_qname <$> reached (drop a regs0)))%list /\
  g_views g' =
    g_views g
    ++ register_views mod_ (g_last_bloco g) (reached (drop a regs0)).
Proof.
  induction n as [|n IH]; intros a g g' Hlen Hcore Hrun.
  { simpl in Hrun. injection Hrun as <-.
    rewrite drop_ge by lia. unfold reached. simpl.
    by rewrite !sapp_nil_r, app_nil_r. }
  assert (Ha : (a < length regs0)%nat) by lia.
  destruct (lookup_lt_is_Some_2 regs0 a Ha) as [r0 Hr0].
  rewrite (drop_S _ _ _ Hr0).
  pose proof (key_lookup _ _ a Hcore) as Hca. rewrite Hr0 in Hca.
  destruct (g_registers g !! a) as [r|] eqn:Hr; [|done].
  apply (inj Some) in Hca.
  cbn [seq run_registers] in Hrun. unfold one_register in Hrun.
  rewrite Hr in Hrun.
  rewrite <- (core_marker _ _ Hca) in Hrun.
  destruct (is_block_marker r0) eqn:Hm.
  { rewrite reached_marker by done.
    apply (IH (S a) g g'); [lia|done|done]. }
  destruct (Py.first_char (reg_code r)) as [c|e] eqn:Hc; [|done].
  simpl in Hrun. apply first_char_bloco in Hc.
  rewrite <- (core_bloco _ _ Hca) in Hc.
  destruct (String.eqb c "9") eqn:H9.
  { simpl in Hrun. injection Hrun as <-.
    rewrite reached_stop; [|done|by unfold is_bloco9; rewrite Hc]. simpl.
    by rewrite !sapp_nil_r, app_nil_r. }
  rewrite reached_next; [|done|by unfold is_bloco9; rewrite Hc].
  destruct (register_field_attrs (reg_code r) (g_fields g) _)
    as [[[fields1 concrete2] attrs]|e] eqn:Hf; [|done].
  simpl in Hrun.
  match type of Hrun with
  | run_registers _ _ _ ?g1 = _ =>
      destruct (IH (S a) g1 g') as (Hs & Hk & Hv); [lia| |done|]
  end.
  { simpl. by rewrite key_alter. }
  simpl in Hs, Hk, Hv.
  assert (Hcode : reg_code r0 = reg_code r).
  { unfold reg_key in Hca. by injection Hca. }
  assert (Hlevel : reg_level r0 = reg_level r).
  { unfold reg_key in Hca. by injection Hca. }
  cbn [security_text register_views].
  rewrite (core_short_desc mod_ _ _ Hca), Hc, Hcode, Hlevel.
  split; [|split].
  - by rewrite Hs, sapp_assoc.
  - rewrite Hk, fmap_app, <- app_assoc. simpl. unfold class_qname.
    by rewrite Hcode.
  - rewrite Hv.
    destruct (bool_decide (Some c = g_last_bloco g));
      destruct (reg_level r =? 2); simpl;
      by rewrite ?sapp_assoc.
Qed.

End Loop.

(** ** Sorting by _get_alphanum_sequence *)

Section Order.

Implicit Types (r : register) (rs regs : list register).

Lemma single_eqb (b c : ascii) :
  String.eqb (String b "") (String c "") = Ascii.eqb b c.
Proof. simpl. by destruct (Ascii.eqb b c). Qed.

Lemma alphanum_key_cons r b rest :
  reg_code r = String b rest ->
  alphanum_key r = String (prefix_char b) (reg_code r).
Proof.
  intros Hc. unfold alphanum_key, _get_alphanum_sequence, prefix_char.
  rewrite Hc. unfold Py.first_char, mbind, result_bind.
  rewrite !single_eqb.
  by destruct (Ascii.eqb b "0"), (Ascii.eqb b "1"), (Ascii.eqb b "9").
Qed.

Lemma first_char_nonempty r c :
  Py.first_char (reg_code r) = Ok c -> c = bloco_of r.
Proof.
  unfold bloco_of. destruct (reg_code r); simpl; [done|]. by intros [= <-].
Qed.

Lemma alphanum_key_nil r : reg_code r = "" -> alphanum_key r = "".
Proof.
  intros Hc. unfold alphanum_key, _get_alphanum_sequence. by rewrite Hc.
Qed.

Lemma N_of_ascii_lt a : (N_of_ascii a < 256)%N.
Proof. apply N_ascii_bounded. Qed.

Lemma N_of_ascii_inj a b : N_of_ascii a = N_of_ascii b -> a = b.
Proof.
  intros E. rewrite <- (ascii_N_embedding a), <- (ascii_N_embedding b).
  by rewrite E.
Qed.

(** The sort key orders the registers by [bloco_rank]. *)
Lemma key_le_rank r1 r2 : key_le r1 r2 -> (bloco_rank r1 <= bloco_rank r2)%N.
Proof.
  unfold key_le, String.le, bloco_rank, String.leb.
  destruct (reg_code r1) as [|b1 s1] eqn:E1; [lia|].
  destruct (reg_code r2) as [|b2 s2] eqn:E2.
  { rewrite (alphanum_key_cons _ _ _ E1), (alphanum_key_nil _ E2). done. }
  rewrite (alphanum_key_cons _ _ _ E1), (alphanum_key_cons _ _ _ E2), E1, E2.
  simpl. unfold Ascii.compare.
  pose proof (N_of_ascii_lt b1). pose proof (N_of_ascii_lt b2).
  destruct (N.compare_spec (N_of_ascii (prefix_char b1))
              (N_of_ascii (prefix_char b2))) as [Ep|Hp|Hp].
  - destruct (N.compare_spec (N_of_ascii b1) (N_of_ascii b2)) as [Eb|Hb|Hb].
    + intros _. lia.
    + intros _. lia.
    + done.
  - intros _. lia.
  - done.
Qed.

Lemma rank_bloco r1 r2 :
  bloco_rank r1 = bloco_rank r2 -> bloco_of r1 = bloco_of r2.
Proof.
  unfold bloco_rank, bloco_of.
  destruct (reg_code r1) as [|b1 s1], (reg_code r2) as [|b2 s2]; try done.
  - pose proof (N_of_ascii_lt b2). intros E.
    assert (N_of_ascii (prefix_char b2) = 0%N) by lia.
    unfold prefix_char in *.
    destruct (Ascii.eqb b2 "0"), (Ascii.eqb b2 "1"), (Ascii.eqb b2 "9");
      discriminate.
  - pose proof (N_of_ascii_lt b1). intros E.
    assert (N_of_ascii (prefix_char b1) = 0%N) by lia.
    unfold prefix_char in *.
    destruct (Ascii.eqb b1 "0"), (Ascii.eqb b1 "1"), (Ascii.eqb b1 "9");
      discriminate.
  - pose proof (N_of_ascii_lt b1). pose proof (N_of_ascii_lt b2). intros E.
    assert (N_of_ascii b1 = N_of_ascii b2) by lia.
    f_equal. by apply N_of_ascii_inj.
Qed.

Lemma bloco_rank_of r1 r2 :
  bloco_of r1 = bloco_of r2 -> bloco_rank r1 = bloco_rank r2.
Proof.
  unfold bloco_rank, bloco_of.
  destruct (reg_code r1) as [|b1 s1], (reg_code r2) as [|b2 s2]; try done.
  by intros [= ->].
Qed.

(** Bloco 9 is the top rank. *)
Lemma bloco9_rank r : is_bloco9 r = true <-> (13113 <= bloco_rank r)%N.
Proof.
  unfold is_bloco9, bloco_rank, bloco_of.
  destruct (reg_code r) as [|b s]; [split; [done|lia]|].
  pose proof (N_of_ascii_lt b). unfold prefix_char.
  destruct (Ascii.eqb_spec b "0") as [->|H0]; [split; [done|simpl; lia]|].
  destruct (Ascii.eqb_spec b "1") as [->|H1]; [split; [done|simpl; lia]|].
  destruct (Ascii.eqb_spec b "9") as [->|H9]; [split; [done|simpl; lia]|].
  split; [|simpl; lia].
  intros E. apply String.eqb_eq in E. congruence.
Qed.

Lemma map_result_Forall2 {A B} (f : A -> result B) (l : list A) :
  forall ys, map_result f l = Ok ys -> Forall2 (fun x y => f x = Ok y) l ys.
Proof.
  induction l as [|x l IH]; intros ys Hm; simpl in Hm.
  { injection Hm as <-. constructor. }
  destruct (f x) as [y|e] eqn:Hx; [|done]. simpl in Hm.
  destruct (map_result f l) as [ys'|e]; [|done]. simpl in Hm.
  injection Hm as <-. constructor; [done|]. by apply IH.
Qed.

Lemma insert_by_key_spec x (s : list (string * register)) :
  Forall (fun p => p.1 = alphanum_key p.2) s ->
  StronglySorted key_le (snd <$> s) ->
  Forall (fun p => p.1 = alphanum_key p.2)
    (insert_by_key (alphanum_key x) x s) /\
  StronglySorted key_le (snd <$> insert_by_key (alphanum_key x) x s) /\
  snd <$> insert_by_key (alphanum_key x) x s ≡ₚ x :: (snd <$> s).
Proof.
  induction s as [|[k y] s IH]; intros Hinv Hs.
  { simpl. repeat split; repeat constructor. }
  apply Forall_cons in Hinv as [Hk Hinv]. simpl in Hk. subst k.
  rewrite fmap_cons in Hs. apply StronglySorted_cons in Hs as [Hy Hs].
  destruct (IH Hinv Hs) as (Hinv' & Hs' & Hp).
  simpl. destruct (String.leb (alphanum_key x) (alphanum_key y)) eqn:Hle.
  - split; [by repeat constructor|]. split; [|done].
    rewrite !fmap_cons. simpl.
    assert (Hxy : key_le x y) by (unfold key_le, String.le; by rewrite Hle).
    constructor; [by constructor|].
    constructor; [done|].
    eapply Forall_impl; [exact Hy|]. intros z Hz. unfold key_le in *.
    by etrans.
  - split; [by constructor|]. split; [|by rewrite fmap_cons, Hp, Permutation_swap].
    rewrite fmap_cons. simpl. constructor; [done|].
    rewrite Hp. constructor; [|done].
    unfold key_le. destruct (total String.le (alphanum_key x) (alphanum_key y))
      as [Hxy|Hyx]; [|done].
    unfold String.le in Hxy. by rewrite Hle in Hxy.
Qed.

Lemma sort_keyed_spec (l : list register) :
  Forall (fun p => p.1 = alphanum_key p.2) (sort_keyed (keyed <$> l)) /\
  StronglySorted key_le (snd <$> sort_keyed (keyed <$> l)) /\
  snd <$> sort_keyed (keyed <$> l) ≡ₚ l.
Proof.
  induction l as [|x l (Hinv & Hs & Hp)].
  { repeat split; constructor. }
  unfold sort_keyed in *. rewrite fmap_cons. simpl.
  destruct (insert_by_key_spec x _ Hinv Hs) as (Hinv' & Hs' & Hp').
  repeat split; [done|done|]. by rewrite Hp', Hp.
Qed.

Lemma keep_register_survives mod_ r b :
  keep_register mod_ r = Ok b -> b = survives mod_ r.
Proof.
  unfold keep_register, survives.
  destruct (Py.first_char (reg_code r)) as [c|e] eqn:Hc; [|done].
  apply first_char_nonempty in Hc as ->. simpl. by intros [= <-].
Qed.

Lemma filter_registers_spec mod_ raw kept :
  filter_registers mod_ raw = Ok kept ->
  kept = List.filter (survives mod_) raw.
Proof.
  unfold filter_registers.
  destruct (map_result _ raw) as [keeps|e] eqn:Hk; [|done].
  simpl. intros [= <-]. apply map_result_Forall2 in Hk.
  induction Hk as [|x [b y] raw keeps Hx _ IH]; [done|].
  destruct (keep_register mod_ x) as [b'|e] eqn:Hb; [|done].
  simpl in Hx. injection Hx as -> ->.
  apply keep_register_survives in Hb as ->. cbn [List.filter fst].
  destruct (survives mod_ y); [|exact IH].
  rewrite fmap_cons. cbn [snd]. f_equal. exact IH.
Qed.

Lemma keyed_spec kept ks :
  map_result
    (fun x => k ← _get_alphanum_sequence (reg_code x); Ok (k, x)) kept
  = Ok ks ->
  ks = keyed <$> kept.
Proof.
  intros Hk. apply map_result_Forall2 in Hk.
  induction Hk as [|x [k y] kept ks Hx _ IH]; [done|].
  rewrite fmap_cons, <- IH. f_equal. unfold keyed, alphanum_key.
  destruct (_get_alphanum_sequence (reg_code x)) as [k'|e]; [|done].
  simpl in Hx. by injection Hx as -> ->.
Qed.

Lemma sorted_registers_spec mod_ raw regs :
  sorted_registers mod_ raw = Ok regs ->
  regs ≡ₚ List.filter (survives mod_) raw /\ StronglySorted key_le regs.
Proof.
  unfold sorted_registers.
  destruct (filter_registers mod_ raw) as [kept|e] eqn:Hf; [|done].
  apply filter_registers_spec in Hf as ->. simpl.
  destruct (map_result _ _) as [ks|e] eqn:Hk; [|done].
  apply keyed_spec in Hk as ->. simpl. intros [= <-].
  destruct (sort_keyed_spec (List.filter (survives mod_) raw))
    as (_ & Hs & Hp). done.
Qed.

(** [collect_register_children] leaves code, level, card and description
    of every register alone, whatever the list. *)
Lemma scan_children_key ri c lvl js : forall b o2m m2o regs,
  reg_key <$> (scan_children ri c lvl js b o2m m2o regs).1.1 =
  reg_key <$> regs.
Proof.
  induction js as [|j js IH]; intros b o2m m2o regs; [done|].
  simpl. destruct (regs !! j) as [r|]; [|done].
  destruct (String.eqb (reg_code r) c); [apply IH|].
  destruct b; [|apply IH].
  destruct (reg_level r =? lvl + 1).
  - destruct (is_m2o_card r); rewrite IH, ?key_alter; done.
  - destruct (reg_level r <=? lvl); [done|apply IH].
Qed.

Lemma collect_children_of_key regs ri :
  reg_key <$> collect_children_of regs ri = reg_key <$> regs.
Proof.
  unfold collect_children_of. destruct (regs !! ri) as [r|]; [|done].
  destruct (1 <? reg_level r); [|done].
  pose proof (scan_children_key ri (reg_code r) (reg_level r)
                (seq 0 (length regs)) false [] [] regs) as Hk.
  destruct (scan_children _ _ _ _ _ _ _ _) as [[regs' o2m] m2o].
  simpl in Hk. by rewrite key_alter.
Qed.

Lemma collect_register_children_key regs :
  reg_key <$> collect_register_children regs = reg_key <$> regs.
Proof.
  unfold collect_register_children. generalize (seq 0 (length regs)).
  intros js. revert regs. induction js as [|j js IH]; intros regs; [done|].
  simpl. by rewrite IH, collect_children_of_key.
Qed.

Lemma key_rank r r' : reg_key r = reg_key r' -> bloco_rank r = bloco_rank r'.
Proof. unfold reg_key, bloco_rank. intros [= -> _ _ _]. done. Qed.

Lemma key_fmap_rank regs regs' :
  reg_key <$> regs = reg_key <$> regs' ->
  bloco_rank <$> regs = bloco_rank <$> regs'.
Proof.
  intros Hk. apply list_eq. intros i. rewrite !list_lookup_fmap.
  pose proof (key_lookup _ _ i Hk) as Hi.
  destruct (regs !! i), (regs' !! i); simpl in *; try done.
  f_equal. apply key_rank. congruence.
Qed.

End Order.

Section Registers.
Context `{External}.

(** The registers the loop runs over: the ones of [get_registers] that
    survive the filter, in the order of the sort key. *)
Lemma module_registers_spec mod_ year regs :
  module_registers mod_ year = Ok regs ->
  rank_sorted regs /\
  (reg_key <$> regs ≡ₚ
     reg_key <$> List.filter (survives mod_) (get_registers mod_ year)).
Proof.
  unfold module_registers.
  destruct (sorted_registers mod_ _) as [sorted|e] eqn:Hs; [|done].
  simpl. intros [= <-]. apply sorted_registers_spec in Hs as [Hp Hs].
  rewrite collect_register_children_key. split; [|by rewrite Hp].
  unfold rank_sorted.
  rewrite (key_fmap_rank _ sorted) by apply collect_register_children_key.
  eapply StronglySorted_fmap; [|exact Hs]. apply key_le_rank.
Qed.

End Registers.

(** ** The artefacts of one module *)

Section Artefacts.
Context `{External}.

Implicit Types (g : gen) (regs rs : list register) (r : register).

Lemma rank_sorted_cons r rs :
  rank_sorted (r :: rs) <->
  Forall (fun r' => (bloco_rank r <= bloco_rank r')%N) rs /\ rank_sorted rs.
Proof.
  unfold rank_sorted. rewrite fmap_cons, StronglySorted_cons, Forall_fmap.
  done.
Qed.

Lemma rank_sorted_filter (p : register -> bool) rs :
  rank_sorted rs -> rank_sorted (List.filter p rs).
Proof.
  induction rs as [|r rs IH]; [done|].
  rewrite rank_sorted_cons. intros [Hr Hs]. simpl.
  destruct (p r); [|by apply IH].
  apply rank_sorted_cons. split; [|by apply IH].
  apply List.Forall_forall. intros r' Hr'. apply List.filter_In in Hr' as [Hr' _].
  rewrite List.Forall_forall in Hr. by apply Hr.
Qed.

(** Once a register of bloco 9 is met, only bloco 9 follows. *)
Lemma bloco9_then_all r rs :
  rank_sorted (r :: rs) -> is_bloco9 r = true ->
  Forall (fun r' => is_bloco9 r' = true) rs.
Proof.
  rewrite rank_sorted_cons. intros [Hr _] H9.
  eapply Forall_impl; [exact Hr|]. intros r' Hle. simpl in Hle.
  apply bloco9_rank. apply bloco9_rank in H9. lia.
Qed.

Lemma generated_all_bloco9 rs :
  Forall (fun r' => is_bloco9 r' = true) rs -> generated rs = [].
Proof.
  unfold generated. induction 1 as [|r rs H9 _ IH]; [done|].
  simpl. rewrite H9, andb_false_r. done.
Qed.

(** On the sorted list the [break] drops exactly the registers of
    bloco 9. *)
Lemma reached_generated rs : rank_sorted rs -> reached rs = generated rs.
Proof.
  induction rs as [|r rs IH]; [done|]. intros Hs.
  pose proof Hs as Hs'. apply rank_sorted_cons in Hs' as [_ Hs'].
  destruct (is_block_marker r) eqn:Hm.
  { rewrite reached_marker by done. unfold generated. simpl. rewrite Hm.
    by apply IH. }
  destruct (is_bloco9 r) eqn:H9.
  - rewrite reached_stop by done.
    unfold generated. simpl. rewrite Hm, H9. simpl.
    symmetry. apply generated_all_bloco9. by eapply bloco9_then_all.
  - rewrite reached_next by done. unfold generated. simpl.
    rewrite Hm, H9. simpl. f_equal. by apply IH.
Qed.

Lemma before_bloco9_generated rs :
  rank_sorted rs ->
  List.filter (fun r => negb (is_block_marker r)) (before_bloco9 rs) =
  generated rs.
Proof.
  induction rs as [|r rs IH]; [done|]. intros Hs.
  pose proof Hs as Hs'. apply rank_sorted_cons in Hs' as [_ Hs'].
  unfold before_bloco9, generated. simpl.
  destruct (is_bloco9 r) eqn:H9; simpl.
  - rewrite andb_false_r. symmetry.
    apply generated_all_bloco9. by eapply bloco9_then_all.
  - rewrite andb_true_r. destruct (is_block_marker r); simpl.
    + by apply IH.
    + f_equal. by apply IH.
Qed.

Lemma security_rows_lines mod_ lc :
  security_rows mod_ lc =
  csv_line (access_user mod_ lc) ++ csv_line (access_manager mod_ lc).
Proof.
  unfold security_rows, csv_line, access_user, access_manager, perm.
  cbn [row_id row_name row_model row_group perm_read perm_write
       perm_create perm_unlink].
  rewrite !sapp_assoc. reflexivity.
Qed.

Lemma security_text_rows mod_ rs :
  security_text mod_ rs = csv_text (access_rows mod_ rs).
Proof.
  induction rs as [|r rs IH]; [done|].
  cbn [security_text access_rows flat_map app csv_text].
  fold (access_rows mod_ rs).
  by rewrite security_rows_lines, IH, sapp_assoc.
Qed.

Lemma render_items_app mod_ (xs ys : list view_item) :
  render_items mod_ (xs ++ ys) = render_items mod_ xs ++ render_items mod_ ys.
Proof.
  induction xs as [|x xs IH]; [done|].
  simpl. by rewrite IH, sapp_assoc.
Qed.

(** On the sorted list the bloco changes exactly at the first register of
    each bloco. *)
Lemma register_views_items mod_ rs : forall seen_rs,
  rank_sorted (seen_rs ++ rs) ->
  register_views mod_ (bloco_of <$> last seen_rs) rs =
  render_items mod_ (register_items (bloco_of <$> seen_rs) rs).
Proof.
  induction rs as [|r rs IH]; intros seen_rs Hs; [done|].
  assert (Hseen : bloco_of r ∈ bloco_of <$> seen_rs <->
                  Some (bloco_of r) = bloco_of <$> last seen_rs).
  { split.
    - intros Hin. apply list_elem_of_fmap in Hin as (r0 & Hb & Hr0).
      destruct seen_rs as [|x seen'] using rev_ind.
      { by apply not_elem_of_nil in Hr0. }
      clear IHseen'. rewrite last_snoc. simpl. f_equal.
      apply rank_bloco.
      unfold rank_sorted in Hs. rewrite <- app_assoc, !fmap_app in Hs.
      apply StronglySorted_app in Hs as (Hcross & _ & Hs2).
      simpl in Hs2. apply StronglySorted_cons in Hs2 as [Hx _].
      apply Forall_cons in Hx as [Hxr _].
      assert (Hr0x : (bloco_rank r0 <= bloco_rank x)%N).
      { apply elem_of_app in Hr0 as [Hr0|Hr0].
        - apply Hcross; [by apply list_elem_of_fmap_2|].
          simpl. apply list_elem_of_here.
        - apply list_elem_of_singleton in Hr0 as ->. lia. }
      apply bloco_rank_of in Hb. lia.
    - intros Hl. destruct (last seen_rs) as [rl|] eqn:Hlast; [|done].
      simpl in Hl. injection Hl as ->.
      apply list_elem_of_fmap_2. apply last_Some in Hlast as [l' ->].
      apply elem_of_app. right. apply list_elem_of_here. }
  cbn [register_views register_items].
  specialize (IH (seen_rs ++ [r])%list).
  rewrite last_snoc, fmap_app, <- app_assoc in IH. simpl in IH.
  rewrite IH by done. rewrite !render_items_app.
  destruct (decide (bloco_of r ∈ bloco_of <$> seen_rs)) as [Hin|Hin].
  - rewrite bool_decide_eq_true_2 by (by apply Hseen).
    destruct (reg_level r =? 2); simpl; by rewrite ?sapp_assoc, ?sapp_nil_r.
  - rewrite bool_decide_eq_false_2 by (by rewrite <- Hseen).
    destruct (reg_level r =? 2); simpl; by rewrite ?sapp_assoc, ?sapp_nil_r.
Qed.

(** What the register loop of a module leaves in the three outputs. *)
Lemma generate_registers_spec mod_ year g :
  generate_registers mod_ year = Ok g ->
  exists regs, module_registers mod_ year = Ok regs /\
    rank_sorted regs /\
    g_security g =
      security_header ++ csv_text (access_rows mod_ (generated regs)) /\
    cls_qname <$> g_classes g = class_qname <$> generated regs /\
    g_views g =
      views_prolog ++ render_items mod_ (module_items (generated regs)).
Proof.
  unfold generate_registers.
  destruct (module_registers mod_ year) as [regs|e] eqn:Hregs; [|done].
  simpl. intros Hrun. exists regs. split; [done|].
  destruct (module_registers_spec _ _ _ Hregs) as [Hs _].
  split; [done|].
  destruct (run_registers_spec mod_ (get_version mod_ year) regs
              (length regs) 0
              (initial_gen mod_ regs (get_fields mod_ year)) g)
    as (Hsec & Hcls & Hviews); [done|done|done|].
  simpl in Hsec, Hcls, Hviews. rewrite drop_0 in *.
  rewrite reached_generated in * by done.
  split; [by rewrite Hsec, security_text_rows|]. split; [done|].
  rewrite Hviews.
  pose proof (register_views_items mod_ (generated regs) []) as Hitems.
  cbn [last fmap option_fmap option_map list_fmap app] in Hitems.
  rewrite Hitems by (by apply rank_sorted_filter).
  unfold module_items. cbn [app render_items render_item fmap list_fmap].
  by rewrite !sapp_assoc.
Qed.

(** The files of a module hold the outputs of its register loop. *)
Lemma generate_module_files year act mod_ act' files :
  generate_module year act mod_ = Ok (act', files) ->
  exists g, generate_registers mod_ year = Ok g /\
    (security_file files).2 = g_security g /\
    (views_file files).2 = g_views g ++ lit "^</odoo>".
Proof.
  unfold generate_module.
  destruct (generate_registers mod_ year) as [g|e]; [|done].
  simpl. unfold finish_module.
  destruct (get_structure mod_ (g_registers g)) as [[rs st]|e]; [|done].
  simpl. destruct (render_classes _ _) as [rendered|e]; [|done].
  simpl. destruct (format_sources _ _) as [src conc].
  intros [= <- <-]. exists g. done.
Qed.

Lemma bloco_menus_items rs : forall seen,
  NoDup (bloco_menus (register_items seen rs)) /\
  forall b, b ∈ bloco_menus (register_items seen rs) <->
            b ∈ bloco_of <$> rs /\ b ∉ seen.
Proof.
  unfold bloco_menus.
  induction rs as [|r rs IH]; intros seen.
  { split; [constructor|]. intros b. split.
    - intros Hb. by apply not_elem_of_nil in Hb.
    - intros [Hb _]. by apply not_elem_of_nil in Hb. }
  destruct (IH (seen ++ [bloco_of r])%list) as [Hnd Hin].
  cbn [register_items]. rewrite !omap_app.
  assert (Hmid : omap (fun it => match it with
                                 | BlocoMenu b => Some b
                                 | _ => None
                                 end)
                   (if reg_level r =? 2
                    then [RegisterAction r; RegisterMenu r] else []) = []).
  { by destruct (reg_level r =? 2). }
  rewrite Hmid, app_nil_l. rewrite fmap_cons.
  destruct (decide (bloco_of r ∈ seen)) as [Hseen|Hseen].
  - rewrite app_nil_l. split; [done|]. intros b. rewrite Hin.
    rewrite elem_of_cons, not_elem_of_app, list_elem_of_singleton.
    split; [tauto|]. intros [[->|Hb] Hs]; [done|].
    split; [done|]. split; [done|]. by intros ->.
  - cbn [omap list_omap app]. split.
    + constructor; [|done]. rewrite Hin.
      rewrite not_elem_of_app, list_elem_of_singleton. tauto.
    + intros b. rewrite !elem_of_cons, Hin.
      rewrite not_elem_of_app, list_elem_of_singleton.
      split; [intros [->|?]; tauto|].
      intros [[->|Hb] Hs]; [by left|].
      destruct (decide (b = bloco_of r)) as [->|Hne]; [by left|right; tauto].
Qed.

Lemma register_actions_items rs : forall seen,
  register_actions (register_items seen rs) =
    List.filter (fun r => reg_level r =? 2) rs /\
  register_menus (register_items seen rs) =
    List.filter (fun r => reg_level r =? 2) rs.
Proof.
  unfold register_actions, register_menus.
  induction rs as [|r rs IH]; intros seen; [done|].
  destruct (IH (seen ++ [bloco_of r])%list) as [IH1 IH2].
  cbn [register_items List.filter]. rewrite !omap_app, IH1, IH2.
  destruct (decide (bloco_of r ∈ seen)), (reg_level r =? 2); done.
Qed.

Lemma security_header_columns : security_header = csv_header.
Proof. reflexivity. Qed.

Lemma sapp_cons x (a b : string) : String x a ++ b = String x (a ++ b).
Proof. reflexivity. Qed.

Lemma quoted_app (v rest : string) :
  quoted v ++ rest = String dq (v ++ String dq rest).
Proof. unfold quoted. by rewrite sapp_cons, sapp_assoc. Qed.

(** The text appended for an item is the XML element it stands for. *)
Lemma render_item_xml mod_ it : render_item mod_ it = xml_item mod_ it.
Proof.
  destruct it; unfold render_item, xml_item, root_menuitem, declaration_action,
    declaration_menuitem, bloco_menuitem, register_action, register_menuitem,
    xml_menuitem, xml_act_window, xml_field;
    cbn [xml_attrs]; repeat (progress rewrite ?sapp_assoc, ?quoted_app);
    reflexivity.
Qed.

Lemma render_items_xml mod_ items :
  render_items mod_ items = String.concat "" (xml_item mod_ <$> items).
Proof.
  induction items as [|it items IH]; [done|].
  rewrite fmap_cons. cbn [render_items]. rewrite IH, render_item_xml.
  destruct items as [|it' items]; [|done]. simpl. apply sapp_nil_r.
Qed.

Lemma views_text_document mod_ items :
  (views_prolog ++ render_items mod_ items) ++ lit "^</odoo>" =
  xml_document mod_ items.
Proof.
  unfold xml_document, views_prolog. cbn [xml_attrs].
  rewrite render_items_xml.
  repeat (progress rewrite ?sapp_assoc, ?quoted_app). reflexivity.
Qed.

(** C5: the access-control file of a module is the header row, the
    eight column names between double quotes, followed, in the order of
    the registers, by two rows for each register a model is generated
    for: the user row with read permission only and the manager row with
    all four, both for the model of the register.  The registers are
    those of the module that survive the filter, sorted. *)
Theorem security_csv_rows year act mod_ act' files :
  generate_module year act mod_ = Ok (act', files) ->
  exists regs, module_registers mod_ year = Ok regs /\
    rank_sorted regs /\
    (reg_key <$> regs ≡ₚ
       reg_key <$> List.filter (survives mod_) (get_registers mod_ year)) /\
    (security_file files).2 =
      csv_header ++ csv_text (access_rows mod_ (generated regs)).
Proof.
  intros Hgen.
  destruct (generate_module_files _ _ _ _ _ Hgen) as (g & Hg & Hsec & _).
  destruct (generate_registers_spec _ _ _ Hg) as (regs & Hregs & Hs & Htext & _).
  destruct (module_registers_spec _ _ _ Hregs) as [_ Hperm].
  exists regs. split; [done|]. split; [done|]. split; [done|].
  by rewrite Hsec, Htext, security_header_columns.
Qed.

(** C6: the views file of a module is the XML declaration and the odoo
    element holding, in this order, the root menu of the module, the
    act_window record of the declaration, whose res_model is
    l10n_br_sped.{module}.0000, and its menu, then for the registers a
    model is generated for, in order, one bloco menu for each leading
    character, at its first register, and one act_window record and one
    menu for each register of level 2 and for no other.  The registers
    are those of the module that survive the filter, sorted. *)
Theorem views_xml_items year act mod_ act' files :
  generate_module year act mod_ = Ok (act', files) ->
  exists regs, module_registers mod_ year = Ok regs /\
    (reg_key <$> regs ≡ₚ
       reg_key <$> List.filter (survives mod_) (get_registers mod_ year)) /\
    (views_file files).2 =
      xml_document mod_
        ([RootMenu; DeclarationAction; DeclarationMenu]
         ++ register_items [] (generated regs)) /\
    NoDup (bloco_menus (register_items [] (generated regs))) /\
    (forall b, b ∈ bloco_menus (register_items [] (generated regs)) <->
               b ∈ bloco_of <$> generated regs) /\
    register_actions (register_items [] (generated regs)) =
      List.filter (fun r => reg_level r =? 2) (generated regs) /\
    register_menus (register_items [] (generated regs)) =
      List.filter (fun r => reg_level r =? 2) (generated regs).
Proof.
  intros Hgen.
  destruct (generate_module_files _ _ _ _ _ Hgen) as (g & Hg & _ & Hv).
  destruct (generate_registers_spec _ _ _ Hg)
    as (regs & Hregs & _ & _ & _ & Hviews).
  destruct (module_registers_spec _ _ _ Hregs) as [_ Hperm].
  exists regs. split; [done|]. split; [done|].
  split; [by rewrite Hv, Hviews, views_text_document|].
  destruct (bloco_menus_items (generated regs) []) as [Hnd Hin].
  destruct (register_actions_items (generated regs) []) as [Ha Hm].
  repeat split; try done.
  - intros Hb. by apply Hin in Hb as [Hb _].
  - intros Hb. apply Hin. split; [done|]. apply not_elem_of_nil.
Qed.

Lemma sorted_lookup_le regs (i j : nat) ri rj :
  rank_sorted regs -> regs !! i = Some ri -> regs !! j = Some rj ->
  (i < j)%nat -> (bloco_rank ri <= bloco_rank rj)%N.
Proof.
  intros Hs Hi Hj Hij. unfold rank_sorted in Hs.
  rewrite <- (take_drop j regs), fmap_app in Hs.
  eapply StronglySorted_app_1_elem_of; [exact Hs| |].
  - apply list_elem_of_fmap_2, list_elem_of_lookup. exists i.
    rewrite lookup_take_lt by done. done.
  - apply list_elem_of_fmap_2, list_elem_of_lookup. exists 0%nat.
    rewrite lookup_drop, Nat.add_0_r. done.
Qed.

Lemma filter_permutation {A} (p : A -> bool) (l1 l2 : list A) :
  l1 ≡ₚ l2 -> List.filter p l1 ≡ₚ List.filter p l2.
Proof.
  induction 1 as [|x l1 l2 _ IH|x y l|l1 l2 l3 _ IH1 _ IH2]; simpl.
  - done.
  - destruct (p x); [by constructor|done].
  - destruct (p x), (p y); try done. apply perm_swap.
  - by etrans.
Qed.

Lemma key_filter_fmap {B} (p : register -> bool) (q : register -> B) :
  (forall r r', reg_key r = reg_key r' -> p r = p r' /\ q r = q r') ->
  forall l1 l2, reg_key <$> l1 = reg_key <$> l2 ->
  q <$> List.filter p l1 = q <$> List.filter p l2.
Proof.
  intros Hkey. induction l1 as [|r l1 IH]; intros [|r' l2] Hl; try done.
  rewrite !fmap_cons in Hl.
  pose proof (f_equal (List.hd (reg_key r)) Hl) as Hr.
  pose proof (f_equal (@List.tl _) Hl) as Hl'. cbn [List.hd List.tl] in Hr, Hl'.
  clear Hl. destruct (Hkey r r' Hr) as [Hp Hq]. simpl. rewrite Hp.
  destruct (p r'); simpl; [rewrite Hq; f_equal|]; by apply IH.
Qed.

(** What depends on the code, the level, the card and the description
    only is the same, up to the order, on two lists that hold the same
    registers. *)
Lemma key_permutation_filter {B} (p : register -> bool) (q : register -> B)
    l1 l2 :
  (forall r r', reg_key r = reg_key r' -> p r = p r' /\ q r = q r') ->
  reg_key <$> l1 ≡ₚ reg_key <$> l2 ->
  q <$> List.filter p l1 ≡ₚ q <$> List.filter p l2.
Proof.
  intros Hkey Hperm.
  apply Permutation_map_inv in Hperm as (l3 & Hl3 & Hperm).
  rewrite (key_filter_fmap p q Hkey l1 l3 Hl3).
  apply fmap_Permutation, filter_permutation. by symmetry.
Qed.

Lemma filter_filter_and {A} (p q : A -> bool) (l : list A) :
  List.filter q (List.filter p l) = List.filter (fun x => p x && q x) l.
Proof.
  induction l as [|x l IH]; [done|]. simpl.
  destruct (p x); simpl; [destruct (q x)|]; by rewrite ?IH.
Qed.

(** C8: the key puts 0 before a code of bloco 0, 2 before bloco 1, 3
    before bloco 9 and 1 before any other; the sorted list holds the
    registers of the module that survive the filter, and in it nothing
    but bloco 9 comes after a register of bloco 9; and the classes
    generated are the ones of the registers that are no block markers,
    bloco 9 taken out and nothing else: up to the order, the classes of
    the registers of the module that survive the filter, are no block
    markers and are not of bloco 9. *)
Theorem bloco9_sorted_last mod_ year regs :
  module_registers mod_ year = Ok regs ->
  (forall b rest,
     _get_alphanum_sequence (String b rest) =
     Ok (String (prefix_char b) (String b rest))) /\
  (reg_key <$> regs ≡ₚ
     reg_key <$> List.filter (survives mod_) (get_registers mod_ year)) /\
  (forall (i j : nat) ri rj,
     regs !! i = Some ri -> regs !! j = Some rj -> (i < j)%nat ->
     is_bloco9 ri = true -> is_bloco9 rj = true) /\
  (forall g, generate_registers mod_ year = Ok g ->
     cls_qname <$> g_classes g =
     class_qname <$>
       List.filter (fun r => negb (is_bloco9 r))
         (List.filter (fun r => negb (is_block_marker r)) regs) /\
     cls_qname <$> g_classes g ≡ₚ
     class_qname <$>
       List.filter (fun r => negb (is_bloco9 r))
         (List.filter (fun r => negb (is_block_marker r))
            (List.filter (survives mod_) (get_registers mod_ year)))).
Proof.
  intros Hregs. destruct (module_registers_spec _ _ _ Hregs) as [Hs Hperm].
  split; [|split; [done|split]].
  - intros b rest.
    pose proof (alphanum_key_cons (mk_register (String b rest) 0 "" "")
                  b rest eq_refl) as Hk.
    unfold alphanum_key in Hk. simpl reg_code in Hk.
    destruct (_get_alphanum_sequence (String b rest)) as [k|e];
      [by rewrite Hk|discriminate Hk].
  - intros i j ri rj Hi Hj Hij H9.
    pose proof (sorted_lookup_le _ _ _ _ _ Hs Hi Hj Hij) as Hle.
    apply bloco9_rank. apply bloco9_rank in H9. lia.
  - intros g Hg.
    destruct (generate_registers_spec _ _ _ Hg)
      as (regs' & Hregs' & _ & _ & Hcls & _).
    rewrite Hregs in Hregs'. injection Hregs' as <-.
    assert (Hgen : generated regs =
              List.filter (fun r => negb (is_bloco9 r))
                (List.filter (fun r => negb (is_block_marker r)) regs)).
    { by rewrite filter_filter_and. }
    rewrite Hcls, Hgen. split; [done|].
    rewrite !(filter_filter_and (fun r => negb (is_block_marker r))).
    apply key_permutation_filter; [|done].
    intros r r'. unfold reg_key, is_block_marker, is_bloco9, bloco_of,
      class_qname. by intros [= -> -> _ _].
Qed.

(** On levels that are not negative, being no block marker is having a
    level above 1 or the code 0000. *)
Lemma unmarked_level r :
  0 <= reg_level r ->
  negb (is_block_marker r) =
  (1 <? reg_level r) || String.eqb (reg_code r) "0000".
Proof.
  intros Hl. unfold is_block_marker.
  destruct (String.eqb (reg_code r) "0000");
    [by rewrite andb_false_r, orb_true_r|].
  rewrite andb_true_r, orb_false_r.
  destruct (Z.eqb_spec (reg_level r) 0), (Z.eqb_spec (reg_level r) 1),
    (Z.ltb_spec 1 (reg_level r)); simpl; try done; lia.
Qed.

Lemma filter_ext_Forall {A} (p q : A -> bool) (l : list A) :
  Forall (fun x => p x = q x) l -> List.filter p l = List.filter q l.
Proof.
  induction 1 as [|x l Hx _ IH]; [done|]. simpl. by rewrite Hx, IH.
Qed.

Lemma take_while_Forall {A} (P : A -> Prop) (p : A -> bool) (l : list A) :
  Forall P l -> Forall P (Py.take_while p l).
Proof.
  induction 1 as [|x l Hx _ IH]; [constructor|]. simpl.
  destruct (p x); by constructor.
Qed.

(** C9: the levels of the registers are depths, none below 0; among the
    registers that survive the filter and come before the first register
    of bloco 9, a class and its two access rows are emitted for a
    register if and only if its level is greater than 1 or its code is
    0000. *)
Theorem classes_for_unmarked mod_ year :
  Forall (fun r => 0 <= reg_level r) (get_registers mod_ year) ->
  emits_exactly
    (fun r => (1 <? reg_level r) || String.eqb (reg_code r) "0000")
    mod_ year.
Proof.
  intros Hlevels g Hg.
  destruct (generate_registers_spec _ _ _ Hg)
    as (regs & Hregs & Hs & Hsec & Hcls & _).
  destruct (module_registers_spec _ _ _ Hregs) as [_ Hperm].
  exists regs. split; [done|]. split; [done|].
  assert (Hregs_levels : Forall (fun r => 0 <= reg_level r) regs).
  { apply Forall_forall. intros r Hr.
    assert (Hin : reg_key r ∈ reg_key <$> regs)
      by (by apply list_elem_of_fmap_2).
    rewrite Hperm in Hin. apply list_elem_of_fmap in Hin as (r' & Hk & Hr').
    apply list_elem_of_In, List.filter_In in Hr' as [Hr' _].
    apply list_elem_of_In in Hr'. rewrite Forall_forall in Hlevels.
    specialize (Hlevels r' Hr'). unfold reg_key in Hk.
    injection Hk as _ Hl _ _. by rewrite Hl. }
  assert (Hsame :
    List.filter
      (fun r => (1 <? reg_level r) || String.eqb (reg_code r) "0000")
      (before_bloco9 regs) = generated regs).
  { rewrite <- (before_bloco9_generated regs Hs). symmetry.
    apply filter_ext_Forall.
    eapply Forall_impl; [by apply take_while_Forall|].
    intros r Hr. by apply unmarked_level. }
  rewrite Hsame. by rewrite Hsec, Hcls.
Qed.

End Artefacts.

Lemma sample_module_run_ok :
  generate_module (H := sample_external) 2023 [] "efd_icms_ipi" =
  Ok (sample_module_run.1, sample_module_run.2).
Proof. vm_compute. reflexivity. Qed.

Lemma security_csv_rows_witness :
  exists regs,
    module_registers (H := sample_external) "efd_icms_ipi" 2023 = Ok regs /\
    rank_sorted regs /\
    (reg_key <$> regs ≡ₚ
       reg_key <$> List.filter (survives "efd_icms_ipi")
                     (get_registers (External := sample_external)
                        "efd_icms_ipi" 2023)) /\
    (security_file sample_module_run.2).2 =
      csv_header
      ++ csv_text (access_rows (H := sample_external) "efd_icms_ipi"
                     (generated regs)).
Proof.
  apply (security_csv_rows (H := sample_external) 2023 [] "efd_icms_ipi"
           sample_module_run.1 sample_module_run.2).
  vm_compute. reflexivity.
Defined.

Lemma views_xml_items_witness :
  exists regs,
    module_registers (H := sample_external) "efd_icms_ipi" 2023 = Ok regs /\
    (reg_key <$> regs ≡ₚ
       reg_key <$> List.filter (survives "efd_icms_ipi")
                     (get_registers (External := sample_external)
                        "efd_icms_ipi" 2023)) /\
    (views_file sample_module_run.2).2 =
      xml_document (H := sample_external) "efd_icms_ipi"
        ([RootMenu; DeclarationAction; DeclarationMenu]
         ++ register_items [] (generated regs)) /\
    NoDup (bloco_menus (register_items [] (generated regs))) /\
    (forall b, b ∈ bloco_menus (register_items [] (generated regs)) <->
               b ∈ bloco_of <$> generated regs) /\
    register_actions (register_items [] (generated regs)) =
      List.filter (fun r => reg_level r =? 2) (generated regs) /\
    register_menus (register_items [] (generated regs)) =
      List.filter (fun r => reg_level r =? 2) (generated regs).
Proof.
  apply (views_xml_items (H := sample_external) 2023 [] "efd_icms_ipi"
           sample_module_run.1 sample_module_run.2).
  vm_compute. reflexivity.
Defined.

Lemma sample_registers_ok :
  module_registers (H := sample_external) "efd_icms_ipi" 2023 =
  Ok sample_sorted_registers.
Proof. vm_compute. reflexivity. Qed.

Lemma sample_gen_ok :
  generate_registers (H := sample_external) "efd_icms_ipi" 2023 =
  Ok sample_gen.
Proof. vm_compute. reflexivity. Qed.

Lemma bloco9_sorted_last_witness :
  module_registers (H := sample_external) "efd_icms_ipi" 2023 =
    Ok sample_sorted_registers /\
  cls_qname <$> g_classes sample_gen =
  class_qname <$>
    List.filter (fun r => negb (is_bloco9 r))
      (List.filter (fun r => negb (is_block_marker r))
         sample_sorted_registers) /\
  cls_qname <$> g_classes sample_gen ≡ₚ
  class_qname <$>
    List.filter (fun r => negb (is_bloco9 r))
      (List.filter (fun r => negb (is_block_marker r))
         (List.filter (survives "efd_icms_ipi")
            (get_registers (External := sample_external)
               "efd_icms_ipi" 2023))).
Proof.
  split; [exact sample_registers_ok|].
  apply (bloco9_sorted_last (H := sample_external) "efd_icms_ipi" 2023
           sample_sorted_registers sample_registers_ok).
  exact sample_gen_ok.
Defined.

Lemma classes_for_unmarked_witness :
  Forall (fun r => 0 <= reg_level r)
    (get_registers (External := sample_external) "efd_icms_ipi" 2023) /\
  exists regs,
    module_registers (H := sample_external) "efd_icms_ipi" 2023 = Ok regs /\
    cls_qname <$> g_classes sample_gen =
    class_qname <$>
      List.filter
        (fun r => (1 <? reg_level r) || String.eqb (reg_code r) "0000")
        (before_bloco9 regs).
Proof.
  assert (Hlevels : Forall (fun r => 0 <= reg_level r)
            (get_registers (External := sample_external)
               "efd_icms_ipi" 2023)).
  { apply Forall_forall. intros r Hr. vm_compute in Hr.
    repeat (apply elem_of_cons in Hr as [->|Hr]; [by vm_compute|]).
    by apply not_elem_of_nil in Hr. }
  split; [exact Hlevels|].
  destruct (classes_for_unmarked (H := sample_external) "efd_icms_ipi" 2023
              Hlevels sample_gen sample_gen_ok)
    as (regs & Hregs & _ & Hcls & _).
  exists regs. split; [exact Hregs|exact Hcls].
Defined.

(** ** The attribute types of the fields *)

Section FieldTypes.

Implicit Types (f : field) (flds : list field).

Lemma type_is_default f t :
  type_is (default_type f) t =
  String.eqb (match fld_type f with
              | Some s => if String.eqb s "" then "char" else s
              | None => "char"
              end) t.
Proof.
  unfold type_is, default_type, Py.truthy.
  destruct (fld_type f) as [s|] eqn:E; simpl.
  - destruct (String.eqb s ""); simpl; by rewrite ?E.
  - done.
Qed.

Lemma field_types_chosen f tys :
  field_types (default_type f) = Ok tys ->
  tys = [native_type (chosen_xsd_type f)].
Proof.
  unfold field_types, chosen_xsd_type, wants_integer, decimal_is_zero.
  rewrite !type_is_default.
  assert (Hc : fld_code (default_type f) = fld_code f).
  { unfold default_type. by destruct (Py.truthy (fld_type f)). }
  assert (Hd : fld_decimal (default_type f) = fld_decimal f).
  { unfold default_type. by destruct (Py.truthy (fld_type f)). }
  rewrite Hc, Hd.
  destruct (is_date_code (fld_code f)); [by intros [= <-]|].
  set (t := match fld_type f with
            | Some s => if String.eqb s "" then "char" else s
            | None => "char"
            end).
  destruct (String.eqb t "int"); [by intros [= <-]|].
  destruct (String.eqb t "float"); simpl; [|by intros [= <-]].
  unfold Py.truthy. destruct (fld_decimal f) as [d|]; simpl;
    [|by intros [= <-]].
  destruct (String.eqb d ""); simpl; [by intros [= <-]|].
  destruct (Py.int d) as [z|e]; simpl; [|done].
  destruct (z =? 0); by intros [= <-].
Qed.

(** The chain raises only at [int(field["decimal"])]: for a float field,
    not a date, whose decimal entry is no integer literal. *)
Lemma field_types_raises f e :
  field_types (default_type f) = Raise e ->
  is_date_code (fld_code f) = false /\
  type_is (default_type f) "float" = true /\
  exists d, fld_decimal f = Some d /\ d <> "" /\ Py.int d = Raise e.
Proof.
  unfold field_types, wants_integer.
  assert (Hc : fld_code (default_type f) = fld_code f).
  { unfold default_type. by destruct (Py.truthy (fld_type f)). }
  assert (Hd : fld_decimal (default_type f) = fld_decimal f).
  { unfold default_type. by destruct (Py.truthy (fld_type f)). }
  rewrite Hc, Hd.
  destruct (is_date_code (fld_code f)); [done|].
  destruct (type_is (default_type f) "int"); simpl.
  { by destruct (type_is (default_type f) "float"). }
  destruct (type_is (default_type f) "float"); simpl; [|done].
  unfold Py.truthy. destruct (fld_decimal f) as [d|]; simpl; [|done].
  destruct (String.eqb_spec d "") as [->|Hne]; simpl; [done|].
  destruct (Py.int d) as [z|e'] eqn:Hint; simpl.
  { by destruct (z =? 0). }
  intros [= ->]. repeat split; try done. by exists d.
Qed.

Lemma field_attrs_spec fields : forall flds src attrs flds' src' attrs',
  NoDup fields -> (forall j, j ∈ fields -> is_Some (flds !! j)) ->
  field_attrs fields flds src attrs = Ok (flds', src', attrs') ->
  attrs' =
  (attrs ++
   (chosen_attr <$> List.filter not_reg (omap (fun j => flds !! j) fields)))%list.
Proof.
  induction fields as [|j fields IH];
    intros flds src attrs flds' src' attrs' Hnd Hval Hrun.
  { simpl in Hrun. injection Hrun as <- <- <-. by rewrite app_nil_r. }
  apply NoDup_cons in Hnd as [Hj Hnd].
  cbn [field_attrs] in Hrun. rewrite omap_cons.
  destruct (Hval j) as [f0 Hf0]; [apply list_elem_of_here|].
  rewrite Hf0 in *. cbn [List.filter]. unfold not_reg at 1.
  destruct (String.eqb (fld_code f0) "REG"); simpl.
  { apply (IH flds src attrs flds' src'); [done| |done].
    intros k Hk. apply Hval. by apply list_elem_of_further. }
  destruct (field_types (default_type f0)) as [tys|e] eqn:Hty; [|done].
  simpl in Hrun. apply field_types_chosen in Hty as ->.
  apply IH in Hrun; [|done|].
  2:{ intros k Hk. apply lookup_lt_is_Some. rewrite length_insert.
      apply lookup_lt_is_Some, Hval. by apply list_elem_of_further. }
  rewrite Hrun, <- app_assoc. simpl. unfold chosen_attr at 2.
  do 4 f_equal. apply omap_ext_elem. intros k Hk.
  rewrite list_lookup_insert_ne; [done|]. by intros ->.
Qed.

(** The first pass, read off the list handed to it: the fields of the
    register, each with its new code. *)
Lemma unique_field_codes_final js : forall U (fields : list nat) flds,
  NoDup js -> (forall j, j ∈ js -> is_Some (flds !! j)) ->
  omap (fun j => (unique_field_codes js U fields flds).1 !! j) js =
  zip_with set_code (pass_codes U (omap (fun j => flds !! j) js))
    (omap (fun j => flds !! j) js).
Proof.
  induction js as [|j js IH]; intros U fields flds Hnd Hval; [done|].
  apply NoDup_cons in Hnd as [Hj Hnd].
  destruct (Hval j) as [f Hf]; [apply list_elem_of_here|].
  cbn [unique_field_codes]. rewrite Hf, !omap_cons, Hf.
  cbn [pass_codes].
  destruct (decide (fld_code f ∈ U)) as [HU|HU].
  - assert (Hval' : forall k, k ∈ js ->
              is_Some (alter (set_code (indexed_code f)) j flds !! k)).
    { intros k Hk. apply lookup_lt_is_Some. rewrite length_alter.
      apply lookup_lt_is_Some, Hval. by apply list_elem_of_further. }
    destruct (unique_field_codes_spec js ({[indexed_code f]} ∪ U)
                (fields ++ [j])%list
                (alter (set_code (indexed_code f)) j flds) Hnd Hval')
      as (flds' & Hrun & _ & Hkeep & _).
    specialize (IH ({[indexed_code f]} ∪ U) (fields ++ [j])%list
                  (alter (set_code (indexed_code f)) j flds) Hnd Hval').
    rewrite Hrun in IH |- *. cbn [fst] in IH |- *.
    rewrite (Hkeep j Hj), list_lookup_alter_eq, Hf. cbn [fmap option_fmap
      option_map zip_with]. f_equal.
    rewrite IH.
    assert (Hsame : omap (fun k => alter (set_code (indexed_code f)) j flds !! k)
                      js = omap (fun k => flds !! k) js).
    { apply omap_ext_elem. intros k Hk.
      rewrite list_lookup_alter_ne; [done|]. by intros ->. }
    by rewrite Hsame.
  - assert (Hval' : forall k, k ∈ js -> is_Some (flds !! k)).
    { intros k Hk. apply Hval. by apply list_elem_of_further. }
    destruct (unique_field_codes_spec js ({[fld_code f]} ∪ U)
                (fields ++ [j])%list flds Hnd Hval')
      as (flds' & Hrun & _ & Hkeep & _).
    specialize (IH ({[fld_code f]} ∪ U) (fields ++ [j])%list flds Hnd Hval').
    rewrite Hrun in IH |- *. cbn [fst] in IH |- *.
    rewrite (Hkeep j Hj), Hf. cbn [zip_with]. f_equal; [by destruct f|].
    exact IH.
Qed.

Lemma pass_codes_distinct fs : forall U,
  NoDup (fld_code <$> fs) -> (forall f, f ∈ fs -> fld_code f ∉ U) ->
  pass_codes U fs = fld_code <$> fs.
Proof.
  induction fs as [|f fs IH]; intros U Hnd HU; [done|].
  rewrite fmap_cons in Hnd. apply NoDup_cons in Hnd as [Hf Hnd].
  cbn [pass_codes]. rewrite decide_False by (apply HU, list_elem_of_here).
  rewrite fmap_cons. f_equal. apply IH; [done|].
  intros g Hg. rewrite elem_of_union, elem_of_singleton.
  intros [Heq|Hin].
  - apply Hf. rewrite <- Heq. by apply list_elem_of_fmap_2.
  - by apply (HU g); [apply list_elem_of_further|].
Qed.

(** When the codes of the register are pairwise distinct its fields keep
    their codes. *)
Lemma final_fields_distinct code flds :
  NoDup (fld_code <$> register_fields code flds) ->
  final_fields code flds = register_fields code flds.
Proof.
  intros Hnd. unfold final_fields.
  rewrite pass_codes_distinct; [|done|intros f _; apply not_elem_of_empty].
  generalize (register_fields code flds). intros fs.
  induction fs as [|f fs IH]; [done|].
  rewrite fmap_cons. cbn [zip_with]. rewrite IH. f_equal. by destruct f.
Qed.

(** The attributes of the two passes, read off the list handed to them. *)
Lemma register_field_attrs_final code flds src flds' src' attrs :
  register_field_attrs code flds src = Ok (flds', src', attrs) ->
  attrs = chosen_attr <$> List.filter not_reg (final_fields code flds).
Proof.
  unfold register_field_attrs, final_fields, dedup_register_fields.
  destruct (fields_of_register_spec code flds) as (Hnd & Hval & Hfs).
  pose proof (unique_field_codes_final (fields_of_register code flds) ∅ []
                flds Hnd Hval) as Hfinal.
  destruct (unique_field_codes_spec (fields_of_register code flds) ∅ []
              flds Hnd Hval) as (flds1 & Hrun & Hlen & _ & _).
  rewrite Hrun in Hfinal |- *. cbn [fst] in Hfinal. simpl. intros Hattrs.
  apply field_attrs_spec in Hattrs; [|done|].
  2:{ intros j Hj. apply lookup_lt_is_Some. rewrite Hlen.
      by apply lookup_lt_is_Some, Hval. }
  by rewrite Hattrs, app_nil_l, Hfinal, Hfs.
Qed.

(** C4: the attributes emitted for a register are, in order, those of
    the fields of the register in the list of fields, the ones whose code
    is REG left out; the name of each is the code of its field (followed
    by _INDEX_ and the index when an earlier field of the register bore
    the code already, and unchanged when the codes of the register are
    pairwise distinct), and its type is the XML Schema type picked in this
    order: date when the code starts with DT_, DAT_ or DATA; else integer
    when the type (char if the field has none) is int, or is float with a
    decimal entry equal to 0; else float when the type is float; else
    string. *)
Theorem field_attr_types code flds src flds' src' attrs :
  register_field_attrs code flds src = Ok (flds', src', attrs) ->
  (fun a => (attr_name a, attr_types a)) <$> attrs =
  (fun f => (fld_code f, [native_type (chosen_xsd_type f)])) <$>
    List.filter not_reg (final_fields code flds) /\
  (NoDup (fld_code <$> register_fields code flds) ->
   (fun a => (attr_name a, attr_types a)) <$> attrs =
   (fun f => (fld_code f, [native_type (chosen_xsd_type f)])) <$>
     List.filter not_reg (register_fields code flds)).
Proof.
  intros Hrun. apply register_field_attrs_final in Hrun as ->.
  assert (Hproj : forall fs : list field,
    (fun a => (attr_name a, attr_types a)) <$> (chosen_attr <$> fs) =
    (fun f => (fld_code f, [native_type (chosen_xsd_type f)])) <$> fs).
  { intros fs. rewrite <- list_fmap_compose.
    apply list_fmap_ext. intros _ f _. simpl.
    unfold chosen_attr, field_attr, default_type. simpl.
    by destruct (Py.truthy (fld_type f)). }
  split; [apply Hproj|].
  intros Hnd. rewrite Hproj. by rewrite final_fields_distinct.
Qed.

End FieldTypes.

Lemma field_attr_types_witness :
  (fun a => (attr_name a, attr_types a)) <$> sample_field_attrs.2 =
    [("ALIQ_PIS", [native_type "float"]);
     ("ALIQ_PIS_INDEX_3", [native_type "float"]);
     ("NUM_ITEM", [native_type "integer"]);
     ("DESCR", [native_type "string"])] /\
  (fun a => (attr_name a, attr_types a)) <$> sample_field_attrs.2 =
  (fun f => (fld_code f, [native_type (chosen_xsd_type f)])) <$>
    List.filter not_reg (final_fields "C170" sample_fields).
Proof.
  split; [reflexivity|].
  apply (field_attr_types "C170" sample_fields ""
           sample_field_attrs.1.1 sample_field_attrs.1.2).
  vm_compute. reflexivity.
Defined.

(** ** SpedFilters *)

Section FilterProperties.
Context `{External}.

Implicit Types (kwargs : list (string * kwarg)) (attr : Attr).

Lemma od_get_set_eq k v kwargs : od_get k (od_set k v kwargs) = Some v.
Proof.
  induction kwargs as [|[k' v'] d IH]; simpl.
  - by rewrite String.eqb_refl.
  - destruct (String.eqb k' k) eqn:E; simpl.
    + by rewrite String.eqb_refl.
    + by rewrite E.
Qed.

Lemma od_get_set_ne k k' v kwargs :
  k <> k' -> od_get k (od_set k' v kwargs) = od_get k kwargs.
Proof.
  intros Hne. induction kwargs as [|[k0 v0] d IH]; simpl.
  - apply String.eqb_neq in Hne. rewrite String.eqb_sym in Hne.
    by rewrite Hne.
  - destruct (String.eqb k0 k') eqn:E; simpl.
    + apply String.eqb_eq in E as ->.
      assert (E1 : String.eqb k' k = false).
      { apply String.eqb_neq. congruence. }
      by rewrite !E1.
    + by rewrite IH.
Qed.

(** C3, amended: for an attribute whose first type has the datatype code
    float, decimal or integer.  With an xsd_type that starts with TDec_
    and has an integer literal at positions 7-8: when that integer is 2
    and the name starts with VL_, VAL_ or VALOR the kwargs gain the
    currency field brl_currency_id; in every other case, if positions 5-6
    hold an integer literal too, they gain digits, the pair of the two
    integers, and no currency field.  With an xsd_type that does not
    start with TDec_, or none, the currency field is set exactly when the
    name starts with one of the three prefixes. *)
Theorem number_attrs_cases attr kwargs python_type xsd_type :
  python_type_of attr = Ok python_type ->
  is_number_type python_type = true ->
  xsd_type_of kwargs = Ok xsd_type ->
  (Py.startswith xsd_type "TDec_" = true ->
   forall scale, Py.int (Py.slice xsd_type (Some 7) (Some 9)) = Ok scale ->
     (scale = 2 -> is_value_name (attr_name attr) = true ->
      _extract_number_attrs attr kwargs =
      Ok (od_set "currency_field" currency_kwarg kwargs)) /\
     (~ (scale = 2 /\ is_value_name (attr_name attr) = true) ->
      forall precision,
        Py.int (Py.slice xsd_type (Some 5) (Some 7)) = Ok precision ->
        _extract_number_attrs attr kwargs =
          Ok (od_set "digits" (KDigits precision scale) kwargs) /\
        od_get "currency_field"
          (od_set "digits" (KDigits precision scale) kwargs) =
        od_get "currency_field" kwargs)) /\
  (Py.startswith xsd_type "TDec_" = false ->
   _extract_number_attrs attr kwargs =
   Ok (if is_value_name (attr_name attr)
       then od_set "currency_field" currency_kwarg kwargs
       else kwargs)).
Proof.
  intros Hty Hnum Hxsd. unfold _extract_number_attrs.
  rewrite Hty. simpl. rewrite Hnum, Hxsd. simpl. split.
  - intros Hpre scale Hscale. rewrite Hpre, Hscale. simpl.
    unfold is_value_name. split.
    + intros -> Hname. simpl.
      destruct (Py.startswith (attr_name attr) "VL_"),
        (Py.startswith (attr_name attr) "VAL_"),
        (Py.startswith (attr_name attr) "VALOR"); done.
    + intros Hnot precision Hprec.
      split; [|by apply od_get_set_ne].
      destruct (Z.eqb_spec scale 2) as [->|Hne]; simpl.
      * destruct (Py.startswith (attr_name attr) "VL_"),
          (Py.startswith (attr_name attr) "VAL_"),
          (Py.startswith (attr_name attr) "VALOR"); simpl;
          try (exfalso; apply Hnot; by split);
          by rewrite Hprec.
      * by rewrite Hprec.
  - intros Hpre. rewrite Hpre. by destruct (is_value_name (attr_name attr)).
Qed.

Lemma replace_zero (s : string) : Py.replace s "0" "" = without_char "0" s.
Proof.
  unfold Py.replace. induction s as [|c s IH]; [done|].
  cbn [Py.replace_from without_char String.prefix String.length].
  destruct (ascii_dec "0" c) as [<-|Hne].
  - rewrite Ascii.eqb_refl. change (1 - 1)%nat with 0%nat.
    rewrite IH. by destruct s.
  - assert (E : Ascii.eqb c "0" = false).
    { apply Ascii.eqb_neq. congruence. }
    by rewrite E, IH.
Qed.

Lemma simple_kwargs_length field attr kwargs kwargs' length :
  simple_kwargs field attr kwargs = Ok kwargs' ->
  fld_length field = Some length -> length <> "" ->
  od_get "sped_length" kwargs' = Some (KStr (without_char "0" length)).
Proof.
  unfold simple_kwargs. intros Hrun Hlen Hne.
  rewrite Hlen in Hrun. simpl in Hrun.
  apply String.eqb_neq in Hne. rewrite Hne in Hrun. simpl in Hrun.
  rewrite replace_zero in Hrun.
  match type of Hrun with
  | context [od_set "sped_length" ?v ?d] =>
      assert (Hget : od_get "sped_length" (od_set "sped_length" v d) = Some v)
        by apply od_get_set_eq;
      revert Hrun Hget; generalize (od_set "sped_length" v d)
  end.
  intros d Hrun Hget.
  destruct (attr_types attr) as [|t ts]; [by injection Hrun as <-|].
  destruct (datatype_code t) as [code|]; [|done].
  destruct (String.eqb code "float" && Py.truthy (fld_decimal field));
    [|by injection Hrun as <-].
  destruct (Py.int _) as [digits|e]; [|done]. simpl in Hrun.
  injection Hrun as <-. by rewrite od_get_set_ne.
Qed.

(** C10: when [_extract_field_attributes] takes the branch of the simple
    types for a field whose length entry is not empty, the kwargs it
    returns hold, as sped_length, the length text with every 0 taken
    out. *)
Theorem sped_length_without_zeros self parents unique_labels attr obj field
    length kwargs labels :
  _extract_field_attributes self parents unique_labels attr =
    Ok (kwargs, labels) ->
  last parents = Some obj ->
  is_parent_link (attr_name attr) = false ->
  is_children_link (attr_name attr) = false ->
  field_of_attr (flt_fields self) obj attr = Some field ->
  fld_length field = Some length -> length <> "" ->
  od_get "sped_length" kwargs = Some (KStr (without_char "0" length)).
Proof.
  unfold _extract_field_attributes.
  intros Hrun Hobj Hparent Hchildren Hfield Hlen Hne.
  rewrite Hobj, Hparent, Hchildren, Hfield in Hrun.
  destruct (extract_string_and_help _ _ _ _ _) as [[string help_attr] ls].
  destruct (if Py.endswith string "_ids" then _ else _) as [string'|e];
    [|done].
  simpl in Hrun.
  destruct (simple_kwargs field attr _) as [kw|e] eqn:Hsimple; [|done].
  simpl in Hrun. injection Hrun as <- <-.
  apply (simple_kwargs_length _ _ _ _ length) in Hsimple; [|done|done].
  destruct (String.eqb help_attr ""); [done|].
  by rewrite od_get_set_ne.
Qed.

End FilterProperties.

Lemma number_attrs_cases_witness :
  _extract_number_attrs (H := sample_external) (float_attr "VL_DOC")
    [("xsd_type", KStr "TDec_1302")] =
  Ok (od_set "currency_field" currency_kwarg [("xsd_type", KStr "TDec_1302")]).
Proof.
  destruct (number_attrs_cases (H := sample_external) (float_attr "VL_DOC")
              [("xsd_type", KStr "TDec_1302")] "float" "TDec_1302"
              eq_refl eq_refl eq_refl) as [Htdec _].
  destruct (Htdec eq_refl 2 eq_refl) as [Hcurrency _].
  exact (Hcurrency eq_refl eq_refl).
Defined.

(** C3 as stated fails when the characters at positions 7-8 are no
    integer literal: [int] raises and the kwargs gain nothing. *)
Lemma number_attrs_not_a_literal :
  ~ number_attrs_as_stated (H := sample_external) (float_attr "VL_DOC")
      [("xsd_type", KStr "TDec_160-5")].
Proof.
  intros Hclaim.
  destruct (Hclaim "float" "TDec_160-5") as [_ Hdigits]; try reflexivity.
  destruct Hdigits as (precision & scale & _ & Hscale & _).
  - intros [Hscale _]. vm_compute in Hscale. discriminate.
  - vm_compute in Hscale. discriminate.
Qed.

(** The xsd_type of that example is one [_extract_field_attributes]
    builds itself, for a float field whose decimal entry is -5. *)
Example negative_decimal_xsd_type :
  simple_kwargs (H := sample_external)
    (mk_field "C170" "VL_DOC" 3 "Valor" (Some "float") None (Some "-5"))
    (float_attr "VL_DOC") [] =
  Ok [("xsd_type", KStr "TDec_160-5")].
Proof. reflexivity. Qed.

Lemma sped_length_without_zeros_witness :
  od_get "sped_length" padded_kwargs.1 = Some (KStr "1") /\
  od_get "sped_length" padded_kwargs.1 =
    Some (KStr (without_char "0" "100")).
Proof.
  split; [reflexivity|].
  apply (sped_length_without_zeros (H := sample_external) padded_filters
           [sample_class] None (float_attr "COD") sample_class
           padded_field "100" padded_kwargs.1 padded_kwargs.2);
    try reflexivity.
  discriminate.
Defined.

Example sped_length_drops_inner_zero :
  simple_kwargs (H := sample_external)
    (mk_field "C170" "COD" 2 "Codigo" (Some "char") (Some "100") None)
    (float_attr "COD") [] =
  Ok [("sped_length", KStr "1")].
Proof. reflexivity. Qed.

(** ** Runs that end without an exception *)

Section Totality.
Context `{External}.

Implicit Types (g : gen) (regs : list register) (flds : list field).

Lemma map_result_ok {A B} (f : A -> result B) (l : list A) :
  Forall (fun x => exists y, f x = Ok y) l -> exists ys, map_result f l = Ok ys.
Proof.
  induction 1 as [|x l [y Hy] _ [ys IH]]; [by exists []|].
  exists (y :: ys). simpl. by rewrite Hy, IH.
Qed.

Lemma has_code_first_char r :
  has_code r -> exists c, Py.first_char (reg_code r) = Ok c.
Proof.
  unfold has_code, Py.first_char. destruct (reg_code r); [done|]. eauto.
Qed.

Lemma sorted_registers_ok mod_ raw :
  Forall has_code raw -> exists regs, sorted_registers mod_ raw = Ok regs.
Proof.
  intros Hraw. unfold sorted_registers, filter_registers.
  destruct (map_result_ok
              (fun x => b ← keep_register mod_ x; Ok (b, x)) raw)
    as [keeps Hkeeps].
  { eapply Forall_impl; [exact Hraw|]. intros r Hr. simpl.
    unfold keep_register. destruct (has_code_first_char r Hr) as [c ->].
    simpl. eauto. }
  pose proof Hkeeps as Hf.
  assert (Hkept : filter_registers mod_ raw =
                  Ok (snd <$> List.filter fst keeps)).
  { unfold filter_registers. by rewrite Hkeeps. }
  apply filter_registers_spec in Hkept.
  rewrite Hkeeps. simpl. rewrite Hkept.
  destruct (map_result_ok
              (fun x => k ← _get_alphanum_sequence (reg_code x); Ok (k, x))
              (List.filter (survives mod_) raw)) as [ks Hks].
  { apply List.Forall_forall. intros r Hr.
    apply List.filter_In in Hr as [Hr _].
    rewrite List.Forall_forall in Hraw. apply Hraw in Hr.
    unfold _get_alphanum_sequence.
    destruct (has_code_first_char r Hr) as [c ->]. simpl.
    destruct (String.eqb c "0"), (String.eqb c "1"), (String.eqb c "9");
      eauto. }
  rewrite Hks. simpl. eauto.
Qed.

Lemma module_registers_ok mod_ year :
  Forall has_code (get_registers mod_ year) ->
  exists regs, module_registers mod_ year = Ok regs /\ Forall has_code regs.
Proof.
  intros Hraw. destruct (sorted_registers_ok mod_ _ Hraw) as [sorted Hs].
  unfold module_registers. rewrite Hs. simpl. eexists. split; [done|].
  apply sorted_registers_spec in Hs as [Hp _].
  assert (Hsorted : Forall has_code sorted).
  { rewrite Hp. apply List.Forall_forall. intros r Hr.
    apply List.filter_In in Hr as [Hr _].
    rewrite List.Forall_forall in Hraw. by apply Hraw. }
  apply Forall_lookup. intros i r Hr.
  pose proof (key_lookup _ _ i (collect_register_children_key sorted)) as Hk.
  rewrite Hr in Hk. destruct (sorted !! i) as [r0|] eqn:Hr0; [|done].
  apply (inj Some) in Hk. unfold reg_key in Hk.
  injection Hk as Hc _ _ _. unfold has_code. rewrite Hc.
  by apply (Forall_lookup_1 _ _ _ _ Hsorted Hr0).
Qed.











End Totality.

(** * More properties *)

(** ** collect_register_children on any list *)

Section Frame.

Context {A : Type} (proj : register -> A).
Hypothesis proj_parent : forall p r, proj (set_parent p r) = proj r.
Hypothesis proj_o2m_parent : forall p r, proj (set_o2m_parent p r) = proj r.

Lemma proj_alter (f : register -> register) (regs : list register) k :
  (forall r, proj (f r) = proj r) ->
  proj <$> alter f k regs = proj <$> regs.
Proof.
  intros Hf. apply list_eq. intros j. rewrite !list_lookup_fmap.
  destruct (decide (k = j)) as [->|Hne].
  - rewrite list_lookup_alter_eq. destruct (regs !! j); simpl; [|done].
    by rewrite Hf.
  - by rewrite list_lookup_alter_ne.
Qed.

Lemma scan_children_frame ri c lvl js : forall b o2m m2o regs,
  proj <$> (scan_children ri c lvl js b o2m m2o regs).1.1 = proj <$> regs.
Proof.
  induction js as [|j js IH]; intros b o2m m2o regs; [done|].
  simpl. destruct (regs !! j) as [r|]; [|done].
  destruct (String.eqb (reg_code r) c); [apply IH|].
  destruct b; [|apply IH].
  destruct (reg_level r =? lvl + 1).
  - destruct (is_m2o_card r); rewrite IH, ?proj_alter; auto.
  - destruct (reg_level r <=? lvl); [done|apply IH].
Qed.

(** One round touches, beside parents, the children entries of its own
    register only. *)
Lemma collect_children_of_frame regs ri k :
  k <> ri ->
  proj <$> collect_children_of regs ri !! k = proj <$> regs !! k.
Proof.
  intros Hne. unfold collect_children_of.
  destruct (regs !! ri) as [r|]; [|done].
  destruct (1 <? reg_level r); [|done].
  pose proof (scan_children_frame ri (reg_code r) (reg_level r)
                (seq 0 (length regs)) false [] [] regs) as Hk.
  destruct (scan_children _ _ _ _ _ _ _ _) as [[regs' o2m] m2o].
  simpl in Hk. rewrite list_lookup_alter_ne by done.
  rewrite <- !list_lookup_fmap. by rewrite Hk.
Qed.

Lemma collect_children_of_low regs ri r :
  regs !! ri = Some r -> reg_level r <= 1 ->
  collect_children_of regs ri = regs.
Proof.
  intros Hr Hl. unfold collect_children_of. rewrite Hr.
  by replace (1 <? reg_level r) with false by (symmetry; apply Z.ltb_ge; lia).
Qed.

End Frame.

Lemma foldl_collect_frame {A} (proj : register -> A) :
  (forall p r, proj (set_parent p r) = proj r) ->
  (forall p r, proj (set_o2m_parent p r) = proj r) ->
  forall js st k, k ∉ js ->
  proj <$> foldl collect_children_of st js !! k = proj <$> st !! k.
Proof.
  intros Hp Ho js. induction js as [|j js IH]; intros st k Hk; [done|].
  simpl. apply not_elem_of_cons in Hk as [Hne Hk].
  rewrite IH by done. by apply collect_children_of_frame.
Qed.

Lemma foldl_collect_key js : forall st,
  reg_key <$> foldl collect_children_of st js = reg_key <$> st.
Proof.
  induction js as [|j js IH]; intros st; [done|].
  simpl. by rewrite IH, collect_children_of_key.
Qed.

Lemma foldl_collect_data js : forall st,
  reg_data <$> foldl collect_children_of st js = reg_data <$> st.
Proof.
  induction js as [|j js IH]; intros st; [done|].
  simpl. rewrite IH. unfold collect_children_of.
  destruct (st !! j) as [r|]; [|done].
  destruct (1 <? reg_level r); [|done].
  pose proof (scan_children_frame reg_data (fun _ _ => eq_refl)
                (fun _ _ => eq_refl) j (reg_code r) (reg_level r)
                (seq 0 (length st)) false [] [] st) as Hk.
  destruct (scan_children _ _ _ _ _ _ _ _) as [[regs' o2m] m2o].
  simpl in Hk. by rewrite proj_alter.
Qed.

(** X1.  Whatever the list, [collect_register_children] returns as many
    registers as it was given, in the same order, and leaves the code, the
    level, the card, the description, [spec_required] and [short_desc] of
    each one as they were: it writes the four link entries only. *)
Theorem collect_register_children_keeps_data (regs : list register) :
  length (collect_register_children regs) = length regs /\
  forall k r, regs !! k = Some r ->
    exists r', collect_register_children regs !! k = Some r' /\
      reg_code r' = reg_code r /\ reg_level r' = reg_level r /\
      reg_card r' = reg_card r /\ reg_desc r' = reg_desc r /\
      reg_spec_required r' = reg_spec_required r /\
      reg_short_desc r' = reg_short_desc r.
Proof.
  pose proof (foldl_collect_data (seq 0 (length regs)) regs) as Hd.
  fold (collect_register_children regs) in Hd.
  split.
  { apply (f_equal length) in Hd. by rewrite !length_fmap in Hd. }
  intros k r Hr.
  apply (f_equal (fun l => l !! k)) in Hd.
  rewrite !list_lookup_fmap, Hr in Hd.
  destruct (collect_register_children regs !! k) as [r'|]; [|done].
  exists r'. split; [done|].
  simpl in Hd. unfold reg_data in Hd. injection Hd as -> -> -> -> -> ->.
  done.
Qed.

(** The children the inner loop gathers sit one level below the register
    and are filed by their card. *)
Lemma scan_children_sound regs0 ri c lvl js : forall b o2m m2o st,
  reg_key <$> regs0 = reg_key <$> st ->
  Forall (fun k => level_at regs0 k = lvl + 1 /\ m2o_at regs0 k = false) o2m ->
  Forall (fun k => level_at regs0 k = lvl + 1 /\ m2o_at regs0 k = true) m2o ->
  Forall (fun k => level_at regs0 k = lvl + 1 /\ m2o_at regs0 k = false)
    (scan_children ri c lvl js b o2m m2o st).1.2 /\
  Forall (fun k => level_at regs0 k = lvl + 1 /\ m2o_at regs0 k = true)
    (scan_children ri c lvl js b o2m m2o st).2.
Proof.
  induction js as [|j js IH]; intros b o2m m2o st Hk Ho Hm; [done|].
  simpl. destruct (st !! j) as [r|] eqn:Hr; [|done].
  destruct (String.eqb (reg_code r) c); [by apply IH|].
  destruct b; [|by apply IH].
  assert (Hl : level_at regs0 j = reg_level r).
  { rewrite <- (level_at_key regs0 st) by done. unfold level_at.
    by rewrite Hr. }
  assert (Hc : m2o_at regs0 j = is_m2o_card r).
  { rewrite <- (m2o_at_key regs0 st) by done. unfold m2o_at.
    by rewrite Hr. }
  destruct (reg_level r =? lvl + 1) eqn:E.
  - apply Z.eqb_eq in E. destruct (is_m2o_card r) eqn:Em.
    + apply IH; [by rewrite key_alter|done|].
      apply Forall_app. split; [done|]. apply Forall_singleton.
      split; congruence.
    + apply IH; [by rewrite !key_alter|  |done].
      apply Forall_app. split; [done|]. apply Forall_singleton.
      split; congruence.
  - destruct (reg_level r <=? lvl); [done|by apply IH].
Qed.

(** X2.  Whatever the list, a register of level 1 or less keeps its two
    children entries as they were, and a register above level 1 gets two
    lists: every position in [children_o2m] is that of a register exactly
    one level below whose stripped card is neither 1:1 nor 1;1, and every
    position in [children_m2o] that of a register exactly one level below
    whose stripped card is one of the two. *)
Theorem collect_register_children_children_entries
    (regs : list register) (i : nat) (r : register) :
  regs !! i = Some r ->
  exists r', collect_register_children regs !! i = Some r' /\
    if 1 <? reg_level r then
      exists o2m m2o,
        reg_children_o2m r' = Some o2m /\ reg_children_m2o r' = Some m2o /\
        (forall k, In k o2m ->
           level_at regs k = reg_level r + 1 /\ m2o_at regs k = false) /\
        (forall k, In k m2o ->
           level_at regs k = reg_level r + 1 /\ m2o_at regs k = true)
    else
      reg_children_o2m r' = reg_children_o2m r /\
      reg_children_m2o r' = reg_children_m2o r.
Proof.
  intros Hr.
  assert (Hi : (i < length regs)%nat) by (by eapply lookup_lt_Some).
  unfold collect_register_children.
  replace (length regs) with (i + S (length regs - S i))%nat by lia.
  rewrite seq_app, foldl_app. change (0 + i)%nat with i. cbn [seq foldl].
  set (st := foldl collect_children_of regs (seq 0 i)).
  assert (Hk : reg_key <$> regs = reg_key <$> st).
  { unfold st. by rewrite foldl_collect_key. }
  assert (Hc : reg_children <$> st !! i = reg_children <$> regs !! i).
  { unfold st. apply (foldl_collect_frame reg_children); [done|done|].
    rewrite list_elem_of_In, in_seq. lia. }
  pose proof (foldl_collect_frame reg_children (fun _ _ => eq_refl)
                (fun _ _ => eq_refl) (seq (S i) (length regs - S i))
                (collect_children_of st i) i) as Hlater.
  rewrite list_elem_of_In, in_seq in Hlater.
  specialize (Hlater ltac:(lia)).
  destruct (foldl collect_children_of (collect_children_of st i) _ !! i)
    as [r'|].
  2:{ exfalso. pose proof (collect_children_of_key st i) as Hk1.
      apply (f_equal (fun l => l !! i)) in Hk1.
      rewrite !list_lookup_fmap, <- (key_lookup _ _ i Hk), Hr in Hk1.
      by destruct (collect_children_of st i !! i). }
  exists r'. split; [done|].
  pose proof (key_lookup _ _ i Hk) as Hki. rewrite Hr in Hki.
  rewrite Hr in Hc.
  destruct (st !! i) as [ri|] eqn:Hri; [|done].
  simpl in Hki, Hc. unfold reg_key in Hki. injection Hki as Hcode Hlevel _ _.
  unfold reg_children in Hc. injection Hc as Hco Hcm.
  unfold collect_children_of in Hlater. rewrite Hri in Hlater.
  rewrite <- Hlevel in Hlater.
  destruct (1 <? reg_level r) eqn:E.
  - pose proof (scan_children_sound regs i (reg_code ri) (reg_level ri)
                  (seq 0 (length st)) false [] [] st Hk
                  (Forall_nil_2 _) (Forall_nil_2 _)) as [Ho Hm].
    pose proof (scan_children_key i (reg_code ri) (reg_level ri)
                  (seq 0 (length st)) false [] [] st) as Hk'.
    rewrite <- Hlevel in Ho, Hm, Hk'.
    destruct (scan_children _ _ _ _ _ _ _ _) as [[regs' o2m] m2o].
    simpl in Ho, Hm, Hk'.
    rewrite list_lookup_alter_eq in Hlater.
    assert (Hsome : is_Some (regs' !! i)).
    { apply lookup_lt_is_Some.
      apply (f_equal length) in Hk', Hk. rewrite !length_fmap in Hk', Hk.
      lia. }
    destruct Hsome as [r0 Hr0]. rewrite Hr0 in Hlater.
    simpl in Hlater. unfold reg_children in Hlater. simpl in Hlater.
    injection Hlater as -> ->.
    exists o2m, m2o. split; [done|]. split; [done|].
    rewrite List.Forall_forall in Ho, Hm. by split.
  - rewrite Hri in Hlater.
    simpl in Hlater. unfold reg_children in Hlater.
    injection Hlater as -> ->. done.
Qed.

(** ** Parents, when the codes are distinct *)

Lemma parents_step regs0 m st :
  NoDup (reg_code <$> regs0) -> (m < length regs0)%nat ->
  parents_done regs0 m st ->
  parents_done regs0 (S m) (collect_children_of st m).
Proof.
  intros Hnd Hm [Hk Hinv].
  destruct (lookup_lt_is_Some_2 regs0 m Hm) as [rm Hrm].
  assert (Hlm : level_at regs0 m = reg_level rm).
  { unfold level_at. by rewrite Hrm. }
  rewrite (collect_children_of_spec regs0 st m rm) by done.
  destruct (1 <? reg_level rm) eqn:E.
  2:{ apply Z.ltb_ge in E. split; [done|]. intros k c Hc p.
      destruct (Hinv k c Hc p) as [Hp Ho]. rewrite Hp, Ho.
      split; (split; intros (Hlt & Hl & Hrest); (split; [|done]);
        destruct (decide (p = m)) as [->|]; lia). }
  apply Z.ltb_lt in E.
  set (kids := following_children regs0 m).
  split.
  { rewrite key_alter by done. by rewrite key_mark_children. }
  intros k c Hc p.
  destruct (decide (m = k)) as [<-|Hne].
  { rewrite list_lookup_alter_eq, mark_children_lookup in Hc.
    rewrite decide_False in Hc.
    2:{ rewrite list_elem_of_In. unfold kids. rewrite in_following. lia. }
    destruct (st !! m) as [c0|] eqn:Hc0; [|done].
    simpl in Hc. injection Hc as <-. simpl.
    destruct (Hinv m c0 Hc0 p) as [Hp Ho]. rewrite Hp, Ho.
    split; (split; intros (Hlt & Hl & Hrest); (split; [|done]);
      [lia|destruct (decide (p = m)) as [->|]; [|lia]]).
    - apply in_following in Hrest. lia.
    - destruct Hrest as [Hrest _]. apply in_following in Hrest. lia. }
  rewrite list_lookup_alter_ne, mark_children_lookup in Hc by done.
  destruct (decide (k ∈ kids)) as [Hin|Hnin].
  - destruct (st !! k) as [c0|] eqn:Hc0; [|done].
    simpl in Hc. injection Hc as <-.
    apply list_elem_of_In in Hin.
    destruct (Hinv k c0 Hc0 p) as [Hp Ho].
    assert (Hsame : Some m = Some p <->
              (p < S m)%nat /\ 1 < level_at regs0 p /\
              In k (following_children regs0 p)).
    { split.
      - intros [= <-]. split; [lia|]. split; [lia|done].
      - intros (_ & _ & Hin'). f_equal.
        by apply (following_unique regs0 m p k). }
    unfold link. destruct (m2o_at regs0 k) eqn:Em; simpl.
    + split; [done|]. rewrite Ho.
      split; intros (_ & _ & _ & Hf); discriminate.
    + split; [done|]. rewrite Hsame. tauto.
  - destruct (Hinv k c Hc p) as [Hp Ho]. rewrite Hp, Ho.
    rewrite list_elem_of_In in Hnin.
    split; (split; intros (Hlt & Hl & Hrest); (split; [|done]);
      [lia|destruct (decide (p = m)) as [->|]; [|lia]]).
    + done.
    + by destruct Hrest.
Qed.

Lemma parents_all regs0 m :
  NoDup (reg_code <$> regs0) -> (m <= length regs0)%nat ->
  (forall r, r ∈ regs0 -> reg_parent r = None /\ reg_o2m_parent r = None) ->
  parents_done regs0 m (foldl collect_children_of regs0 (seq 0 m)).
Proof.
  intros Hnd Hm Hnone. induction m as [|m IH].
  { split; [done|]. intros k c Hc p. simpl in Hc.
    destruct (Hnone c) as [-> ->]; [by eapply list_elem_of_lookup_2|].
    split; (split; [done|lia]). }
  rewrite seq_S, foldl_app. simpl. apply parents_step; [done|lia|].
  apply IH. lia.
Qed.

(** X3.  When the codes of the list are pairwise distinct and no register
    comes with a parent, the register at position [k] ends up with the
    parent [p] exactly when [p] is above level 1 and [k] follows [p], one
    level below it, before the next register whose level is not above
    that of [p]; it ends up with the o2m parent [p] exactly when, besides,
    its stripped card is neither 1:1 nor 1;1.  So a register directly
    under a register of level 1 or less is left without a parent. *)
Theorem collect_register_children_parents
    (regs : list register) (k : nat) (c : register) (p : nat) :
  NoDup (reg_code <$> regs) ->
  (forall r, r ∈ regs -> reg_parent r = None /\ reg_o2m_parent r = None) ->
  collect_register_children regs !! k = Some c ->
  (reg_parent c = Some p <->
     1 < level_at regs p /\ In k (following_children regs p)) /\
  (reg_o2m_parent c = Some p <->
     1 < level_at regs p /\ In k (following_children regs p) /\
     m2o_at regs k = false).
Proof.
  intros Hnd Hnone Hc.
  destruct (parents_all regs (length regs) Hnd (le_n _) Hnone) as [_ Hinv].
  destruct (Hinv k c Hc p) as [Hp Ho]. rewrite Hp, Ho.
  split; (split; [tauto|]).
  - intros [Hl Hin]. split; [|done]. apply in_following in Hin. lia.
  - intros (Hl & Hin & Hm). split; [|done]. apply in_following in Hin. lia.
Qed.

Lemma collect_register_children_parents_witness :
  (reg_parent <$> collect_register_children sample_registers !! 4%nat
     = Some (Some 3%nat)) /\
  (reg_o2m_parent <$> collect_register_children sample_registers !! 4%nat
     = Some None) /\
  (reg_parent <$> collect_register_children sample_registers !! 2%nat
     = Some None).
Proof.
  assert (Hnd : NoDup (reg_code <$> sample_registers)).
  { apply NoDup_ListNoDup. vm_compute.
    repeat (constructor; [intros Hin; cbn in Hin; intuition discriminate|]).
    constructor. }
  assert (Hnone : forall r, r ∈ sample_registers ->
            reg_parent r = None /\ reg_o2m_parent r = None).
  { intros r Hr. apply list_elem_of_In in Hr. cbn in Hr.
    repeat (destruct Hr as [<-|Hr]; [done|]). done. }
  destruct (collect_register_children sample_registers !! 4%nat) as [c|] eqn:Hc;
    [|by vm_compute in Hc].
  destruct (collect_register_children sample_registers !! 2%nat) as [c2|] eqn:Hc2;
    [|by vm_compute in Hc2].
  pose proof (collect_register_children_parents sample_registers 4 c 3
                Hnd Hnone Hc) as [Hp Ho].
  split; [|split].
  - simpl. f_equal. apply Hp. split; [by vm_compute|]. vm_compute. tauto.
  - simpl. f_equal. destruct (reg_o2m_parent c) as [q|] eqn:Eq; [|done].
    exfalso.
    pose proof (collect_register_children_parents sample_registers 4 c q
                  Hnd Hnone Hc) as [_ Ho'].
    apply Ho' in Eq. destruct Eq as (_ & _ & Hf). by vm_compute in Hf.
  - simpl. f_equal. destruct (reg_parent c2) as [q|] eqn:Eq; [|done].
    exfalso.
    pose proof (collect_register_children_parents sample_registers 2 c2 q
                  Hnd Hnone Hc2) as [Hp' _].
    apply Hp' in Eq. destruct Eq as [Hl Hin].
    apply in_following in Hin. destruct Hin as (Hlt & _).
    assert (q = 0 \/ q = 1)%nat as [->| ->] by lia; by vm_compute in Hl.
Defined.

(** ** The sort key and the sorted list *)

Lemma startswith_single c r d :
  Py.startswith (String c r) (String d "") = Ascii.eqb c d.
Proof.
  unfold Py.startswith. cbn [String.prefix].
  destruct (Ascii.ascii_dec d c) as [->|Hne].
  - rewrite Ascii.eqb_refl. by destruct r.
  - symmetry. apply Ascii.eqb_neq. congruence.
Qed.

(** X4.  [_get_alphanum_sequence] raises exactly for the empty code, and
    then an IndexError; for any other code the key is the code with one of
    the digits 0 to 3 in front; and two codes never share a key, so the
    sort never ties two registers whose codes differ. *)
Theorem alphanum_sequence_injective (a b : string) :
  (_get_alphanum_sequence a = Raise IndexError <-> a = "") /\
  (forall k, _get_alphanum_sequence a = Ok k <->
     a <> "" /\
     k = (if Py.startswith a "0" then "0"
          else if Py.startswith a "1" then "2"
          else if Py.startswith a "9" then "3" else "1") ++ a) /\
  (_get_alphanum_sequence a = _get_alphanum_sequence b <-> a = b).
Proof.
  assert (Hshape : forall s, match s with
            | "" => _get_alphanum_sequence s = Raise IndexError
            | String c r =>
                _get_alphanum_sequence s = Ok (String (prefix_char c) s)
            end).
  { intros [|c r]; [done|].
    unfold _get_alphanum_sequence, prefix_char, Py.first_char, mbind,
      result_bind. rewrite !single_eqb.
    by destruct (Ascii.eqb c "0"), (Ascii.eqb c "1"), (Ascii.eqb c "9"). }
  pose proof (Hshape a) as Ha. pose proof (Hshape b) as Hb.
  split; [|split].
  - destruct a; rewrite Ha; split; done.
  - intros k. destruct a as [|c r]; rewrite Ha.
    { split; [done|]. by intros [Hne _]. }
    rewrite !startswith_single. unfold prefix_char.
    split.
    + intros [= <-]. split; [done|].
      by destruct (Ascii.eqb c "0"), (Ascii.eqb c "1"), (Ascii.eqb c "9").
    + intros [_ ->]. f_equal.
      by destruct (Ascii.eqb c "0"), (Ascii.eqb c "1"), (Ascii.eqb c "9").
  - split; [|by intros ->].
    destruct a, b; rewrite ?Ha, ?Hb; try done. by intros [= _ -> ->].
Qed.

Lemma map_result_raise {A B} (f : A -> result B) (l : list A) e :
  map_result f l = Raise e -> Exists (fun x => f x = Raise e) l.
Proof.
  induction l as [|x l IH]; [done|]. simpl.
  destruct (f x) as [y|e'] eqn:Hx; simpl.
  - destruct (map_result f l) as [ys|e'']; [done|]. simpl.
    intros [= ->]. apply Exists_cons_tl. by apply IH.
  - intros [= ->]. by apply Exists_cons_hd.
Qed.

Lemma first_char_raise s e :
  Py.first_char s = Raise e -> e = IndexError /\ s = "".
Proof. destruct s; [by intros [= <-]|done]. Qed.

Lemma sorted_registers_codes (mod_ : string) (raw regs : list register) :
  sorted_registers mod_ raw = Ok regs -> Forall has_code raw.
Proof.
  intros Hs. unfold sorted_registers, filter_registers in Hs.
  destruct (map_result _ raw) as [keeps|e] eqn:Hk; [|done].
  apply map_result_Forall2 in Hk. clear Hs.
  induction Hk as [|x y l ys Hx _ IH]; constructor; [|done].
  unfold keep_register, has_code in *.
  by destruct (reg_code x).
Qed.

Lemma sorted_registers_raise (mod_ : string) (raw : list register) e :
  sorted_registers mod_ raw = Raise e ->
  e = IndexError /\ Exists (fun r => reg_code r = "") raw.
Proof.
  intros Hs. unfold sorted_registers in Hs.
  destruct (filter_registers mod_ raw) as [kept|e'] eqn:Hf; simpl in Hs.
  - pose proof (filter_registers_spec _ _ _ Hf) as ->.
    destruct (map_result _ _) as [ks|e''] eqn:Hk; [done|].
    simpl in Hs. injection Hs as ->.
    apply map_result_raise, Exists_exists in Hk as (r & Hr & Hraise).
    apply list_elem_of_In, List.filter_In in Hr as [Hr _].
    unfold _get_alphanum_sequence in Hraise.
    destruct (Py.first_char (reg_code r)) as [c|e'] eqn:Hc.
    { simpl in Hraise.
      by destruct (String.eqb c "0"), (String.eqb c "1"),
           (String.eqb c "9"). }
    simpl in Hraise. injection Hraise as ->.
    apply first_char_raise in Hc as [-> Hc]. split; [done|].
    apply Exists_exists. exists r. split; [by apply list_elem_of_In|done].
  - injection Hs as ->. unfold filter_registers in Hf.
    destruct (map_result _ raw) as [keeps|e'] eqn:Hk; [done|].
    simpl in Hf. injection Hf as ->.
    apply map_result_raise, Exists_exists in Hk as (r & Hr & Hraise).
    unfold keep_register in Hraise.
    destruct (Py.first_char (reg_code r)) as [c|e'] eqn:Hc; [done|].
    simpl in Hraise. injection Hraise as ->.
    apply first_char_raise in Hc as [-> Hc]. split; [done|].
    apply Exists_exists. by exists r.
Qed.

(** X5.  Filtering and sorting the registers of a module succeeds exactly
    when no register of the list has an empty code, and the list returned
    has one register for each that passes the filter; otherwise an
    IndexError is raised, also when the register without a code would have
    been filtered out. *)
Theorem sorted_registers_raises (mod_ : string) (raw : list register) :
  match sorted_registers mod_ raw with
  | Ok regs =>
      Forall has_code raw /\
      length regs = length (List.filter (survives mod_) raw)
  | Raise e => e = IndexError /\ Exists (fun r => reg_code r = "") raw
  end.
Proof.
  destruct (sorted_registers mod_ raw) as [regs|e] eqn:Hs.
  - split; [by apply (sorted_registers_codes mod_ raw regs)|].
    apply sorted_registers_spec in Hs as [Hp _]. by rewrite Hp.
  - exact (sorted_registers_raise mod_ raw e Hs).
Qed.

Lemma leb_refl s : String.leb s s = true.
Proof. by destruct (String.leb_total s s). Qed.

Lemma alphanum_key_code r r' :
  reg_code r = reg_code r' -> alphanum_key r = alphanum_key r'.
Proof. unfold alphanum_key. by intros ->. Qed.

Lemma insert_by_key_filter (p : register -> bool) (c : string) x
    (s : list (string * register)) :
  (forall r, p r = true -> reg_code r = c) ->
  Forall (fun q => q.1 = alphanum_key q.2) s ->
  List.filter p (snd <$> insert_by_key (alphanum_key x) x s) =
  if p x then x :: List.filter p (snd <$> s) else List.filter p (snd <$> s).
Proof.
  intros Hp. induction s as [|[k y] s IH]; intros Hinv.
  { simpl. by destruct (p x). }
  apply Forall_cons in Hinv as [Hk Hinv]. simpl in Hk. subst k.
  cbn [insert_by_key].
  destruct (String.leb (alphanum_key x) (alphanum_key y)) eqn:E.
  { rewrite !fmap_cons. cbn [snd List.filter]. done. }
  rewrite !fmap_cons. cbn [snd List.filter]. rewrite (IH Hinv).
  destruct (p y) eqn:Hy, (p x) eqn:Hx; try done.
  exfalso. rewrite (alphanum_key_code x y) in E.
  - by rewrite leb_refl in E.
  - by rewrite (Hp x Hx), (Hp y Hy).
Qed.

Lemma sort_keyed_filter (p : register -> bool) (c : string)
    (l : list register) :
  (forall r, p r = true -> reg_code r = c) ->
  List.filter p (snd <$> sort_keyed (keyed <$> l)) = List.filter p l.
Proof.
  intros Hp. induction l as [|x l IH]; [done|].
  destruct (sort_keyed_spec l) as (Hinv & _ & _).
  unfold sort_keyed in *. rewrite fmap_cons. cbn [fold_right keyed fst snd].
  rewrite (insert_by_key_filter p c) by done.
  cbn [List.filter]. by rewrite IH.
Qed.

(** X6.  The sort is stable where it matters: the registers that bear one
    and the same code come out in the order in which [get_registers]
    listed them, none lost and none added. *)
Theorem sorted_registers_stable (mod_ : string) (raw regs : list register)
    (c : string) :
  sorted_registers mod_ raw = Ok regs ->
  List.filter (fun r => String.eqb (reg_code r) c) regs =
  List.filter (fun r => String.eqb (reg_code r) c)
    (List.filter (survives mod_) raw).
Proof.
  unfold sorted_registers.
  destruct (filter_registers mod_ raw) as [kept|e] eqn:Hf; [|done].
  apply filter_registers_spec in Hf as ->. simpl.
  destruct (map_result _ _) as [ks|e] eqn:Hk; [|done].
  apply keyed_spec in Hk as ->. simpl. intros [= <-].
  apply (sort_keyed_filter _ c). intros r Hr. by apply String.eqb_eq.
Qed.

Lemma sorted_registers_stable_witness :
  List.filter (fun r => String.eqb (reg_code r) "C100")
    [mk_register "C100" 2 "1:N" "second"; mk_register "0000" 0 "1" "";
     mk_register "C100" 2 "1:1" "first"]
  = List.filter (fun r => String.eqb (reg_code r) "C100")
      (List.filter (survives "efd_icms_ipi")
         [mk_register "C100" 2 "1:N" "second"; mk_register "0000" 0 "1" "";
          mk_register "C100" 2 "1:1" "first"]).
Proof.
  pose proof (sorted_registers_stable "efd_icms_ipi"
    [mk_register "C100" 2 "1:N" "second"; mk_register "0000" 0 "1" "";
     mk_register "C100" 2 "1:1" "first"]
    [mk_register "0000" 0 "1" ""; mk_register "C100" 2 "1:N" "second";
     mk_register "C100" 2 "1:1" "first"] "C100" eq_refl) as H.
  vm_compute in H. vm_compute. exact H.
Defined.

Lemma key_le_same_bloco r1 r2 :
  has_code r1 -> bloco_of r1 = bloco_of r2 -> key_le r1 r2 ->
  String.le (reg_code r1) (reg_code r2).
Proof.
  unfold has_code, bloco_of, key_le, String.le, String.leb.
  destruct (reg_code r1) as [|b1 s1] eqn:E1; [done|].
  destruct (reg_code r2) as [|b2 s2] eqn:E2; [done|].
  intros _ [= <-].
  rewrite (alphanum_key_cons _ _ _ E1), (alphanum_key_cons _ _ _ E2), E1, E2.
  cbn [String.compare].
  assert (Hrefl : forall a, Ascii.compare a a = Eq).
  { intros a. unfold Ascii.compare. apply N.compare_refl. }
  by rewrite !Hrefl.
Qed.

(** X7.  The layout order of the sorted list: nothing but bloco 0 comes
    before a register of bloco 0, nothing but bloco 1 and bloco 9 comes
    after a register of bloco 1, so the blocos named by a letter sit
    between bloco 0 and bloco 1; and two registers of one bloco are in the
    order of their codes. *)
Theorem sorted_registers_layout (mod_ : string) (raw regs : list register)
    (i j : nat) (ri rj : register) :
  sorted_registers mod_ raw = Ok regs ->
  regs !! i = Some ri -> regs !! j = Some rj -> (i < j)%nat ->
  (bloco_of rj = "0" -> bloco_of ri = "0") /\
  (bloco_of ri = "1" -> bloco_of rj = "1" \/ bloco_of rj = "9") /\
  (bloco_of ri = bloco_of rj -> String.le (reg_code ri) (reg_code rj)).
Proof.
  intros Hs Hi Hj Hij.
  pose proof (sorted_registers_codes _ _ _ Hs) as Hcodes.
  apply sorted_registers_spec in Hs as [Hp Hs].
  assert (Hle : key_le ri rj).
  { rewrite <- (take_drop j regs) in Hs.
    eapply StronglySorted_app_1_elem_of; [exact Hs| |].
    - apply list_elem_of_lookup. exists i. by rewrite lookup_take_lt.
    - apply list_elem_of_lookup. exists 0%nat.
      by rewrite lookup_drop, Nat.add_0_r. }
  assert (Hci : has_code ri).
  { rewrite List.Forall_forall in Hcodes. apply Hcodes.
    assert (Hin : ri ∈ List.filter (survives mod_) raw).
    { rewrite <- Hp. by eapply list_elem_of_lookup_2. }
    apply list_elem_of_In, List.filter_In in Hin as [Hin _]. done. }
  assert (Hcj : has_code rj).
  { rewrite List.Forall_forall in Hcodes. apply Hcodes.
    assert (Hin : rj ∈ List.filter (survives mod_) raw).
    { rewrite <- Hp. by eapply list_elem_of_lookup_2. }
    apply list_elem_of_In, List.filter_In in Hin as [Hin _]. done. }
  split; [|split].
  - pose proof (key_le_rank _ _ Hle) as Hr. revert Hr Hci Hcj.
    unfold bloco_rank, bloco_of, has_code.
    destruct (reg_code ri) as [|bi si]; [done|].
    destruct (reg_code rj) as [|bj sj]; [done|].
    intros Hr _ _ [= ->]. revert Hr. unfold prefix_char.
    pose proof (N_of_ascii_lt bi).
    destruct (Ascii.eqb_spec bi "0") as [->|H0]; [done|].
    destruct (Ascii.eqb bi "1"), (Ascii.eqb bi "9"); simpl; lia.
  - pose proof (key_le_rank _ _ Hle) as Hr. revert Hr Hci Hcj.
    unfold bloco_rank, bloco_of, has_code.
    destruct (reg_code ri) as [|bi si]; [done|].
    destruct (reg_code rj) as [|bj sj]; [done|].
    intros Hr _ _ [= ->]. revert Hr. unfold prefix_char.
    pose proof (N_of_ascii_lt bj).
    destruct (Ascii.eqb_spec bj "0") as [->|H0]; [simpl; lia|].
    destruct (Ascii.eqb_spec bj "1") as [->|H1]; [by left|].
    destruct (Ascii.eqb_spec bj "9") as [->|H9]; [by right|].
    simpl. lia.
  - intros Hb. by apply key_le_same_bloco.
Qed.

Lemma sorted_registers_layout_witness :
  sorted_registers "efd_icms_ipi" sample_raw_registers =
    Ok [ mk_register "0000" 0 "1" "Abertura do arquivo";
         mk_register "0001" 1 "1" "Abertura do bloco 0";
         mk_register "0005" 2 "1:1" "Dados complementares";
         mk_register "C001" 1 "1" "Abertura do bloco C";
         mk_register "C100" 2 "1:N" "Nota fiscal";
         mk_register "C170" 3 "1:N" "Itens do documento";
         mk_register "C990" 1 "1" "Encerramento do bloco C";
         mk_register "1001" 1 "1" "Abertura do bloco 1";
         mk_register "1010" 2 "1:1" "Obrigatoriedade de registros";
         mk_register "9001" 1 "1" "Abertura do bloco 9";
         mk_register "9900" 2 "1:N" "Registros do arquivo";
         mk_register "9999" 0 "1" "Encerramento do arquivo" ] /\
  bloco_of (mk_register "0001" 1 "1" "Abertura do bloco 0") = "0" /\
  (bloco_of (mk_register "9001" 1 "1" "Abertura do bloco 9") = "1" \/
   bloco_of (mk_register "9001" 1 "1" "Abertura do bloco 9") = "9") /\
  String.le "C100" "C170".
Proof.
  pose proof (fun i j ri rj =>
    sorted_registers_layout "efd_icms_ipi" sample_raw_registers
      [ mk_register "0000" 0 "1" "Abertura do arquivo";
        mk_register "0001" 1 "1" "Abertura do bloco 0";
        mk_register "0005" 2 "1:1" "Dados complementares";
        mk_register "C001" 1 "1" "Abertura do bloco C";
        mk_register "C100" 2 "1:N" "Nota fiscal";
        mk_register "C170" 3 "1:N" "Itens do documento";
        mk_register "C990" 1 "1" "Encerramento do bloco C";
        mk_register "1001" 1 "1" "Abertura do bloco 1";
        mk_register "1010" 2 "1:1" "Obrigatoriedade de registros";
        mk_register "9001" 1 "1" "Abertura do bloco 9";
        mk_register "9900" 2 "1:N" "Registros do arquivo";
        mk_register "9999" 0 "1" "Encerramento do arquivo" ]
      i j ri rj eq_refl) as Hlayout.
  split; [reflexivity|]. split; [|split].
  - (* 0001 before 0005, which is of bloco 0 *)
    destruct (Hlayout 1%nat 2%nat _ _ eq_refl eq_refl ltac:(lia))
      as (H0 & _ & _).
    exact (H0 eq_refl).
  - (* 9001 after 1001, which is of bloco 1 *)
    destruct (Hlayout 7%nat 9%nat _ _ eq_refl eq_refl ltac:(lia))
      as (_ & H1 & _).
    exact (H1 eq_refl).
  - (* C100 before C170, both of bloco C *)
    destruct (Hlayout 4%nat 5%nat _ _ eq_refl eq_refl ltac:(lia))
      as (_ & _ & Hc).
    exact (Hc eq_refl).
Defined.

(** ** The two passes over the fields of a register *)

Lemma unique_field_codes_frame js : forall U (fields : list nat) flds,
  NoDup js ->
  forall k f, flds !! k = Some f ->
    exists f', (unique_field_codes js U fields flds).1 !! k = Some f' /\
      (k ∉ js -> f' = f) /\ renamed f f'.
Proof.
  induction js as [|j js IH]; intros U fields flds Hnd k f Hf.
  { exists f. split; [done|]. split; [done|]. by left. }
  apply NoDup_cons in Hnd as [Hj Hnd]. cbn [unique_field_codes].
  destruct (flds !! j) as [fj|] eqn:Hfj.
  2:{ exists f. split; [done|]. split; [done|]. by left. }
  destruct (decide (fld_code fj ∈ U)).
  - destruct (decide (k = j)) as [->|Hne].
    + rewrite Hf in Hfj. injection Hfj as <-.
      destruct (IH ({[indexed_code f]} ∪ U) (fields ++ [j])%list
                  (alter (set_code (indexed_code f)) j flds) Hnd j
                  (set_code (indexed_code f) f))
        as (f' & Hf' & Hkeep & _).
      { by rewrite list_lookup_alter_eq, Hf. }
      exists f'. split; [done|]. rewrite (Hkeep Hj). split.
      * intros Hn. exfalso. apply Hn, list_elem_of_here.
      * by right.
    + destruct (IH ({[indexed_code fj]} ∪ U) (fields ++ [j])%list
                  (alter (set_code (indexed_code fj)) j flds) Hnd k f)
        as (f' & Hf' & Hkeep & Hren).
      { by rewrite list_lookup_alter_ne. }
      exists f'. split; [done|]. split; [|done].
      intros Hn. apply Hkeep. intros Hin. apply Hn.
      by apply list_elem_of_further.
  - destruct (IH ({[fld_code fj]} ∪ U) (fields ++ [j])%list flds Hnd k f Hf)
      as (f' & Hf' & Hkeep & Hren).
    exists f'. split; [done|]. split; [|done].
    intros Hn. apply Hkeep. intros Hin. apply Hn.
    by apply list_elem_of_further.
Qed.

Lemma typed_default f : typed f (default_type f).
Proof.
  unfold typed, default_type.
  destruct (Py.truthy (fld_type f)); [by left|by right].
Qed.

Lemma typed_after_default f f' : typed (default_type f) f' -> typed f f'.
Proof.
  unfold typed, default_type.
  destruct (Py.truthy (fld_type f)) eqn:E.
  - intros [->|[Ht _]]; [by left|congruence].
  - intros [->|[Ht _]]; [by right|by vm_compute in Ht].
Qed.

Lemma field_attrs_frame fields : forall flds src attrs flds' src' attrs',
  field_attrs fields flds src attrs = Ok (flds', src', attrs') ->
  length flds' = length flds /\
  forall k f, flds !! k = Some f ->
    exists f', flds' !! k = Some f' /\
      (k ∉ fields -> f' = f) /\ typed f f'.
Proof.
  induction fields as [|j fields IH];
    intros flds src attrs flds' src' attrs' Hrun.
  { simpl in Hrun. injection Hrun as <- <- <-. split; [done|].
    intros k f Hf. exists f. split; [done|]. split; [done|]. by left. }
  cbn [field_attrs] in Hrun.
  destruct (flds !! j) as [f0|] eqn:Hf0.
  2:{ injection Hrun as <- <- <-. split; [done|].
      intros k f Hf. exists f. split; [done|]. split; [done|]. by left. }
  destruct (String.eqb (fld_code f0) "REG").
  { destruct (IH _ _ _ _ _ _ Hrun) as [Hlen Hall]. split; [done|].
    intros k f Hf. destruct (Hall k f Hf) as (f' & Hf' & Hkeep & Ht).
    exists f'. split; [done|]. split; [|done].
    intros Hn. apply Hkeep. intros Hin. apply Hn.
    by apply list_elem_of_further. }
  destruct (field_types (default_type f0)) as [tys|e]; [|done].
  simpl in Hrun. destruct (IH _ _ _ _ _ _ Hrun) as [Hlen Hall].
  rewrite length_insert in Hlen. split; [done|].
  intros k f Hf. destruct (decide (k = j)) as [->|Hne].
  - rewrite Hf in Hf0. injection Hf0 as <-.
    destruct (Hall j (default_type f)) as (f' & Hf' & _ & Ht).
    { apply list_lookup_insert_eq. by eapply lookup_lt_Some. }
    exists f'. split; [done|]. split.
    + intros Hn. exfalso. apply Hn, list_elem_of_here.
    + by apply typed_after_default.
  - destruct (Hall k f) as (f' & Hf' & Hkeep & Ht).
    { by rewrite list_lookup_insert_ne. }
    exists f'. split; [done|]. split; [|done].
    intros Hn. apply Hkeep. intros Hin. apply Hn.
    by apply list_elem_of_further.
Qed.

Lemma fields_of_register_elem code flds k f :
  flds !! k = Some f ->
  k ∈ fields_of_register code flds <-> fld_register f = code.
Proof.
  intros Hf. unfold fields_of_register.
  rewrite list_elem_of_In, List.filter_In, in_seq, Hf, String.eqb_eq.
  apply lookup_lt_Some in Hf. split; [by intros [_ ?]|]. intros ?.
  split; [lia|done].
Qed.

Lemma register_field_attrs_steps (code : string) (flds : list field)
    (src : string) (flds' : list field) (src' : string) (attrs : list Attr) :
  register_field_attrs code flds src = Ok (flds', src', attrs) ->
  length flds' = length flds /\
  forall k f, flds !! k = Some f ->
    exists f1 f', flds' !! k = Some f' /\ renamed f f1 /\ typed f1 f' /\
      (fld_register f <> code -> f' = f).
Proof.
  unfold register_field_attrs, dedup_register_fields. intros Hrun.
  destruct (fields_of_register_spec code flds) as (Hnd & Hval & _).
  destruct (unique_field_codes_spec (fields_of_register code flds) ∅ []
              flds Hnd Hval) as (flds1 & Hrun1 & Hlen1 & _ & _).
  pose proof (unique_field_codes_frame (fields_of_register code flds) ∅ []
                flds Hnd) as Hframe1.
  rewrite Hrun1 in Hrun, Hframe1. simpl in Hrun, Hframe1.
  destruct (field_attrs_frame _ _ _ _ _ _ _ Hrun) as [Hlen2 Hframe2].
  split; [congruence|].
  intros k f Hf.
  destruct (Hframe1 k f Hf) as (f1 & Hf1 & Hkeep1 & Hren).
  destruct (Hframe2 k f1 Hf1) as (f' & Hf' & Hkeep2 & Hty).
  exists f1, f'. split; [done|]. split; [done|]. split; [done|].
  intros Hne.
  assert (Hk : k ∉ fields_of_register code flds).
  { by rewrite (fields_of_register_elem code flds k f Hf). }
  rewrite (Hkeep2 Hk). by apply Hkeep1.
Qed.

(** X8.  What the two passes of [main] for one register do to the shared
    list of fields: no field is added, dropped or moved; a field of
    another register is left exactly as it was; and of a field of the
    register only the code and the type can change, the code to nothing
    but the old code followed by _INDEX_ and the index, the type to
    nothing but char and only when the field had none. *)
Theorem register_field_attrs_frame (code : string) (flds : list field)
    (src : string) (flds' : list field) (src' : string) (attrs : list Attr) :
  register_field_attrs code flds src = Ok (flds', src', attrs) ->
  length flds' = length flds /\
  forall k f, flds !! k = Some f ->
    exists f', flds' !! k = Some f' /\
      fld_rest f' = fld_rest f /\
      (fld_register f <> code -> f' = f) /\
      (fld_code f' = fld_code f \/ fld_code f' = indexed_code f) /\
      (fld_type f' = fld_type f \/
       (Py.truthy (fld_type f) = false /\ fld_type f' = Some "char")).
Proof.
  intros Hrun.
  destruct (register_field_attrs_steps _ _ _ _ _ _ Hrun) as [Hlen Hall].
  split; [done|]. intros k f Hf.
  destruct (Hall k f Hf) as (f1 & f' & Hf' & Hren & Hty & Hout).
  exists f'. split; [done|]. split; [|split; [done|]].
  - destruct Hren as [->| ->], Hty as [->|[_ ->]]; done.
  - split.
    + destruct Hren as [->| ->], Hty as [->|[_ ->]]; simpl; auto.
    + destruct Hren as [->| ->], Hty as [->|[Ht ->]]; simpl; auto.
Qed.

Lemma register_field_attrs_frame_witness :
  length sample_field_attrs.1.1 = length sample_fields /\
  forall k f, sample_fields !! k = Some f ->
    exists f', sample_field_attrs.1.1 !! k = Some f' /\
      fld_rest f' = fld_rest f /\
      (fld_register f <> "C170" -> f' = f) /\
      (fld_code f' = fld_code f \/ fld_code f' = indexed_code f) /\
      (fld_type f' = fld_type f \/
       (Py.truthy (fld_type f) = false /\ fld_type f' = Some "char")).
Proof.
  exact (register_field_attrs_frame "C170" sample_fields ""
           sample_field_attrs.1.1 sample_field_attrs.1.2
           sample_field_attrs.2 eq_refl).
Defined.

Lemma unique_field_codes_distinct js : forall U (fields : list nat) flds,
  (forall j, j ∈ js -> is_Some (flds !! j)) ->
  NoDup (omap (fun j => fld_code <$> flds !! j) js) ->
  (forall c, c ∈ omap (fun j => fld_code <$> flds !! j) js -> c ∉ U) ->
  unique_field_codes js U fields flds = (flds, (fields ++ js)%list).
Proof.
  induction js as [|j js IH]; intros U fields flds Hval Hnd HU.
  { simpl. by rewrite app_nil_r. }
  destruct (Hval j) as [f Hf]; [apply list_elem_of_here|].
  rewrite omap_cons, Hf in Hnd, HU. simpl in Hnd, HU.
  apply NoDup_cons in Hnd as [Hj Hnd].
  cbn [unique_field_codes]. rewrite Hf.
  rewrite decide_False by (apply HU, list_elem_of_here).
  rewrite IH; [by rewrite <- app_assoc| |done|].
  - intros k Hk. apply Hval. by apply list_elem_of_further.
  - intros c Hc. rewrite elem_of_union, elem_of_singleton.
    intros [->|Hin]; [done|].
    by apply (HU c); [apply list_elem_of_further|].
Qed.

(** X9.  For a register whose field codes are pairwise distinct the first
    pass renames nothing: the shared list of fields is left as it was, and
    the fields of the register are handed on in their order. *)
Theorem dedup_register_fields_distinct (code : string) (flds : list field) :
  NoDup (fld_code <$> register_fields code flds) ->
  dedup_register_fields code flds = (flds, fields_of_register code flds).
Proof.
  intros Hnd. unfold dedup_register_fields.
  destruct (fields_of_register_spec code flds) as (_ & Hval & Hfs).
  assert (Hcodes : omap (fun j => fld_code <$> flds !! j)
                     (fields_of_register code flds)
                   = fld_code <$> register_fields code flds).
  { rewrite <- Hfs. generalize (fields_of_register code flds).
    intros js. induction js as [|j js IH]; [done|].
    rewrite !omap_cons. destruct (flds !! j); simpl; by rewrite IH. }
  apply (unique_field_codes_distinct _ ∅ [] flds Hval).
  - by rewrite Hcodes.
  - intros c _. apply not_elem_of_empty.
Qed.

Lemma dedup_register_fields_distinct_witness :
  dedup_register_fields "C100" sample_fields =
  (sample_fields, fields_of_register "C100" sample_fields).
Proof.
  apply dedup_register_fields_distinct.
  apply NoDup_ListNoDup. vm_compute.
  repeat (constructor; [intros Hin; cbn in Hin; intuition discriminate|]).
  constructor.
Defined.

Lemma typed_code f f' : typed f f' -> fld_code f' = fld_code f.
Proof. by intros [->|[_ ->]]. Qed.

Lemma typed_rest f f' : typed f f' -> fld_rest f' = fld_rest f.
Proof. by intros [->|[_ ->]]. Qed.

Lemma renamed_rest f f' : renamed f f' -> fld_rest f' = fld_rest f.
Proof. by intros [->| ->]. Qed.

(** Every attribute the second pass appends is made from a field that the
    shared list still holds, under the same code, once the pass is over. *)
Lemma field_attrs_made fields : forall flds src attrs flds' src' attrs',
  field_attrs fields flds src attrs = Ok (flds', src', attrs') ->
  exists new, attrs' = (attrs ++ new)%list /\
    forall a, a ∈ new ->
      exists j f', j ∈ fields /\ flds' !! j = Some f' /\
        fld_code f' = attr_name a /\ fld_desc f' = attr_help a /\
        fld_index f' = attr_index a.
Proof.
  induction fields as [|j fields IH];
    intros flds src attrs flds' src' attrs' Hrun.
  { simpl in Hrun. injection Hrun as <- <- <-. exists [].
    rewrite app_nil_r. split; [done|]. intros a Ha.
    by apply not_elem_of_nil in Ha. }
  cbn [field_attrs] in Hrun.
  destruct (flds !! j) as [f0|] eqn:Hf0.
  2:{ injection Hrun as <- <- <-. exists [].
      rewrite app_nil_r. split; [done|]. intros a Ha.
      by apply not_elem_of_nil in Ha. }
  destruct (String.eqb (fld_code f0) "REG").
  { destruct (IH _ _ _ _ _ _ Hrun) as (new & -> & Hnew).
    exists new. split; [done|]. intros a Ha.
    destruct (Hnew a Ha) as (k & f' & Hk & Hrest).
    exists k, f'. split; [by apply list_elem_of_further|done]. }
  destruct (field_types (default_type f0)) as [tys|e]; [|done].
  simpl in Hrun.
  destruct (field_attrs_frame _ _ _ _ _ _ _ Hrun) as [_ Hframe].
  destruct (IH _ _ _ _ _ _ Hrun) as (new & -> & Hnew).
  exists (field_attr (default_type f0) tys :: new).
  split; [by rewrite <- app_assoc|].
  intros a Ha. apply elem_of_cons in Ha as [->|Ha].
  - destruct (Hframe j (default_type f0)) as (f' & Hf' & _ & Ht).
    { apply list_lookup_insert_eq. by eapply lookup_lt_Some. }
    exists j, f'. split; [apply list_elem_of_here|]. split; [done|].
    pose proof (typed_rest _ _ Ht) as Hr. unfold fld_rest in Hr.
    injection Hr as _ Hi Hd _ _ _ _ _ _.
    by rewrite (typed_code _ _ Ht), Hi, Hd.
  - destruct (Hnew a Ha) as (k & f' & Hk & Hrest).
    exists k, f'. split; [by apply list_elem_of_further|done].
Qed.

Lemma omap_lookup_all {A B} (g : A -> option B) (l : list A) i x y :
  (forall z, z ∈ l -> is_Some (g z)) ->
  l !! i = Some x -> g x = Some y -> omap g l !! i = Some y.
Proof.
  revert i. induction l as [|z l IH]; intros i Hall Hx Hy; [done|].
  rewrite omap_cons.
  destruct (Hall z) as [w Hw]; [apply list_elem_of_here|]. rewrite Hw.
  destruct i as [|i]; simpl in *.
  - injection Hx as ->. congruence.
  - apply IH; [|done|done]. intros u Hu. apply Hall.
    by apply list_elem_of_further.
Qed.

(** The positions of the fields of the register, and their codes, once
    the two passes are over. *)
Lemma register_field_attrs_frame_aux code flds src flds' src' attrs :
  register_field_attrs code flds src = Ok (flds', src', attrs) ->
  length flds' = length flds /\
  (forall k f', flds' !! k = Some f' ->
     k ∈ fields_of_register code flds <-> fld_register f' = code) /\
  (NoDup (codes_after code flds) ->
   forall k j f g, flds' !! k = Some f -> flds' !! j = Some g ->
     k ∈ fields_of_register code flds -> j ∈ fields_of_register code flds ->
     fld_code f = fld_code g -> k = j).
Proof.
  intros Hrun.
  unfold codes_after.
  unfold register_field_attrs, dedup_register_fields in *.
  destruct (fields_of_register_spec code flds) as (Hnd & Hval & _).
  destruct (unique_field_codes_spec (fields_of_register code flds) ∅ []
              flds Hnd Hval) as (flds1 & Hrun1 & Hlen1 & _ & _).
  pose proof (unique_field_codes_frame (fields_of_register code flds) ∅ []
                flds Hnd) as Hframe1.
  rewrite Hrun1 in Hrun, Hframe1 |- *. simpl in Hrun, Hframe1.
  destruct (field_attrs_frame _ _ _ _ _ _ _ Hrun) as [Hlen2 Hframe2].
  assert (Hback : forall k f', flds' !! k = Some f' ->
            exists f f1, flds !! k = Some f /\ flds1 !! k = Some f1 /\
              fld_rest f1 = fld_rest f /\ fld_rest f' = fld_rest f1 /\
              fld_code f' = fld_code f1).
  { intros k f' Hf'.
    destruct (lookup_lt_is_Some_2 flds k) as [f Hf].
    { apply lookup_lt_Some in Hf'. lia. }
    destruct (Hframe1 k f Hf) as (f1 & Hf1 & _ & Hren).
    destruct (Hframe2 k f1 Hf1) as (f'' & Hf'' & _ & Hty).
    rewrite Hf' in Hf''. injection Hf'' as <-.
    exists f, f1. split; [done|]. split; [done|].
    split; [by apply renamed_rest|]. split; [by apply typed_rest|].
    by apply typed_code. }
  split; [congruence|]. split.
  - intros k f' Hf'.
    destruct (Hback k f' Hf') as (f & f1 & Hf & _ & Hr1 & Hr2 & _).
    rewrite (fields_of_register_elem code flds k f Hf).
    unfold fld_rest in Hr1, Hr2.
    injection Hr1 as Hr1 _ _ _ _ _ _ _ _.
    injection Hr2 as Hr2 _ _ _ _ _ _ _ _. by rewrite Hr2, Hr1.
  - simpl. intros Hnodup k j f g Hf Hg Hk Hj Hc.
    destruct (Hback k f Hf) as (_ & f1 & _ & Hf1 & _ & _ & Hcf).
    destruct (Hback j g Hg) as (_ & g1 & _ & Hg1 & _ & _ & Hcg).
    apply list_elem_of_lookup in Hk as [ik Hik].
    apply list_elem_of_lookup in Hj as [ij Hij].
    assert (Hck : omap (fun j => fld_code <$> flds1 !! j)
                    (fields_of_register code flds) !! ik
                  = Some (fld_code f1)).
    { apply (omap_lookup_all _ _ ik k); [|done|by rewrite Hf1].
      intros x Hx. destruct (Hval x Hx) as [fx Hfx].
      apply lookup_lt_Some in Hfx.
      destruct (lookup_lt_is_Some_2 flds1 x) as [y Hy]; [lia|].
      by rewrite Hy. }
    assert (Hcj : omap (fun j => fld_code <$> flds1 !! j)
                    (fields_of_register code flds) !! ij
                  = Some (fld_code g1)).
    { apply (omap_lookup_all _ _ ij j); [|done|by rewrite Hg1].
      intros x Hx. destruct (Hval x Hx) as [fx Hfx].
      apply lookup_lt_Some in Hfx.
      destruct (lookup_lt_is_Some_2 flds1 x) as [y Hy]; [lia|].
      by rewrite Hy. }
    assert (ik = ij) as ->.
    { eapply (NoDup_lookup _ ik ij); [exact Hnodup|exact Hck|].
      rewrite Hcj. congruence. }
    congruence.
Qed.


(** Every attribute of the two passes is made from a field of the
    register that the shared list holds at its old position. *)
Lemma register_field_attrs_made code flds src flds' src' attrs a :
  register_field_attrs code flds src = Ok (flds', src', attrs) ->
  a ∈ attrs ->
  exists j fj, j ∈ fields_of_register code flds /\ flds' !! j = Some fj /\
    fld_code fj = attr_name a /\ fld_register fj = code /\
    fld_desc fj = attr_help a /\ fld_index fj = attr_index a.
Proof.
  intros Hrun Ha.
  pose proof (register_field_attrs_frame_aux code flds src flds' src' attrs
                Hrun) as (_ & Hreg & _).
  unfold register_field_attrs, dedup_register_fields in Hrun.
  destruct (fields_of_register_spec code flds) as (Hnd & Hval & _).
  destruct (unique_field_codes_spec (fields_of_register code flds) ∅ []
              flds Hnd Hval) as (flds1 & Hrun1 & Hlen1 & _ & _).
  rewrite Hrun1 in Hrun. simpl in Hrun.
  destruct (field_attrs_made _ _ _ _ _ _ _ Hrun) as (new & -> & Hnew).
  simpl in Ha. destruct (Hnew a Ha) as (j & fj & Hj & Hfj & Hcj & Hdj & Hij).
  exists j, fj. repeat (split; [done|]). split; [|done].
  by apply (Hreg j fj).
Qed.

Section Lookup.
Context `{External}.

(** [list(filter(...))[0]] is there as soon as one field matches. *)
Lemma field_of_attr_some flds obj a g :
  g ∈ flds -> fld_code g = attr_name a ->
  fld_register g = Py.slice (class_name obj) (Some (-4)) None ->
  exists f, field_of_attr flds obj a = Some f /\ f ∈ flds /\
    fld_code f = attr_name a /\
    fld_register f = Py.slice (class_name obj) (Some (-4)) None.
Proof.
  intros Hg Hc Hr. unfold field_of_attr.
  destruct (List.find _ flds) as [f|] eqn:Hfind.
  - apply List.find_some in Hfind as [Hin Hp].
    apply andb_true_iff in Hp as [Hc' Hr'].
    apply String.eqb_eq in Hc', Hr'.
    exists f. split; [done|]. split; [by apply list_elem_of_In|done].
  - exfalso. apply List.find_none with (x := g) in Hfind.
    + rewrite Hc, Hr, !String.eqb_refl in Hfind. done.
    + by apply list_elem_of_In.
Qed.

(** X10.  The two passes and the later lookup of [SpedFilters] fit: for a
    class whose name ends in the code of the register, every attribute the
    passes made is found again in the shared list of fields by
    [_extract_field_attributes], so that lookup raises no IndexError; and
    when the pass left the codes of the register pairwise distinct, the
    field found is the one the attribute was made from. *)
Theorem register_field_attrs_lookup (code : string) (flds : list field)
    (src : string) (flds' : list field) (src' : string) (attrs : list Attr)
    (obj : Class) (a : Attr) :
  register_field_attrs code flds src = Ok (flds', src', attrs) ->
  Py.slice (class_name obj) (Some (-4)) None = code ->
  a ∈ attrs ->
  exists f, field_of_attr flds' obj a = Some f /\
    fld_code f = attr_name a /\ fld_register f = code /\
    (NoDup (codes_after code flds) ->
     fld_desc f = attr_help a /\ fld_index f = attr_index a).
Proof.
  intros Hrun Hname Ha.
  destruct (register_field_attrs_made _ _ _ _ _ _ _ Hrun Ha)
    as (j & fj & Hj & Hfj & Hcj & Hrj & Hdj & Hij).
  destruct (field_of_attr_some flds' obj a fj)
    as (f & Hfind & Hin & Hc & Hr);
    [by eapply list_elem_of_lookup_2|done|congruence|].
  exists f. split; [done|]. split; [done|]. split; [congruence|].
  intros Hnodup.
  destruct (register_field_attrs_frame_aux code flds src flds' src' attrs
              Hrun) as (_ & Hreg & Hcodes).
  apply list_elem_of_lookup in Hin as [k Hk].
  assert (Hkin : k ∈ fields_of_register code flds).
  { apply (Hreg k f); congruence. }
  assert (k = j) as ->; [|by rewrite Hfj in Hk; injection Hk as <-].
  apply (Hcodes Hnodup k j f fj); congruence.
Qed.

End Lookup.

Lemma register_field_attrs_lookup_witness :
  exists f,
    field_of_attr (H := sample_external) sample_field_attrs.1.1 sample_class
      (float_attr "ALIQ_PIS_INDEX_3") = Some f /\
    fld_code f = "ALIQ_PIS_INDEX_3" /\ fld_register f = "C170" /\
    (NoDup (codes_after "C170" sample_fields) ->
     fld_desc f = "Aliquota do PIS (em reais)" /\ fld_index f = 3).
Proof.
  apply (register_field_attrs_lookup (H := sample_external) "C170"
           sample_fields "" sample_field_attrs.1.1 sample_field_attrs.1.2
           sample_field_attrs.2 sample_class (float_attr "ALIQ_PIS_INDEX_3")
           eq_refl eq_refl).
  apply list_elem_of_In. vm_compute. tauto.
Defined.

(** ** Text lemmas *)

Lemma rev_app_app s : forall t acc,
  String.rev_app (s ++ t) acc = String.rev_app t (String.rev_app s acc).
Proof. induction s as [|a s IH]; intros t acc; [done|]. simpl. apply IH. Qed.

Lemma rev_app_acc s : forall acc,
  String.rev_app s acc = String.rev_app s "" ++ acc.
Proof.
  induction s as [|a s IH]; intros acc; [done|].
  simpl. rewrite IH, (IH (String a "")). by rewrite sapp_assoc.
Qed.

Lemma prefix_app p s : String.prefix p (p ++ s) = true.
Proof.
  induction p as [|a p IH]; simpl; [by destruct s|].
  by destruct (ascii_dec a a).
Qed.

Lemma prefix_split p : forall t,
  String.prefix p t = true -> exists u, t = p ++ u.
Proof.
  induction p as [|a p IH]; intros t Ht; [by exists t|].
  destruct t as [|b t]; [done|]. simpl in Ht.
  destruct (ascii_dec a b) as [->|]; [|done].
  destruct (IH t Ht) as [u ->]. by exists u.
Qed.

Lemma endswith_app s p : Py.endswith (s ++ p) p = true.
Proof.
  unfold Py.endswith, String.rev.
  rewrite rev_app_app, (rev_app_acc p (String.rev_app s "")).
  apply prefix_app.
Qed.

Lemma chars_rev_app s : forall acc,
  list_ascii_of_string (String.rev_app s acc) =
  (rev (list_ascii_of_string s) ++ list_ascii_of_string acc)%list.
Proof.
  induction s as [|a s IH]; intros acc; [done|].
  simpl. rewrite IH. simpl. by rewrite <- app_assoc.
Qed.

Lemma endswith_chars s p c :
  Py.endswith s p = true -> In c (list_ascii_of_string p) ->
  In c (list_ascii_of_string s).
Proof.
  unfold Py.endswith, String.rev. intros Hp Hc.
  apply prefix_split in Hp as [u Hu].
  apply (f_equal list_ascii_of_string) in Hu.
  rewrite chars_app, !chars_rev_app, !app_nil_r in Hu.
  apply in_rev. rewrite Hu. apply in_or_app. left. by apply in_rev in Hc.
Qed.

Lemma split_go_nonempty sep s : forall cur,
  (1 <= length (Py.split_go sep cur s))%nat.
Proof.
  induction s as [|c s IH]; intros cur; simpl; [lia|].
  destruct (Ascii.eqb c sep); simpl; [lia|apply IH].
Qed.

Lemma split_go_length sep s : forall cur,
  In sep (list_ascii_of_string s) ->
  (2 <= length (Py.split_go sep cur s))%nat.
Proof.
  induction s as [|c s IH]; intros cur Hin; [done|].
  simpl. destruct (Ascii.eqb_spec c sep) as [->|Hne].
  - simpl. pose proof (split_go_nonempty sep s ""). lia.
  - apply IH. destruct Hin as [Hin|Hin]; [done|done].
Qed.

(** [string.split("_")[1]] is there whenever the text ends in _ids. *)
Lemma split_ids (s : string) :
  Py.endswith s "_ids" = true -> is_Some (Py.split s "_" !! 1%nat).
Proof.
  intros He. apply lookup_lt_is_Some. unfold Py.split.
  pose proof (split_go_length "_" s "" (endswith_chars s "_ids" "_" He
                ltac:(simpl; tauto))). lia.
Qed.

Lemma contains_app a p b : Py.contains (a ++ p ++ b) p = true.
Proof.
  induction a as [|x a IH].
  - change ("" ++ p ++ b) with (p ++ b).
    assert (Hc : forall s, String.prefix p s = true -> Py.contains s p = true).
    { intros s Hs. destruct s; cbn [Py.contains]; by rewrite Hs. }
    apply Hc, prefix_app.
  - change (String x a ++ p ++ b) with (String x (a ++ p ++ b)).
    cbn [Py.contains]. rewrite IH. apply orb_true_r.
Qed.

Lemma replace_from_clean o old new (pre s : string) :
  ~ In o (list_ascii_of_string pre) ->
  Py.replace_from (String o old) new 0 (pre ++ s) =
  pre ++ Py.replace_from (String o old) new 0 s.
Proof.
  induction pre as [|c pre IH]; intros Hn; [done|].
  change (String c pre ++ s) with (String c (pre ++ s)).
  cbn [Py.replace_from String.prefix].
  destruct (ascii_dec o c) as [->|Hne].
  { exfalso. apply Hn. by left. }
  rewrite IH; [done|]. intros Hin. apply Hn. by right.
Qed.

Lemma replace_from_skip old new (t s : string) :
  Py.replace_from old new (String.length t) (t ++ s) =
  Py.replace_from old new 0 s.
Proof.
  induction t as [|c t IH]; [done|].
  change (String c t ++ s) with (String c (t ++ s)). exact IH.
Qed.

Lemma replace_from_match o old new (s : string) :
  Py.replace_from (String o old) new 0 (String o old ++ s) =
  new ++ Py.replace_from (String o old) new 0 s.
Proof.
  change (String o old ++ s) with (String o (old ++ s)).
  cbn [Py.replace_from].
  change (String o (old ++ s)) with (String o old ++ s).
  rewrite prefix_app. cbn [String.length]. rewrite Nat.sub_1_r. cbn [Nat.pred].
  by rewrite replace_from_skip.
Qed.

Lemma parent_name_link (c p : string) :
  is_parent_link ("reg_" ++ c ++ "_ids_" ++ ("Registro" ++ p) ++ "_id") = true.
Proof.
  unfold is_parent_link. apply andb_true_iff. split.
  - rewrite <- !sapp_assoc. apply endswith_app.
  - assert (E : "reg_" ++ c ++ "_ids_" ++ ("Registro" ++ p) ++ "_id" =
                ("reg_" ++ c ++ "_ids") ++ "_Registro" ++ (p ++ "_id")).
    { rewrite !sapp_assoc. reflexivity. }
    rewrite E. apply contains_app.
Qed.

Lemma child_name_link (c : string) :
  is_parent_link ("reg_" ++ c ++ "_ids") = false /\
  is_children_link ("reg_" ++ c ++ "_ids") = true.
Proof.
  unfold is_parent_link, is_children_link. split.
  - apply andb_false_iff. left.
    rewrite <- sapp_assoc. unfold Py.endswith, String.rev.
    rewrite rev_app_app. reflexivity.
  - apply andb_true_iff. split.
    + unfold Py.startswith. apply prefix_app.
    + rewrite <- sapp_assoc. apply endswith_app.
Qed.

(** [attr.name.replace("reg_", "").replace("_ids", "")] gives the code
    back when the code has neither an r nor an underscore. *)
Lemma child_name_code (c : string) :
  ~ In "r"%char (list_ascii_of_string c) ->
  ~ In "_"%char (list_ascii_of_string c) ->
  Py.replace (Py.replace ("reg_" ++ c ++ "_ids") "reg_" "") "_ids" "" = c.
Proof.
  intros Hr Hu. unfold Py.replace.
  rewrite (replace_from_match "r" "eg_" "" (c ++ "_ids")).
  change ("" ++ Py.replace_from "reg_" "" 0 (c ++ "_ids"))
    with (Py.replace_from "reg_" "" 0 (c ++ "_ids")).
  rewrite (replace_from_clean "r" "eg_" "" c "_ids" Hr).
  change (Py.replace_from "reg_" "" 0 "_ids") with "_ids".
  rewrite (replace_from_clean "_" "ids" "" c "_ids" Hu).
  change (Py.replace_from "_ids" "" 0 "_ids") with "".
  apply sapp_nil_r.
Qed.

Lemma od_get_help k help kwargs :
  k <> "help" ->
  od_get k (if String.eqb help "" then kwargs
            else od_set "help" (KStr help) kwargs) = od_get k kwargs.
Proof.
  intros Hne. destruct (String.eqb help ""); [done|].
  by apply od_get_set_ne.
Qed.

Lemma od_get_required k (b : bool) kwargs :
  k <> "required" ->
  od_get k (if b then od_set "required" (KBool true) kwargs else kwargs)
  = od_get k kwargs.
Proof. intros Hne. destruct b; [by apply od_get_set_ne|done]. Qed.

Section Links.
Context `{External}.

(** X11.  The attribute [main] makes for the parent of a register is
    taken by [_extract_field_attributes] for a parent link whatever the
    two codes are: the call raises nothing, the kwargs get ondelete set to
    cascade, and neither the registers nor the fields are looked up, so no
    sped_card, xsd_type or sped_length is set. *)
Theorem parent_link_kwargs (self : Filters) (parents : list Class)
    (unique_labels : option (gset string)) (regs : list register)
    (register : register) (a : Attr) :
  a ∈ parent_attrs regs register -> parents <> [] ->
  exists kwargs labels,
    _extract_field_attributes self parents unique_labels a
      = Ok (kwargs, labels) /\
    od_get "ondelete" kwargs = Some (KStr "cascade") /\
    od_get "sped_card" kwargs = None /\
    od_get "xsd_type" kwargs = None /\
    od_get "sped_length" kwargs = None.
Proof.
  intros Ha Hparents. unfold parent_attrs in Ha.
  destruct (reg_parent register) as [p|]; [|by apply not_elem_of_nil in Ha].
  destruct (regs !! p) as [parent|]; [|by apply not_elem_of_nil in Ha].
  apply list_elem_of_singleton in Ha. subst a.
  unfold _extract_field_attributes.
  destruct (last parents) as [obj|] eqn:Hlast.
  2:{ apply last_None in Hlast. done. }
  cbn [attr_name attr_help].
  destruct (extract_string_and_help _ _ _ _ _) as [[string help_attr] labels].
  assert (Hstr : exists s,
            (if Py.endswith string "_ids"
             then match Py.split string "_" !! 1%nat with
                  | Some s => Ok s
                  | None => Raise IndexError
                  end
             else Ok string) = Ok s).
  { destruct (Py.endswith string "_ids") eqn:E; [|by eexists].
    destruct (split_ids string E) as [s ->]. by eexists. }
  destruct Hstr as [s ->]. cbn [mbind result_bind].
  rewrite parent_name_link. cbn [mbind result_bind].
  eexists _, _. split; [reflexivity|].
  rewrite !od_get_help by done.
  split; [by rewrite od_get_set_eq|].
  rewrite !od_get_set_ne, !od_get_required by done.
  rewrite !od_get_set_ne by done. done.
Qed.

(** X12.  The attribute [main] makes for a child register is taken for a
    children link, never for a parent link; when the code of the child has
    neither an r nor an underscore the code is read back from the name,
    the call raises an IndexError if no register of the filters bears that
    code and otherwise sets sped_card to the card of the first one that
    does, sped_required exactly when its spec_required is Sim, and no
    ondelete. *)
Theorem child_link_kwargs (self : Filters) (parents : list Class)
    (unique_labels : option (gset string)) (child : register) :
  ~ In "r"%char (list_ascii_of_string (reg_code child)) ->
  ~ In "_"%char (list_ascii_of_string (reg_code child)) ->
  parents <> [] ->
  match List.find (fun x => String.eqb (reg_code x) (reg_code child))
          (flt_registers self) with
  | None =>
      _extract_field_attributes self parents unique_labels (child_attr child)
        = Raise IndexError
  | Some target =>
      exists kwargs labels,
        _extract_field_attributes self parents unique_labels
          (child_attr child) = Ok (kwargs, labels) /\
        od_get "sped_card" kwargs = Some (KStr (reg_card target)) /\
        (od_get "sped_required" kwargs = Some (KBool true) <->
         reg_spec_required target = Some "Sim") /\
        od_get "ondelete" kwargs = None
  end.
Proof.
  intros Hr Hu Hparents.
  unfold _extract_field_attributes.
  destruct (last parents) as [obj|] eqn:Hlast.
  2:{ apply last_None in Hlast. done. }
  cbn [attr_name attr_help child_attr].
  destruct (extract_string_and_help _ _ _ _ _) as [[string help_attr] labels].
  assert (Hstr : exists s,
            (if Py.endswith string "_ids"
             then match Py.split string "_" !! 1%nat with
                  | Some s => Ok s
                  | None => Raise IndexError
                  end
             else Ok string) = Ok s).
  { destruct (Py.endswith string "_ids") eqn:E; [|by eexists].
    destruct (split_ids string E) as [s ->]. by eexists. }
  destruct Hstr as [s ->]. cbn [mbind result_bind].
  destruct (child_name_link (reg_code child)) as [-> ->].
  rewrite child_name_code by done.
  destruct (List.find _ (flt_registers self)) as [target|]; [|done].
  cbn [mbind result_bind].
  eexists _, _. split; [reflexivity|].
  rewrite !od_get_help by done.
  destruct (bool_decide (reg_spec_required target = Some "Sim")) eqn:E.
  - apply bool_decide_eq_true in E.
    rewrite od_get_set_eq, !od_get_set_ne, od_get_set_eq by done.
    split; [done|]. split; [done|].
    rewrite !od_get_set_ne, !od_get_required by done.
    by rewrite !od_get_set_ne.
  - apply bool_decide_eq_false in E.
    rewrite od_get_set_eq. split; [done|].
    rewrite !od_get_set_ne, !od_get_required by done.
    rewrite !od_get_set_ne by done. simpl. split; [|done].
    split; [done|]. intros Hs. done.
Qed.

End Links.

(** ** The names SpedFilters gives *)

Lemma slice_registro (c : string) :
  String.length c = 4%nat ->
  Py.slice ("Registro" ++ c) (Some (-4)) None = c.
Proof.
  destruct c as [|c1 [|c2 [|c3 [|c4 [|c5 c]]]]]; try done.
Qed.

Lemma contains_registro (c p : string) (o : ascii) :
  In o (list_ascii_of_string "0123456789") ->
  Py.contains ("Registro" ++ c) (String o p) = Py.contains c (String o p).
Proof.
  intros Ho. simpl in Ho.
  repeat (destruct Ho as [<-|Ho]; [reflexivity|]). done.
Qed.

Section Names.
Context `{External}.

(** X13.  For the class [main] makes for a register whose code has four
    characters, [class_properties] finds the register again: when the
    codes of the registers are pairwise distinct it returns the line
    _sped_level = followed by the level of that very register, and it
    raises an IndexError exactly when no register of the filters bears
    the code. *)
Theorem class_properties_level (self : Filters) (obj : Class) (code : string) :
  class_name obj = "Registro" ++ code -> String.length code = 4%nat ->
  (class_properties self obj = Raise IndexError <->
   forall x, x ∈ flt_registers self -> reg_code x <> code) /\
  (NoDup (reg_code <$> flt_registers self) ->
   forall r, r ∈ flt_registers self -> reg_code r = code ->
     class_properties self obj =
     Ok ("_sped_level = " ++ Py.str_of_int (reg_level r))).
Proof.
  intros Hname Hlen. unfold class_properties.
  rewrite Hname, slice_registro by done.
  destruct (List.find _ (flt_registers self)) as [t|] eqn:Hfind.
  - apply List.find_some in Hfind as [Hin Hc].
    apply String.eqb_eq in Hc. apply list_elem_of_In in Hin. split.
    + split; [done|]. intros Hall. by destruct (Hall t Hin).
    + intros Hnd r Hr Hcode. do 3 f_equal.
      apply list_elem_of_lookup in Hin as [i Hi].
      apply list_elem_of_lookup in Hr as [j Hj].
      assert (i = j) as ->; [|congruence].
      apply (NoDup_lookup _ i j code Hnd);
        rewrite list_lookup_fmap; [rewrite Hi|rewrite Hj]; simpl; congruence.
  - split.
    + split; [|done]. intros _ x Hx Hc.
      apply List.find_none with (x := x) in Hfind;
        [|by apply list_elem_of_In].
      by rewrite Hc, String.eqb_refl in Hfind.
    + intros _ r Hr Hc.
      apply List.find_none with (x := r) in Hfind;
        [|by apply list_elem_of_In].
      by rewrite Hc, String.eqb_refl in Hfind.
Qed.

(** X14.  The class [main] makes for a register inherits
    l10n_br_sped.declaration exactly when the code of the register holds
    0000, which for a code of four characters is the register 0000 alone;
    any other class inherits the model set for the module. *)
Theorem odoo_inherit_model_declaration (self : Filters) (obj : Class)
    (code : string) :
  class_name obj = "Registro" ++ code ->
  odoo_inherit_model self obj =
    (if Py.contains code "0000" then "l10n_br_sped.declaration"
     else flt_inherit_model self) /\
  (String.length code = 4%nat ->
   Py.contains code "0000" = String.eqb code "0000").
Proof.
  intros Hname. unfold odoo_inherit_model. rewrite Hname. split.
  - rewrite (contains_registro code "000" "0"); [done|]. simpl. tauto.
  - destruct code as [|c1 [|c2 [|c3 [|c4 [|c5 c]]]]]; try done. intros _.
    cbn [Py.contains String.prefix].
    destruct (ascii_dec "0" c1) as [<-|H1], (ascii_dec "0" c2) as [<-|H2],
      (ascii_dec "0" c3) as [<-|H3], (ascii_dec "0" c4) as [<-|H4];
      repeat match goal with
             | Hn : "0"%char <> _ |- _ =>
                 apply not_eq_sym, Ascii.eqb_neq in Hn
             end;
      repeat (cbn; rewrite ?H1, ?H2, ?H3, ?H4); reflexivity.
Qed.

End Names.

Lemma rev_app_rev a : forall acc acc',
  String.rev_app (String.rev_app a acc) acc' = String.rev_app acc (a ++ acc').
Proof.
  induction a as [|c a IH]; intros acc acc'; [done|].
  simpl. by rewrite IH.
Qed.

Lemma rev_rev_app a : String.rev (String.rev_app a "") = a.
Proof.
  unfold String.rev. rewrite rev_app_rev. simpl. apply sapp_nil_r.
Qed.

Lemma split_go_clean sep a : forall cur,
  ~ In sep (list_ascii_of_string a) ->
  Py.split_go sep cur a = [String.rev (String.rev_app a cur)].
Proof.
  induction a as [|c a IH]; intros cur Hn; [done|].
  simpl. destruct (Ascii.eqb_spec c sep) as [->|Hne].
  { exfalso. apply Hn. by left. }
  apply IH. intros Hin. apply Hn. by right.
Qed.

Lemma split_go_part sep a b : forall cur,
  ~ In sep (list_ascii_of_string a) ->
  Py.split_go sep cur (a ++ String sep b) =
  String.rev (String.rev_app a cur) :: Py.split_go sep "" b.
Proof.
  induction a as [|c a IH]; intros cur Hn.
  { simpl. by rewrite Ascii.eqb_refl. }
  change (String c a ++ String sep b) with (String c (a ++ String sep b)).
  cbn [Py.split_go]. destruct (Ascii.eqb_spec c sep) as [->|Hne].
  { exfalso. apply Hn. by left. }
  apply IH. intros Hin. apply Hn. by right.
Qed.

Section Comodel.
Context `{External}.
Variable filters_class_name : string -> string.

(** X15.  With the schema [main] sets, l10n_br_sped. followed by the
    module, [registry_comodel] drops the version: when the module, the
    version and the lowered last four characters of the class name hold
    no dot, [registry_name] returns
    l10n_br_sped.{module}.{version}.{ending} and [registry_comodel]
    returns l10n_br_sped.{module}.{ending}, for the last dotted part of
    the last type name, its double quotes taken out. *)
Theorem registry_comodel_concrete (self : Filters)
    (type_names : list string) (t mod_ : string) :
  last type_names = Some t ->
  flt_schema self = "l10n_br_sped." ++ mod_ ->
  let n := default "" (last (Py.split (Py.replace t (String dq "") "") ".")) in
  let x := str_lower (Py.slice (filters_class_name n) (Some (-4)) None) in
  ~ In "."%char (list_ascii_of_string mod_) ->
  ~ In "."%char (list_ascii_of_string (flt_version self)) ->
  ~ In "."%char (list_ascii_of_string x) ->
  registry_name filters_class_name self n =
    "l10n_br_sped." ++ mod_ ++ "." ++ flt_version self ++ "." ++ x /\
  registry_comodel filters_class_name self type_names =
    Ok ("l10n_br_sped." ++ mod_ ++ "." ++ x).
Proof.
  intros Ht Hschema n x. subst x n. unfold registry_comodel. rewrite Ht.
  destruct (last (Py.split (Py.replace t (String dq "") "") ".")) as [n|]
    eqn:Hlast.
  2:{ apply last_None in Hlast.
      pose proof (split_go_nonempty "." (Py.replace t (String dq "") "") "")
        as Hlen.
      unfold Py.split in Hlast. rewrite Hlast in Hlen. simpl in Hlen. lia. }
  cbn [default]. intros Hmod Hver Hx.
  set (x := str_lower (Py.slice (filters_class_name n) (Some (-4)) None)) in *.
  assert (Hname : registry_name filters_class_name self n =
            "l10n_br_sped." ++ mod_ ++ "." ++ flt_version self ++ "." ++ x).
  { unfold registry_name. rewrite Hschema. fold x. by rewrite !sapp_assoc. }
  split; [done|].
  rewrite Hname. unfold Py.split.
  change ("l10n_br_sped." ++ mod_ ++ "." ++ flt_version self ++ "." ++ x)
    with ("l10n_br_sped"
          ++ String "." (mod_ ++ String "." (flt_version self ++ String "." x))).
  rewrite split_go_part, split_go_part, split_go_part, split_go_clean;
    [|done|done|done|vm_compute; intuition discriminate].
  rewrite !rev_rev_app. unfold last_part. simpl.
  by rewrite ?sapp_assoc.
Qed.

End Comodel.

(** ** get_structure *)

Section StructureFacts.
Context `{External}.

Lemma structure_line_raise reg sd e :
  structure_line reg sd = Raise e ->
  e = IndexError /\ reg_level reg = 1 /\ reg_code reg = "".
Proof.
  unfold structure_line.
  destruct (reg_level reg =? 0); [done|].
  destruct (reg_level reg =? 1) eqn:E1; [|done].
  apply Z.eqb_eq in E1.
  destruct (_ && _); [|done].
  destruct (Py.first_char (reg_code reg)) as [c|e'] eqn:Hc; [done|].
  simpl. intros [= ->]. by apply first_char_raise in Hc as [-> Hc].
Qed.

Lemma structure_loop_spec mod_ regs0 n : forall a st structure,
  (a + n = length regs0)%nat ->
  st = (((fun r => set_short_desc (short_desc_of mod_ r) r) <$> take a regs0)
        ++ drop a regs0)%list ->
  match structure_loop mod_ (seq a n) st structure with
  | Ok (regs', structure') =>
      regs' = (fun r => set_short_desc (short_desc_of mod_ r) r) <$> regs0 /\
      exists t, structure' = structure ++ t
  | Raise e =>
      e = IndexError /\
      Exists (fun r => reg_level r = 1 /\ reg_code r = "") regs0
  end.
Proof.
  induction n as [|n IH]; intros a st structure Hlen Hst.
  { simpl. rewrite Hst, take_ge, drop_ge, app_nil_r by lia.
    split; [done|]. exists "". by rewrite sapp_nil_r. }
  assert (Ha : (a < length regs0)%nat) by lia.
  destruct (lookup_lt_is_Some_2 regs0 a Ha) as [r Hr].
  assert (Hsta : st !! a = Some r).
  { rewrite Hst, lookup_app_r; rewrite length_fmap, length_take; [|lia].
    rewrite lookup_drop. rewrite <- Hr. f_equal. lia. }
  cbn [seq structure_loop]. rewrite Hsta.
  destruct (structure_line r (short_desc_of mod_ r)) as [line|e] eqn:Hline.
  2:{ cbn [mbind result_bind].
      apply structure_line_raise in Hline as (-> & Hl & Hc).
      split; [done|]. apply Exists_exists. exists r.
      split; [by eapply list_elem_of_lookup_2|done]. }
  cbn [mbind result_bind].
  specialize (IH (S a)
                (alter (set_short_desc (short_desc_of mod_ r)) a st)
                (structure ++ line) ltac:(lia)).
  destruct (structure_loop mod_ (seq (S a) n) _ _) as [[regs' s']|e].
  - destruct IH as [Hregs [t Ht]].
    + rewrite Hst. rewrite (take_S_r _ _ _ Hr), fmap_app.
      rewrite (drop_S _ _ _ Hr). cbn [fmap list_fmap].
      rewrite <- app_assoc. cbn [app].
      rewrite alter_app_r_alt; rewrite length_fmap, length_take; [|lia].
      replace (a - a `min` length regs0)%nat with 0%nat by lia. done.
    + split; [done|]. exists (line ++ t). by rewrite Ht, sapp_assoc.
  - apply IH.
    rewrite Hst. rewrite (take_S_r _ _ _ Hr), fmap_app.
    rewrite (drop_S _ _ _ Hr). cbn [fmap list_fmap].
    rewrite <- app_assoc. cbn [app].
    rewrite alter_app_r_alt; rewrite length_fmap, length_take; [|lia].
    replace (a - a `min` length regs0)%nat with 0%nat by lia. done.
Qed.

(** X16.  [get_structure] changes nothing of the registers but the short
    description, which it sets for every register of the list, block
    markers and bloco 9 included; the text it returns starts with
    STRUCTURE SPED and the module in upper case; and it raises only an
    IndexError, and only when a register of level 1 has an empty code. *)
Theorem get_structure_short_desc (mod_ : string) (regs : list register) :
  match get_structure mod_ regs with
  | Ok (regs', structure) =>
      regs' = (fun r => set_short_desc (short_desc_of mod_ r) r) <$> regs /\
      Py.startswith structure ("STRUCTURE SPED " ++ str_upper mod_) = true
  | Raise e =>
      e = IndexError /\
      Exists (fun r => reg_level r = 1 /\ reg_code r = "") regs
  end.
Proof.
  unfold get_structure.
  pose proof (structure_loop_spec mod_ regs (length regs) 0 regs
                ("STRUCTURE SPED " ++ str_upper mod_) eq_refl) as Hspec.
  rewrite take_0, drop_0 in Hspec. specialize (Hspec eq_refl).
  destruct (structure_loop _ _ _ _) as [[regs' s]|e]; [|done].
  destruct Hspec as [-> [t ->]]. split; [done|].
  unfold Py.startswith. apply prefix_app.
Qed.

End StructureFacts.

(** ** The heaps through the register loop *)

Lemma py_int_raise s e : Py.int s = Raise e -> e = ValueError.
Proof. unfold Py.int. destruct (Py.int_chars _); [done|]. by intros [= <-]. Qed.

Lemma bad_decimal_rest f f' :
  fld_rest f' = fld_rest f -> bad_decimal f' -> bad_decimal f.
Proof.
  unfold fld_rest, bad_decimal. intros [= _ _ _ _ Hd _ _ _ _]. by rewrite Hd.
Qed.

Lemma field_attrs_raise fields : forall flds src attrs e,
  field_attrs fields flds src attrs = Raise e ->
  e = ValueError /\ Exists bad_decimal flds.
Proof.
  induction fields as [|j fields IH]; intros flds src attrs e Hrun; [done|].
  cbn [field_attrs] in Hrun.
  destruct (flds !! j) as [f0|] eqn:Hf0; [|done].
  destruct (String.eqb (fld_code f0) "REG"); [by apply IH in Hrun|].
  destruct (field_types (default_type f0)) as [tys|e'] eqn:Hty.
  - simpl in Hrun. apply IH in Hrun as [-> Hbad]. split; [done|].
    apply Exists_exists in Hbad as (f & Hf & Hb).
    apply list_elem_of_lookup in Hf as [k Hk].
    apply Exists_exists.
    destruct (decide (k = j)) as [->|Hne].
    + rewrite list_lookup_insert_eq in Hk by (by eapply lookup_lt_Some).
      injection Hk as <-. exists f0.
      split; [by eapply list_elem_of_lookup_2|].
      eapply bad_decimal_rest; [|exact Hb].
      apply typed_rest, typed_default.
    + rewrite list_lookup_insert_ne in Hk by done.
      exists f. split; [by eapply list_elem_of_lookup_2|done].
  - simpl in Hrun. injection Hrun as ->.
    apply field_types_raises in Hty as (_ & _ & d & Hd & Hne & Hint).
    pose proof (py_int_raise _ _ Hint) as ->. split; [done|].
    apply Exists_exists. exists f0.
    split; [by eapply list_elem_of_lookup_2|]. by exists d.
Qed.

Lemma register_field_attrs_raise code flds src e :
  register_field_attrs code flds src = Raise e ->
  e = ValueError /\ Exists bad_decimal flds.
Proof.
  unfold register_field_attrs, dedup_register_fields. intros Hrun.
  destruct (fields_of_register_spec code flds) as (Hnd & Hval & _).
  destruct (unique_field_codes_spec (fields_of_register code flds) ∅ []
              flds Hnd Hval) as (flds1 & Hrun1 & Hlen1 & _ & _).
  pose proof (unique_field_codes_frame (fields_of_register code flds) ∅ []
                flds Hnd) as Hframe1.
  rewrite Hrun1 in Hrun, Hframe1. simpl in Hrun, Hframe1.
  apply field_attrs_raise in Hrun as [-> Hbad]. split; [done|].
  apply Exists_exists in Hbad as (f1 & Hf1 & Hb).
  apply list_elem_of_lookup in Hf1 as [k Hk].
  destruct (lookup_lt_is_Some_2 flds k) as [f Hf].
  { apply lookup_lt_Some in Hk. lia. }
  destruct (Hframe1 k f Hf) as (f1' & Hf1' & _ & Hren).
  rewrite Hk in Hf1'. injection Hf1' as <-.
  apply Exists_exists. exists f. split; [by eapply list_elem_of_lookup_2|].
  eapply bad_decimal_rest; [|exact Hb]. by apply renamed_rest.
Qed.

Section Heaps.
Context `{External}.

Lemma described_trans mod_ r r' r'' :
  described mod_ r r' -> described mod_ r' r'' -> described mod_ r r''.
Proof.
  unfold described. intros [->| ->] [->| ->]; auto.
Qed.

Lemma described_code mod_ r r' : described mod_ r r' -> reg_code r' = reg_code r.
Proof. by intros [->| ->]. Qed.

(** What one round leaves of the two heaps. *)
Lemma one_register_heaps mod_ version i g fl g' :
  one_register mod_ version i g = Ok (fl, g') ->
  length (g_registers g') = length (g_registers g) /\
  (forall k r, g_registers g !! k = Some r ->
     exists r', g_registers g' !! k = Some r' /\ described mod_ r r') /\
  length (g_fields g') = length (g_fields g) /\
  (forall k f, g_fields g !! k = Some f ->
     exists f', g_fields g' !! k = Some f' /\ fld_rest f' = fld_rest f).
Proof.
  assert (Hsame : length (g_registers g) = length (g_registers g) /\
    (forall k r, g_registers g !! k = Some r ->
       exists r', g_registers g !! k = Some r' /\ described mod_ r r') /\
    length (g_fields g) = length (g_fields g) /\
    (forall k f, g_fields g !! k = Some f ->
       exists f', g_fields g !! k = Some f' /\ fld_rest f' = fld_rest f)).
  { split; [done|]. split; [|split; [done|]].
    - intros k r Hr. exists r. split; [done|by left].
    - intros k f Hf. by exists f. }
  unfold one_register.
  destruct (g_registers g !! i) as [register|] eqn:Hreg;
    [|by intros [= <- <-]].
  destruct (is_block_marker register); [by intros [= <- <-]|].
  destruct (Py.first_char (reg_code register)) as [c|e]; [|done].
  cbn [mbind result_bind].
  destruct (String.eqb c "9"); [by intros [= <- <-]|].
  match goal with
  | |- context [register_field_attrs ?code ?flds ?src] =>
      destruct (register_field_attrs code flds src)
        as [[[fields1 concrete2] attrs]|e] eqn:Hpass; [|done]
  end.
  cbn [mbind result_bind]. intros [= <- <-]. cbn [g_registers g_fields].
  destruct (register_field_attrs_steps _ _ _ _ _ _ Hpass) as [Hlen Hall].
  split; [by rewrite length_alter|]. split; [|split; [done|]].
  - intros k r Hr. destruct (decide (k = i)) as [->|Hne].
    + rewrite list_lookup_alter_eq, Hr. eexists. split; [done|].
      rewrite Hreg in Hr. injection Hr as <-. by right.
    + rewrite list_lookup_alter_ne by done. exists r. split; [done|by left].
  - intros k f Hf.
    destruct (Hall k f Hf) as (f1 & f' & Hf' & Hren & Hty & _).
    exists f'. split; [done|].
    by rewrite (typed_rest _ _ Hty), (renamed_rest _ _ Hren).
Qed.

Lemma run_registers_heaps mod_ version positions : forall g g',
  run_registers mod_ version positions g = Ok g' ->
  length (g_registers g') = length (g_registers g) /\
  (forall k r, g_registers g !! k = Some r ->
     exists r', g_registers g' !! k = Some r' /\ described mod_ r r') /\
  length (g_fields g') = length (g_fields g) /\
  (forall k f, g_fields g !! k = Some f ->
     exists f', g_fields g' !! k = Some f' /\ fld_rest f' = fld_rest f).
Proof.
  induction positions as [|i positions IH]; intros g g' Hrun.
  { simpl in Hrun. injection Hrun as <-.
    split; [done|]. split; [|split; [done|]].
    - intros k r Hr. exists r. split; [done|by left].
    - intros k f Hf. by exists f. }
  cbn [run_registers] in Hrun.
  destruct (one_register mod_ version i g) as [[fl g1]|e] eqn:Hone; [|done].
  pose proof (one_register_heaps _ _ _ _ _ _ Hone) as (Hl1 & Hr1 & Hm1 & Hf1).
  destruct fl.
  - destruct (IH _ _ Hrun) as (Hl2 & Hr2 & Hm2 & Hf2).
    split; [congruence|]. split; [|split; [congruence|]].
    + intros k r Hr. destruct (Hr1 k r Hr) as (r1 & Hk1 & Hd1).
      destruct (Hr2 k r1 Hk1) as (r2 & Hk2 & Hd2).
      exists r2. split; [done|]. by eapply described_trans.
    + intros k f Hf. destruct (Hf1 k f Hf) as (f1 & Hk1 & Hd1).
      destruct (Hf2 k f1 Hk1) as (f2 & Hk2 & Hd2).
      exists f2. split; [done|]. congruence.
  - by injection Hrun as <-.
Qed.

(** X17.  The register loop of a module hands the filters the registers
    that [collect_register_children] linked, in the same order and with
    the parents and children as they were linked: of a register it
    changes the short description alone.  Of the shared fields it changes
    nothing but the code and the type: none is added or dropped, and each
    keeps its register, index, description, length, decimal and the
    required entries. *)
Theorem generate_registers_heaps (mod_ : string) (year : Z) (g : gen) :
  generate_registers mod_ year = Ok g ->
  exists regs, module_registers mod_ year = Ok regs /\
    length (g_registers g) = length regs /\
    (forall k r, regs !! k = Some r ->
       exists r', g_registers g !! k = Some r' /\
         (r' = r \/ r' = set_short_desc (short_desc_of mod_ r) r)) /\
    length (g_fields g) = length (get_fields mod_ year) /\
    (forall k f, get_fields mod_ year !! k = Some f ->
       exists f', g_fields g !! k = Some f' /\ fld_rest f' = fld_rest f).
Proof.
  unfold generate_registers.
  destruct (module_registers mod_ year) as [regs|e]; [|done].
  cbn [mbind result_bind]. intros Hrun. exists regs. split; [done|].
  apply run_registers_heaps in Hrun. exact Hrun.
Qed.

Lemma run_registers_raise mod_ version positions : forall g e,
  Forall has_code (g_registers g) ->
  run_registers mod_ version positions g = Raise e ->
  e = ValueError /\ Exists bad_decimal (g_fields g).
Proof.
  induction positions as [|i positions IH]; intros g e Hcodes Hrun; [done|].
  cbn [run_registers] in Hrun.
  destruct (one_register mod_ version i g) as [[fl g1]|e1] eqn:Hone.
  - destruct fl; [|done].
    pose proof (one_register_heaps _ _ _ _ _ _ Hone) as (Hl1 & Hr1 & Hm1 & Hf1).
    apply IH in Hrun as [-> Hbad].
    + split; [done|].
      apply Exists_exists in Hbad as (f1 & Hin & Hb).
      apply list_elem_of_lookup in Hin as [k Hk].
      destruct (lookup_lt_is_Some_2 (g_fields g) k) as [f Hf].
      { apply lookup_lt_Some in Hk. lia. }
      destruct (Hf1 k f Hf) as (f1' & Hk' & Hrest).
      rewrite Hk in Hk'. injection Hk' as <-.
      apply Exists_exists. exists f.
      split; [by eapply list_elem_of_lookup_2|].
      by eapply bad_decimal_rest.
    + apply Forall_lookup. intros k r1 Hk.
      destruct (lookup_lt_is_Some_2 (g_registers g) k) as [r Hr].
      { apply lookup_lt_Some in Hk. lia. }
      destruct (Hr1 k r Hr) as (r1' & Hk' & Hd).
      rewrite Hk in Hk'. injection Hk' as <-.
      unfold has_code. rewrite (described_code _ _ _ Hd).
      by apply (Forall_lookup_1 _ _ _ _ Hcodes Hr).
  - injection Hrun as ->. unfold one_register in Hone.
    destruct (g_registers g !! i) as [register|] eqn:Hreg; [|done].
    destruct (is_block_marker register); [done|].
    pose proof (Forall_lookup_1 _ _ _ _ Hcodes Hreg) as Hcode.
    destruct (has_code_first_char register Hcode) as [c Hc].
    rewrite Hc in Hone. cbn [mbind result_bind] in Hone.
    destruct (String.eqb c "9"); [done|].
    match type of Hone with
    | context [register_field_attrs ?code ?flds ?src] =>
        destruct (register_field_attrs code flds src)
          as [[[fields1 concrete2] attrs]|e'] eqn:Hpass; [done|]
    end.
    cbn [mbind result_bind] in Hone. injection Hone as ->.
    by apply register_field_attrs_raise in Hpass.
Qed.

(** A module that raises does so while its registers are filtered and
    sorted, in the register loop, or while its classes are rendered. *)
Lemma generate_module_cases (year : Z) (all_complex_types : list Class)
    (mod_ : string) (e : exn) :
  generate_module year all_complex_types mod_ = Raise e ->
  sorted_registers mod_ (get_registers mod_ year) = Raise e \/
  (exists regs, module_registers mod_ year = Ok regs /\
     Forall has_code regs /\
     run_registers mod_ (get_version mod_ year) (seq 0 (length regs))
       (initial_gen mod_ regs (get_fields mod_ year)) = Raise e) \/
  (exists g registers structure,
     generate_registers mod_ year = Ok g /\
     get_structure mod_ (g_registers g) = Ok (registers, structure) /\
     render_classes
       (module_filters mod_ (get_version mod_ year) registers (g_fields g)
          (all_complex_types ++ g_classes g)%list)
       (g_classes g) = Raise e).
Proof.
  unfold generate_module, generate_registers.
  destruct (sorted_registers mod_ (get_registers mod_ year)) as [sorted|e']
    eqn:Hsorted.
  2:{ unfold module_registers. rewrite Hsorted.
      cbn [mbind result_bind]. intros [= <-]. by left. }
  pose proof (sorted_registers_codes _ _ _ Hsorted) as Hraw.
  destruct (module_registers_ok mod_ year Hraw) as (regs & Hmod & Hcodes).
  rewrite Hmod. cbn [mbind result_bind].
  destruct (run_registers _ _ _ _) as [g|e'] eqn:Hrun.
  2:{ cbn [mbind result_bind]. intros [= <-]. right. left. by exists regs. }
  cbn [mbind result_bind]. unfold finish_module.
  pose proof (run_registers_heaps _ _ _ _ _ Hrun) as (Hl & Hr & _ & _).
  cbn [initial_gen g_registers] in Hl, Hr.
  pose proof (structure_loop_spec mod_ (g_registers g)
                (length (g_registers g)) 0 (g_registers g)
                ("STRUCTURE SPED " ++ str_upper mod_) eq_refl) as Hspec.
  rewrite take_0, drop_0 in Hspec. specialize (Hspec eq_refl).
  unfold get_structure.
  destruct (structure_loop _ _ _ _) as [[rs st]|e'] eqn:Hst.
  { cbn [mbind result_bind].
    destruct (render_classes _ _) as [text|e'] eqn:Hrender.
    - cbn [mbind result_bind]. by destruct (format_sources _ _).
    - cbn [mbind result_bind]. intros [= <-]. right. right.
      by exists g, rs, st. }
  cbn [mbind result_bind]. intros [= <-].
  destruct Hspec as [_ Hbad]. exfalso.
  apply Exists_exists in Hbad as (r' & Hin & _ & Hempty).
  apply list_elem_of_lookup in Hin as [k Hk].
  destruct (lookup_lt_is_Some_2 regs k) as [r Hrk].
  { apply lookup_lt_Some in Hk. lia. }
  destruct (Hr k r Hrk) as (r'' & Hk' & Hd).
  rewrite Hk in Hk'. injection Hk' as <-.
  rewrite (described_code _ _ _ Hd) in Hempty.
  by apply (Forall_lookup_1 _ _ _ _ Hcodes Hrk).
Qed.

(** X18.  What stops a module before its files are written: an exception
    of the filtering and the sort, which is an IndexError and means that
    a register of the module has an empty code; an exception of the
    register loop, which is a ValueError and means that a field of the
    module has a decimal entry that is set, not empty and no integer
    literal; or an exception of [render_classes], which runs the methods
    of SpedFilters on the classes of the module once the register loop
    and [get_structure] have returned.  The linking and [get_structure]
    raise nothing. *)
Theorem generate_module_raises (year : Z) (all_complex_types : list Class)
    (mod_ : string) (e : exn) :
  generate_module year all_complex_types mod_ = Raise e ->
  (e = IndexError /\
   sorted_registers mod_ (get_registers mod_ year) = Raise e /\
   Exists (fun r => reg_code r = "") (get_registers mod_ year)) \/
  (e = ValueError /\
   (exists regs, module_registers mod_ year = Ok regs) /\
   generate_registers mod_ year = Raise e /\
   Exists bad_decimal (get_fields mod_ year)) \/
  (exists g registers structure,
     generate_registers mod_ year = Ok g /\
     get_structure mod_ (g_registers g) = Ok (registers, structure) /\
     render_classes
       (module_filters mod_ (get_version mod_ year) registers (g_fields g)
          (all_complex_types ++ g_classes g)%list)
       (g_classes g) = Raise e).
Proof.
  intros Hrun.
  destruct (generate_module_cases _ _ _ _ Hrun)
    as [Hsort|[(regs & Hregs & Hcodes & Hloop)|Hrender]].
  - left. destruct (sorted_registers_raise mod_ _ _ Hsort) as [-> Hempty].
    done.
  - right. left.
    destruct (run_registers_raise mod_ (get_version mod_ year)
                (seq 0 (length regs))
                (initial_gen mod_ regs (get_fields mod_ year)) e
                Hcodes Hloop) as [-> Hbad].
    split; [done|]. split; [by exists regs|]. split; [|done].
    unfold generate_registers. rewrite Hregs. cbn [mbind result_bind].
    by rewrite Hloop.
  - right. by right.
Qed.

End Heaps.

(** ** main *)

Section MainFacts.
Context `{External}.



End MainFacts.

(** ** The digits of a float field, written and read back *)

Lemma tdec_digits (z : Z) :
  0 <= z <= 99 ->
  Py.startswith (tdec_of z) "TDec_" = true /\
  Py.int (Py.slice (tdec_of z) (Some 7) (Some 9)) = Ok z /\
  Py.int (Py.slice (tdec_of z) (Some 5) (Some 7)) = Ok 16.
Proof.
  intros Hz.
  assert (Hall : forallb tdec_reads_back (seq 0 100) = true)
    by (vm_compute; reflexivity).
  rewrite forallb_forall in Hall.
  specialize (Hall (Z.to_nat z)). rewrite in_seq in Hall.
  specialize (Hall ltac:(lia)). unfold tdec_reads_back in Hall.
  rewrite Z2Nat.id in Hall by lia.
  apply andb_true_iff in Hall as [Hall H16].
  apply andb_true_iff in Hall as [Hstart Hscale].
  split; [done|]. split.
  - destruct (Py.int (Py.slice (tdec_of z) (Some 7) (Some 9))) as [v|];
      [|done]. apply Z.eqb_eq in Hscale. by subst.
  - destruct (Py.int (Py.slice (tdec_of z) (Some 5) (Some 7))) as [v|];
      [|done]. apply Z.eqb_eq in H16. by subst.
Qed.

Section Digits.
Context `{External}.

(** X20.  The xsd_type that [_extract_field_attributes] writes for a
    float attribute whose field has a decimal entry between 0 and 99 is
    read back by [_extract_number_attrs] as it was meant: the precision
    is 16 and the scale is the decimal entry, so the kwargs get digits
    (16, decimal), or the currency field instead when the decimal entry
    is 2 and the name starts with VL_, VAL_ or VALOR. *)
Theorem float_digits_round_trip (field : field) (attr : Attr)
    (kwargs : list (string * kwarg)) (t : AttrType) (ts : list AttrType)
    (d : string) (z : Z) :
  attr_types attr = t :: ts -> datatype_code t = Some "float" ->
  fld_decimal field = Some d -> d <> "" -> Py.int d = Ok z ->
  0 <= z <= 99 ->
  exists kw,
    simple_kwargs field attr kwargs = Ok kw /\
    od_get "xsd_type" kw = Some (KStr (tdec_of z)) /\
    _extract_number_attrs attr kw =
      Ok (if (z =? 2) && is_value_name (attr_name attr)
          then od_set "currency_field" currency_kwarg kw
          else od_set "digits" (KDigits 16 z) kw).
Proof.
  intros Hty Hcode Hd Hne Hint Hz.
  destruct (tdec_digits z Hz) as (Hstart & Hscale & Hprec).
  assert (Htruthy : Py.truthy (Some d) = true).
  { unfold Py.truthy. apply negb_true_iff. by apply String.eqb_neq. }
  unfold simple_kwargs. rewrite Hty, Hcode, Hd, Htruthy.
  change (String.eqb "float" "float") with true.
  cbn [andb default from_option id]. unfold id. rewrite Hint.
  cbn [mbind result_bind]. fold (tdec_of z).
  eexists. split; [reflexivity|].
  split; [by rewrite od_get_set_eq|].
  unfold _extract_number_attrs, python_type_of, xsd_type_of.
  rewrite Hty, Hcode. cbn [mbind result_bind].
  change (is_number_type "float") with true. cbn iota.
  rewrite od_get_set_eq. cbn [mbind result_bind].
  rewrite Hstart, Hscale. cbn [mbind result_bind]. rewrite Hprec.
  cbn [mbind result_bind]. unfold is_value_name.
  destruct (z =? 2), (Py.startswith (attr_name attr) "VL_"),
    (Py.startswith (attr_name attr) "VAL_"),
    (Py.startswith (attr_name attr) "VALOR"); reflexivity.
Qed.

End Digits.

(** ** The line that lists a field *)

Lemma length_sapp (s t : string) :
  String.length (s ++ t) = (String.length s + String.length t)%nat.
Proof. induction s as [|c s IH]; simpl; [done|]. by rewrite IH. Qed.

Lemma length_lit (s : string) : String.length (lit s) = String.length s.
Proof. induction s as [|c s IH]; simpl; [done|]. by rewrite IH. Qed.

Lemma length_substring_0 (s : string) : forall m,
  String.length (substring 0 m s) = (m `min` String.length s)%nat.
Proof.
  induction s as [|c s IH]; intros [|m]; simpl; try done. by rewrite IH.
Qed.

(** X21.  The line that lists a field in the concrete models source stays
    within the 88 columns it is cut for: when the code of the field has at
    most 59 characters the line, its line feed included, has at most 87
    characters, 25 more than code and description together when the
    description is short enough to be kept whole, and 87 exactly when the
    description is cut and three dots are put in its place. *)
Theorem field_comment_length (f : field) :
  (String.length (fld_code f) <= 59)%nat ->
  String.length (field_comment f) =
    (if (String.length (fld_code f) + String.length (fld_desc f) <=? 59)%nat
     then 25 + String.length (fld_code f) + String.length (fld_desc f)
     else 87)%nat /\
  (String.length (field_comment f) <= 87)%nat.
Proof.
  intros Hc.
  assert (Hlen : String.length (field_comment f) =
    (if (String.length (fld_code f) + String.length (fld_desc f) <=? 59)%nat
     then 25 + String.length (fld_code f) + String.length (fld_desc f)
     else 87)%nat).
  { unfold field_comment, Py.slice, Py.clamp, Py.len.
    rewrite !length_sapp, !length_lit.
    set (c := String.length (fld_code f)) in *.
    set (d := String.length (fld_desc f)) in *.
    replace (Z.of_nat d <? 0) with false by (symmetry; apply Z.ltb_ge; lia).
    change (0 <? 0) with false. cbn iota.
    replace (88 - Z.of_nat c - 29 <? 0) with false
      by (symmetry; apply Z.ltb_ge; lia).
    replace (Z.to_nat (Z.of_nat d `min` 0)) with 0%nat by lia.
    rewrite length_substring_0. fold d.
    cbn [String.length].
    destruct (Nat.leb_spec (c + d) 59) as [Hle|Hgt].
    - replace (88 - Z.of_nat c - 29 <? Z.of_nat d) with false
        by (symmetry; apply Z.ltb_ge; lia).
      cbn [String.length]. lia.
    - replace (88 - Z.of_nat c - 29 <? Z.of_nat d) with true
        by (symmetry; apply Z.ltb_lt; lia).
      cbn [String.length]. lia. }
  split; [done|]. rewrite Hlen.
  destruct (Nat.leb_spec (String.length (fld_code f)
                          + String.length (fld_desc f)) 59); lia.
Qed.

Lemma field_comment_length_witness :
  String.length
    (field_comment (mk_field "C170" "NUM_ITEM" 4 "Numero do item"
                      (Some "int") (Some "3") None)) = 47%nat /\
  (String.length
     (field_comment (mk_field "C170" "NUM_ITEM" 4 "Numero do item"
                       (Some "int") (Some "3") None)) <= 87)%nat.
Proof.
  exact (field_comment_length
           (mk_field "C170" "NUM_ITEM" 4 "Numero do item"
              (Some "int") (Some "3") None) ltac:(simpl; lia)).
Defined.

(** ** The properties above on the sample data *)

Lemma collect_register_children_children_entries_witness :
  exists r', collect_register_children sample_registers !! 2%nat = Some r' /\
    exists o2m m2o,
      reg_children_o2m r' = Some o2m /\ reg_children_m2o r' = Some m2o /\
      (forall k, In k o2m ->
         level_at sample_registers k = 2 + 1 /\
         m2o_at sample_registers k = false) /\
      (forall k, In k m2o ->
         level_at sample_registers k = 2 + 1 /\
         m2o_at sample_registers k = true).
Proof.
  exact (collect_register_children_children_entries sample_registers 2
           (mk_register "C100" 2 "1:N" "Nota fiscal") eq_refl).
Defined.

Lemma parent_link_kwargs_witness :
  exists kwargs labels,
    _extract_field_attributes (H := sample_external) sample_filters
      [sample_class] None sample_parent_attr = Ok (kwargs, labels) /\
    od_get "ondelete" kwargs = Some (KStr "cascade") /\
    od_get "sped_card" kwargs = None /\
    od_get "xsd_type" kwargs = None /\
    od_get "sped_length" kwargs = None.
Proof.
  apply (parent_link_kwargs (H := sample_external) sample_filters
           [sample_class] None sample_linked sample_child sample_parent_attr).
  - apply list_elem_of_In. vm_compute. tauto.
  - done.
Defined.

Lemma child_link_kwargs_witness :
  exists kwargs labels,
    _extract_field_attributes (H := sample_external) sample_filters
      [sample_class] None
      (child_attr (mk_register "C170" 3 "1;1" "Itens do documento"))
      = Ok (kwargs, labels) /\
    od_get "sped_card" kwargs = Some (KStr "1;1") /\
    (od_get "sped_required" kwargs = Some (KBool true) <->
     None = Some "Sim") /\
    od_get "ondelete" kwargs = None.
Proof.
  apply (child_link_kwargs (H := sample_external) sample_filters
           [sample_class] None
           (mk_register "C170" 3 "1;1" "Itens do documento")).
  - vm_compute. intuition discriminate.
  - vm_compute. intuition discriminate.
  - done.
Defined.

Lemma class_properties_level_witness :
  (class_properties (H := sample_external) sample_filters sample_class
     = Raise IndexError <->
   forall x, x ∈ flt_registers sample_filters -> reg_code x <> "C170") /\
  (NoDup (reg_code <$> flt_registers sample_filters) ->
   forall r, r ∈ flt_registers sample_filters -> reg_code r = "C170" ->
     class_properties (H := sample_external) sample_filters sample_class =
     Ok ("_sped_level = " ++ Py.str_of_int (reg_level r))).
Proof.
  exact (class_properties_level (H := sample_external) sample_filters
           sample_class "C170" eq_refl eq_refl).
Defined.

Lemma odoo_inherit_model_declaration_witness :
  odoo_inherit_model (H := sample_external) sample_filters sample_class =
    (if Py.contains "C170" "0000" then "l10n_br_sped.declaration"
     else flt_inherit_model sample_filters) /\
  (String.length "C170" = 4%nat ->
   Py.contains "C170" "0000" = String.eqb "C170" "0000").
Proof.
  exact (odoo_inherit_model_declaration (H := sample_external) sample_filters
           sample_class "C170" eq_refl).
Defined.

Lemma registry_comodel_concrete_witness :
  registry_name (H := sample_external) (fun s => s) sample_filters
    "RegistroC170" = "l10n_br_sped.efd_icms_ipi.19.c170" /\
  registry_comodel (H := sample_external) (fun s => s) sample_filters
    ["spec.RegistroC100"; "spec.RegistroC170"] =
    Ok "l10n_br_sped.efd_icms_ipi.c170".
Proof.
  apply (registry_comodel_concrete (H := sample_external) (fun s => s)
           sample_filters ["spec.RegistroC100"; "spec.RegistroC170"]
           "spec.RegistroC170" "efd_icms_ipi" eq_refl eq_refl);
    vm_compute; intuition discriminate.
Defined.

Lemma generate_registers_heaps_witness :
  exists regs,
    module_registers (H := sample_external) "efd_icms_ipi" 2023 = Ok regs /\
    length (g_registers sample_gen) = length regs /\
    (forall k r, regs !! k = Some r ->
       exists r', g_registers sample_gen !! k = Some r' /\
         (r' = r \/
          r' = set_short_desc
                 (short_desc_of (H := sample_external) "efd_icms_ipi" r) r)) /\
    length (g_fields sample_gen) = length sample_fields /\
    (forall k f, sample_fields !! k = Some f ->
       exists f', g_fields sample_gen !! k = Some f' /\
         fld_rest f' = fld_rest f).
Proof.
  exact (generate_registers_heaps (H := sample_external) "efd_icms_ipi" 2023
           sample_gen sample_gen_ok).
Defined.

Lemma generate_module_raises_witness :
  generate_module (H := nameless_external) 2023 [] "efd_icms_ipi"
    = Raise IndexError /\
  sorted_registers "efd_icms_ipi"
    (get_registers (External := nameless_external) "efd_icms_ipi" 2023)
    = Raise IndexError /\
  Exists (fun r => reg_code r = "")
    (get_registers (External := nameless_external) "efd_icms_ipi" 2023).
Proof.
  assert (Hrun : generate_module (H := nameless_external) 2023 []
                   "efd_icms_ipi" = Raise IndexError)
    by (vm_compute; reflexivity).
  split; [exact Hrun|].
  destruct (generate_module_raises (H := nameless_external) 2023 []
              "efd_icms_ipi" IndexError Hrun)
    as [(_ & Hsort & Hempty)|[(Hv & _)|(g & rs & st & Hg & _)]].
  - split; [exact Hsort|exact Hempty].
  - discriminate Hv.
  - exfalso. assert (Hno : generate_registers (H := nameless_external)
                             "efd_icms_ipi" 2023 = Raise IndexError)
      by (vm_compute; reflexivity).
    rewrite Hno in Hg. discriminate Hg.
Defined.

Lemma float_digits_round_trip_witness :
  exists kw,
    simple_kwargs (H := sample_external)
      (mk_field "C170" "ALIQ_PIS" 2 "Aliquota do PIS (em percentual)"
         (Some "float") (Some "8") (Some "4"))
      (float_attr "ALIQ_PIS") [] = Ok kw /\
    od_get "xsd_type" kw = Some (KStr (tdec_of 4)) /\
    _extract_number_attrs (H := sample_external) (float_attr "ALIQ_PIS") kw =
      Ok (if (4 =? 2) && is_value_name "ALIQ_PIS"
          then od_set "currency_field" currency_kwarg kw
          else od_set "digits" (KDigits 16 4) kw).
Proof.
  apply (float_digits_round_trip (H := sample_external)
           (mk_field "C170" "ALIQ_PIS" 2 "Aliquota do PIS (em percentual)"
              (Some "float") (Some "8") (Some "4"))
           (float_attr "ALIQ_PIS") [] (native_type "float") [] "4" 4
           eq_refl eq_refl eq_refl);
    [done|reflexivity|lia].
Defined.

(** ** The classes handed to the generator *)

Section Classes.
Context `{External}.

Lemma described_refl mod_ regs : Forall2 (described mod_) regs regs.
Proof. apply Forall2_same_length_lookup_2; [done|]. intros i x y Hx Hy.
  rewrite Hx in Hy. injection Hy as <-. by left. Qed.

Lemma described_desc mod_ r r' : described mod_ r r' -> reg_desc r' = reg_desc r.
Proof. by intros [->| ->]. Qed.

Lemma described_links mod_ r r' :
  described mod_ r r' ->
  reg_parent r' = reg_parent r /\
  reg_children_m2o r' = reg_children_m2o r /\
  reg_children_o2m r' = reg_children_o2m r.
Proof. by intros [->| ->]. Qed.

Lemma described_key mod_ r r' : described mod_ r r' -> reg_key r = reg_key r'.
Proof. by intros [->| ->]. Qed.

Lemma described_again mod_ r r' :
  described mod_ r r' ->
  described mod_ r (set_short_desc (short_desc_of mod_ r') r').
Proof.
  intros Hd. right.
  rewrite <- (core_short_desc mod_ r r') by (by eapply described_key).
  by destruct Hd as [->| ->].
Qed.

Lemma described_alter mod_ regs0 st a r :
  Forall2 (described mod_) regs0 st -> st !! a = Some r ->
  Forall2 (described mod_) regs0
    (alter (set_short_desc (short_desc_of mod_ r)) a st).
Proof.
  intros Hall Hr. apply Forall2_same_length_lookup_2.
  { rewrite length_alter. by eapply Forall2_length. }
  intros i x y Hx Hy.
  destruct (decide (a = i)) as [->|Hne].
  - rewrite list_lookup_alter_eq, Hr in Hy. injection Hy as <-.
    apply described_again. by eapply (Forall2_lookup_lr _ _ _ i).
  - rewrite list_lookup_alter_ne in Hy by done.
    by eapply (Forall2_lookup_lr _ _ _ i).
Qed.

Lemma parent_attrs_described mod_ regs0 st r0 r :
  Forall2 (described mod_) regs0 st -> described mod_ r0 r ->
  parent_attrs st r = parent_attrs regs0 r0.
Proof.
  intros Hall Hd. unfold parent_attrs.
  destruct (described_links _ _ _ Hd) as (-> & _ & _).
  rewrite (described_code _ _ _ Hd).
  destruct (reg_parent r0) as [p|]; [|done].
  destruct (regs0 !! p) as [x|] eqn:Hx.
  - destruct (Forall2_lookup_l _ _ _ _ _ Hall Hx) as (y & -> & Hxy).
    by rewrite (described_code _ _ _ Hxy), (described_desc _ _ _ Hxy).
  - destruct (st !! p) as [y|] eqn:Hy; [|done].
    destruct (Forall2_lookup_r _ _ _ _ _ Hall Hy) as (x & Hx' & _).
    congruence.
Qed.

Lemma children_attrs_described mod_ regs0 st r0 r :
  Forall2 (described mod_) regs0 st -> described mod_ r0 r ->
  children_attrs st r = children_attrs regs0 r0.
Proof.
  intros Hall Hd. unfold children_attrs.
  destruct (described_links _ _ _ Hd) as (_ & -> & ->).
  generalize (default [] (reg_children_m2o r0)
              ++ default [] (reg_children_o2m r0))%list.
  intros ks. induction ks as [|k ks IH]; [done|].
  rewrite !omap_cons.
  destruct (regs0 !! k) as [x|] eqn:Hx.
  - destruct (Forall2_lookup_l _ _ _ _ _ Hall Hx) as (y & -> & Hxy).
    rewrite !fmap_cons, IH. f_equal. unfold child_attr.
    by rewrite (described_code _ _ _ Hxy), (described_desc _ _ _ Hxy).
  - destruct (st !! k) as [y|] eqn:Hy; [|done].
    destruct (Forall2_lookup_r _ _ _ _ _ Hall Hy) as (x & Hx' & _).
    congruence.
Qed.

(** The two passes over the fields of a register leave the fields of
    every other register as they are. *)
Lemma register_field_attrs_others code flds src flds' src' attrs c :
  register_field_attrs code flds src = Ok (flds', src', attrs) ->
  c <> code -> register_fields c flds' = register_fields c flds.
Proof.
  intros Hrun Hc.
  destruct (register_field_attrs_steps _ _ _ _ _ _ Hrun) as [Hlen Hstep].
  assert (Hall : Forall2 (fun f f' =>
            fld_register f' = fld_register f /\
            (fld_register f <> code -> f' = f)) flds flds').
  { apply Forall2_same_length_lookup_2; [done|]. intros k f f' Hf Hf'.
    destruct (Hstep k f Hf) as (f1 & f2 & Hf2 & Hren & Htyp & Hsame).
    rewrite Hf' in Hf2. injection Hf2 as <-. split; [|done].
    destruct Htyp as [->|[_ ->]]; by destruct Hren as [->| ->]. }
  clear Hrun Hlen Hstep. unfold register_fields.
  induction Hall as [|f f' l l' [Hreg Hsame] _ IH]; [done|].
  simpl. rewrite Hreg, IH.
  destruct (String.eqb_spec (fld_register f) c) as [Heq|Hne]; [|done].
  f_equal. apply Hsame. by rewrite Heq.
Qed.

Lemma NoDup_fmap_filter {A B} (f : A -> B) (p : A -> bool) (l : list A) :
  NoDup (f <$> l) -> NoDup (f <$> List.filter p l).
Proof.
  induction l as [|x l IH]; [done|]. rewrite fmap_cons, NoDup_cons.
  intros [Hx Hnd]. simpl. destruct (p x); [|by apply IH].
  rewrite fmap_cons. apply NoDup_cons. split; [|by apply IH].
  intros Hin. apply Hx. apply list_elem_of_fmap in Hin as (y & -> & Hy).
  apply list_elem_of_fmap_2.
  by apply list_elem_of_In, List.filter_In in Hy as [Hy%list_elem_of_In _].
Qed.

(** When the codes of the registers of a module are pairwise distinct,
    so are those of its sorted list. *)
Lemma module_registers_distinct mod_ year regs :
  NoDup (reg_code <$> get_registers mod_ year) ->
  module_registers mod_ year = Ok regs -> NoDup (reg_code <$> regs).
Proof.
  intros Hnd Hregs.
  destruct (module_registers_spec _ _ _ Hregs) as [_ Hperm].
  pose proof (fmap_Permutation
                (fun k : string * Z * string * string => k.1.1.1) _ _ Hperm)
    as Hcodes.
  rewrite <- !list_fmap_compose in Hcodes.
  assert (Hp : reg_code <$> regs ≡ₚ
               reg_code <$> List.filter (survives mod_)
                              (get_registers mod_ year)) by exact Hcodes.
  rewrite Hp. by apply NoDup_fmap_filter.
Qed.

Lemma run_registers_classes mod_ version flds0 regs0 n : forall a g g',
  NoDup (reg_code <$> regs0) ->
  (a + n = length regs0)%nat ->
  Forall2 (described mod_) regs0 (g_registers g) ->
  (forall c, c ∉ reg_code <$> take a regs0 ->
     register_fields c (g_fields g) = register_fields c flds0) ->
  run_registers mod_ version (seq a n) g = Ok g' ->
  exists new, g_classes g' = (g_classes g ++ new)%list /\
    Forall2 (class_of_register flds0 mod_ regs0) (reached (drop a regs0)) new.
Proof.
  induction n as [|n IH]; intros a g g' Hnd Hlen Hall Hinv Hrun.
  { simpl in Hrun. injection Hrun as <-. exists [].
    rewrite drop_ge, app_nil_r by lia. split; [done|]. constructor. }
  assert (Ha : (a < length regs0)%nat) by lia.
  destruct (lookup_lt_is_Some_2 regs0 a Ha) as [r0 Hr0].
  rewrite (drop_S _ _ _ Hr0).
  assert (Htake : reg_code <$> take (S a) regs0 =
                  ((reg_code <$> take a regs0) ++ [reg_code r0])%list).
  { by rewrite (take_S_r _ _ _ Hr0), fmap_app. }
  assert (Hfresh : reg_code r0 ∉ reg_code <$> take a regs0).
  { rewrite <- (take_drop (S a) regs0), fmap_app, Htake in Hnd.
    apply NoDup_app in Hnd as [Hnd _].
    apply NoDup_app in Hnd as (_ & Hnd & _).
    intros Hin. apply (Hnd _ Hin). apply list_elem_of_here. }
  destruct (Forall2_lookup_l _ _ _ _ _ Hall Hr0) as (r & Hr & Hd).
  pose proof (described_key _ _ _ Hd) as Hca.
  cbn [seq run_registers] in Hrun. unfold one_register in Hrun.
  rewrite Hr in Hrun.
  rewrite <- (core_marker _ _ Hca) in Hrun.
  destruct (is_block_marker r0) eqn:Hm.
  { rewrite reached_marker by done.
    apply (IH (S a) g g'); [done|lia|done| |done].
    intros c Hc. apply Hinv. rewrite Htake in Hc.
    by apply not_elem_of_app in Hc as [Hc _]. }
  destruct (Py.first_char (reg_code r)) as [c|e] eqn:Hc; [|done].
  cbn [mbind result_bind] in Hrun. apply first_char_bloco in Hc.
  rewrite <- (core_bloco _ _ Hca) in Hc.
  destruct (String.eqb c "9") eqn:H9.
  { injection Hrun as <-. exists [].
    rewrite reached_stop; [|done|by unfold is_bloco9; rewrite Hc].
    rewrite app_nil_r. split; [done|]. constructor. }
  rewrite reached_next; [|done|by unfold is_bloco9; rewrite Hc].
  pose proof (described_code _ _ _ Hd) as Hcode.
  pose proof (described_desc _ _ _ Hd) as Hdesc.
  destruct (register_field_attrs (reg_code r) (g_fields g) _)
    as [[[fields1 concrete2] attrs]|e] eqn:Hf; [|done].
  cbn [mbind result_bind] in Hrun.
  match type of Hrun with
  | run_registers _ _ _ ?g1 = _ =>
      destruct (IH (S a) g1 g') as (new & Hnew & Hcls);
        [done|lia| | |done|]
  end.
  { cbn [g_registers]. by apply described_alter. }
  { cbn [g_fields]. intros c' Hc'. rewrite Htake in Hc'.
    apply not_elem_of_app in Hc' as [Hc1 Hc2].
    rewrite <- (Hinv c' Hc1).
    apply (register_field_attrs_others _ _ _ _ _ _ _ Hf).
    rewrite Hcode. intros ->. apply Hc2, list_elem_of_here. }
  cbn [g_classes] in Hnew. rewrite <- app_assoc in Hnew.
  eexists. split; [exact Hnew|]. cbn [app].
  constructor; [|done].
  unfold class_of_register.
  cbn [cls_qname cls_tag cls_location cls_help cls_module cls_attrs].
  rewrite Hcode in Hf |- *. rewrite Hdesc.
  repeat (split; [done|]).
  rewrite (register_field_attrs_final _ _ _ _ _ _ Hf).
  unfold final_fields. rewrite (Hinv _ Hfresh).
  rewrite <- app_assoc. f_equal. f_equal.
  - apply (parent_attrs_described mod_); [|done].
    by apply described_alter.
  - apply (children_attrs_described mod_); [|done].
    by apply described_alter.
Qed.

(** X22.  When the codes of the registers of a module are pairwise
    distinct, the classes handed to the generator are, in order, those of
    the registers of the sorted and linked list that are no block markers
    and not of bloco 9; the class of a register is named Registro
    followed by its code, carries its description and the module, and its
    attributes are the attributes of its fields in the list of fields of
    the module, REG left out, under the codes the first pass gives them,
    then the link to its parent if it has one, then the links to its
    many2one children and to its one2many children, all read off the
    links as [collect_register_children] left them: the short
    descriptions the loop writes do not disturb them. *)
Theorem generate_registers_classes (mod_ : string) (year : Z) (g : gen) :
  NoDup (reg_code <$> get_registers mod_ year) ->
  generate_registers mod_ year = Ok g ->
  exists regs, module_registers mod_ year = Ok regs /\
    Forall2 (class_of_register (get_fields mod_ year) mod_ regs)
      (generated regs) (g_classes g).
Proof.
  unfold generate_registers. intros Hnd.
  destruct (module_registers mod_ year) as [regs|e] eqn:Hregs; [|done].
  cbn [mbind result_bind]. intros Hrun. exists regs. split; [done|].
  destruct (module_registers_spec _ _ _ Hregs) as [Hs _].
  destruct (run_registers_classes mod_ (get_version mod_ year)
              (get_fields mod_ year) regs (length regs) 0
              (initial_gen mod_ regs (get_fields mod_ year)) g)
    as (new & Hnew & Hcls);
    [by eapply module_registers_distinct|done|apply described_refl|done|
     done|].
  cbn [initial_gen g_classes app] in Hnew. rewrite Hnew.
  rewrite drop_0, reached_generated in Hcls by done. exact Hcls.
Qed.

Lemma survives_ecd mod_ r :
  mod_ = "ecd" \/ mod_ = "ecf" ->
  survives mod_ r = negb (String.eqb (bloco_of r) "C").
Proof. unfold survives. intros [->| ->]; simpl; by rewrite orb_false_r. Qed.

Lemma prefix_sapp (a p s : string) :
  String.prefix (a ++ p) (a ++ s) = String.prefix p s.
Proof.
  induction a as [|c a IH]; [done|]. simpl.
  by destruct (ascii_dec c c).
Qed.

(** X23.  For the modules ecd and ecf no class is made for a register of
    bloco C: no class of the module has a name that starts with
    RegistroC. *)
Theorem ecd_ecf_no_bloco_c (mod_ : string) (year : Z) (g : gen) (k : Class) :
  mod_ = "ecd" \/ mod_ = "ecf" ->
  generate_registers mod_ year = Ok g -> k ∈ g_classes g ->
  Py.startswith (cls_qname k) "RegistroC" = false.
Proof.
  intros Hmod Hg Hk.
  destruct (generate_registers_spec _ _ _ Hg)
    as (regs & Hregs & _ & _ & Hcls & _).
  destruct (module_registers_spec _ _ _ Hregs) as [_ Hp].
  assert (Hq : cls_qname k ∈ cls_qname <$> g_classes g)
    by (by apply list_elem_of_fmap_2).
  rewrite Hcls in Hq. apply list_elem_of_fmap in Hq as (r & -> & Hr).
  apply list_elem_of_In, List.filter_In in Hr as [Hr _].
  assert (Hkey : reg_key r ∈ reg_key <$> regs)
    by (apply list_elem_of_fmap_2; by apply list_elem_of_In).
  rewrite Hp in Hkey. apply list_elem_of_fmap in Hkey as (r' & Hkk & Hr').
  apply list_elem_of_In, List.filter_In in Hr' as [_ Hsurv].
  rewrite (survives_ecd _ _ Hmod), <- (core_bloco _ _ Hkk) in Hsurv.
  apply negb_true_iff in Hsurv.
  unfold class_qname, bloco_of in *.
  destruct (reg_code r) as [|c s]; [done|].
  transitivity (Ascii.eqb c "C"); [|by rewrite single_eqb in Hsurv].
  unfold Py.startswith.
  change (String.prefix ("Registro" ++ "C") ("Registro" ++ String c s)
          = Ascii.eqb c "C").
  rewrite prefix_sapp. apply (startswith_single c s "C").
Qed.

End Classes.

Section FieldKwargs.
Context `{External}.

Lemma simple_kwargs_raise field attr kwargs e :
  simple_kwargs field attr kwargs = Raise e ->
  e = AttributeError \/ e = ValueError.
Proof.
  unfold simple_kwargs.
  destruct (attr_types attr) as [|t ts]; [done|].
  destruct (datatype_code t) as [code|]; [|intros [= <-]; by left].
  destruct (_ && _); [|done].
  destruct (Py.int _) as [z|e'] eqn:Hint; [done|].
  cbn [mbind result_bind]. intros [= <-]. right.
  by apply py_int_raise in Hint.
Qed.

(** X24.  [_extract_field_attributes] raises no IndexError on an
    attribute the passes of [main] made from a field, when it is handed
    the fields as the passes left them and a class whose name ends in the
    code of the register, provided the name of the attribute is not taken
    for a link: the field is found, and the label is there to be split. *)
Theorem field_attr_kwargs_found (self : Filters) (parents : list Class)
    (obj : Class) (unique_labels : option (gset string)) (code : string)
    (flds : list field) (src src' : string) (attrs : list Attr) (a : Attr)
    (e : exn) :
  register_field_attrs code flds src = Ok (flt_fields self, src', attrs) ->
  a ∈ attrs ->
  last parents = Some obj ->
  Py.slice (class_name obj) (Some (-4)) None = code ->
  is_parent_link (attr_name a) = false ->
  is_children_link (attr_name a) = false ->
  _extract_field_attributes self parents unique_labels a = Raise e ->
  e = AttributeError \/ e = ValueError.
Proof.
  intros Hrun Ha Hlast Hname Hp Hc.
  destruct (register_field_attrs_made _ _ _ _ _ _ _ Hrun Ha)
    as (j & fj & _ & Hfj & Hcj & Hrj & _).
  destruct (field_of_attr_some (flt_fields self) obj a fj)
    as (f & Hf & _); [by eapply list_elem_of_lookup_2|done|congruence|].
  unfold _extract_field_attributes. rewrite Hlast.
  destruct (extract_string_and_help _ _ _ _ _) as [[string help_attr] labels].
  assert (Hstr : exists s,
            (if Py.endswith string "_ids"
             then match Py.split string "_" !! 1%nat with
                  | Some s => Ok s
                  | None => Raise IndexError
                  end
             else Ok string) = Ok s).
  { destruct (Py.endswith string "_ids") eqn:E; [|by eexists].
    destruct (split_ids string E) as [s ->]. by eexists. }
  destruct Hstr as [s ->]. cbn [mbind result_bind].
  rewrite Hp, Hc, Hf.
  destruct (simple_kwargs f a _) as [kw|e'] eqn:Hs; [done|].
  cbn [mbind result_bind]. intros [= <-].
  by apply simple_kwargs_raise in Hs.
Qed.

End FieldKwargs.

Lemma generate_registers_classes_witness :
  NoDup (reg_code <$>
           get_registers (External := sample_external) "efd_icms_ipi" 2023) /\
  exists regs,
    module_registers (H := sample_external) "efd_icms_ipi" 2023 = Ok regs /\
    Forall2 (class_of_register
               (get_fields (External := sample_external) "efd_icms_ipi" 2023)
               "efd_icms_ipi" regs)
      (generated regs) (g_classes sample_gen).
Proof.
  assert (Hnd : NoDup (reg_code <$>
            get_registers (External := sample_external) "efd_icms_ipi" 2023))
    by (apply (bool_decide_unpack _); vm_compute; exact I).
  split; [exact Hnd|].
  exact (generate_registers_classes (H := sample_external) "efd_icms_ipi"
           2023 sample_gen Hnd sample_gen_ok).
Defined.

Lemma ecd_ecf_no_bloco_c_witness :
  Py.startswith (cls_qname sample_ecd_class) "RegistroC" = false.
Proof.
  apply (ecd_ecf_no_bloco_c (H := sample_external) "ecd" 2023 sample_ecd_gen
           sample_ecd_class).
  - by left.
  - vm_compute. reflexivity.
  - apply list_elem_of_In. vm_compute. tauto.
Defined.

Lemma field_attr_kwargs_found_witness :
  _extract_field_attributes (H := low_level_external) sample_filters_after
    [sample_class] None (float_attr "ALIQ_PIS_INDEX_3")
    = Raise AttributeError /\
  (AttributeError = AttributeError \/ AttributeError = ValueError).
Proof.
  assert (Hrun : _extract_field_attributes (H := low_level_external)
                   sample_filters_after [sample_class] None
                   (float_attr "ALIQ_PIS_INDEX_3") = Raise AttributeError)
    by (vm_compute; reflexivity).
  split; [exact Hrun|].
  apply (field_attr_kwargs_found (H := low_level_external)
           sample_filters_after [sample_class] sample_class None "C170"
           sample_fields "" sample_field_attrs.1.2 sample_field_attrs.2
           (float_attr "ALIQ_PIS_INDEX_3") AttributeError).
  - vm_compute. reflexivity.
  - apply list_elem_of_In. vm_compute. tauto.
  - reflexivity.
  - reflexivity.
  - reflexivity.
  - reflexivity.
  - exact Hrun.
Defined.
